(** * ukge data pipeline: name normalisation, identifier reconciliation,
      ring orientation, clipping and validation.

    Shallow embedding of [scripts/fix_data.py] and
    [scripts/clip_to_coastline.py].

    Conventions of the embedding:
    - a Python [str] is a Rocq [string]; inside the regular-expression
      engine it is the list of its characters.  Characters are the code
      points 0..255 (Rocq's [ascii]), classified as Python classifies them
      ([str.isspace], [\w], [str.lower]).
    - a JSON number is an exact rational ([Q]); rounding error of binary
      floating point is not modelled. *)

From Stdlib Require Import QArith Qround Lqa.
From Stdlib Require Import Ascii String.
From stdpp Require Import gmap strings list sorting.

Local Open Scope list_scope.

(* ===================================================================== *)
(** * Python's [re] on the fragment used by the scripts *)
(* ===================================================================== *)

Module PyRe.

(** Code point of a character. *)
Definition ord (c : ascii) : N := N_of_ascii c.

(** [str.isspace] / [\s] on code points below 256:
    9..13, 28..32, 133 and 160. *)
Definition is_space (c : ascii) : bool :=
  let n := ord c in
  ((9 <=? n) && (n <=? 13) || (28 <=? n) && (n <=? 32)
   || (n =? 133) || (n =? 160))%N.

(** [\w] on code points below 256: alphanumeric (in Python's Unicode
    sense) or underscore. *)
Definition is_word (c : ascii) : bool :=
  let n := ord c in
  ((48 <=? n) && (n <=? 57) || (65 <=? n) && (n <=? 90) || (n =? 95)
   || (97 <=? n) && (n <=? 122)
   || (n =? 170) || (n =? 178) || (n =? 179) || (n =? 181)
   || (n =? 185) || (n =? 186) || (188 <=? n) && (n <=? 190)
   || (192 <=? n) && (n <=? 214) || (216 <=? n) && (n <=? 246)
   || (248 <=? n) && (n <=? 255))%N.

(** [str.lower] on one code point below 256: A..Z and the Latin-1 capitals
    192..214, 216..222 move up by 32. *)
Definition lower_char (c : ascii) : ascii :=
  let n := ord c in
  if ((65 <=? n) && (n <=? 90) || (192 <=? n) && (n <=? 214)
      || (216 <=? n) && (n <=? 222))%N
  then ascii_of_N (n + 32) else c.

(** The pattern language: literals, a character class, greedy repetition
    of a class, sequence, alternation, [\b], [$] and [(?=...)]. *)
Inductive regex : Type :=
| Chr (c : ascii)
| Cls (p : ascii -> bool)
| Star (p : ascii -> bool)
| Plus (p : ascii -> bool)
| Cat (r1 r2 : regex)
| Alt (r1 r2 : regex)
| WordB
| Eol
| Ahead (r : regex).

(** A continuation receives the character before the current position and
    the rest of the subject; it answers with the number of characters the
    rest of the pattern consumes. *)
Definition cont : Type := option ascii -> list ascii -> option nat.

Definition is_word_at (o : option ascii) : bool :=
  match o with Some c => is_word c | None => false end.

(** Greedy [p*]: take one more character first, give it back when the
    continuation fails. *)
Fixpoint star (p : ascii -> bool) (k : cont) (prev : option ascii)
    (s : list ascii) : option nat :=
  match s with
  | c :: s' =>
      if p c then
        match star p k (Some c) s' with
        | Some n => Some (S n)
        | None => k prev s
        end
      else k prev s
  | [] => k prev s
  end.

(** Backtracking matcher; alternatives are tried in the order Python tries
    them, so the first success is the match [re] reports. *)
Fixpoint rmatch (r : regex) (k : cont) (prev : option ascii)
    (s : list ascii) : option nat :=
  match r with
  | Chr c =>
      match s with
      | c' :: s' => if Ascii.eqb c c' then S <$> k (Some c') s' else None
      | [] => None
      end
  | Cls p =>
      match s with
      | c' :: s' => if p c' then S <$> k (Some c') s' else None
      | [] => None
      end
  | Star p => star p k prev s
  | Plus p =>
      match s with
      | c' :: s' => if p c' then S <$> star p k (Some c') s' else None
      | [] => None
      end
  | Cat r1 r2 => rmatch r1 (rmatch r2 k) prev s
  | Alt r1 r2 =>
      match rmatch r1 k prev s with
      | Some n => Some n
      | None => rmatch r2 k prev s
      end
  | WordB =>
      if xorb (is_word_at prev) (is_word_at (head s)) then k prev s else None
  | Eol =>
      (* without re.MULTILINE: at the end, or before a final newline *)
      match s with
      | [] => k prev s
      | [c] => if Ascii.eqb c "010" then k prev s else None
      | _ => None
      end
  | Ahead r' =>
      match rmatch r' (fun _ _ => Some 0) prev s with
      | Some _ => k prev s
      | None => None
      end
  end.

(** Length of the match of [r] starting here, if there is one. *)
Definition match_at (r : regex) (prev : option ascii) (s : list ascii)
  : option nat :=
  rmatch r (fun _ _ => Some 0) prev s.

(** [re.sub]: scan left to right; a match is replaced and the scan resumes
    behind it ([skip] counts the matched characters still to drop), any
    other character is copied.  No pattern of the scripts matches the empty
    string (lemmas [*_nonempty] below), so the rule of [re.sub] for empty
    matches is never reached and an empty match is treated as no match. *)
Fixpoint sub_scan (r : regex) (repl : list ascii) (prev : option ascii)
    (skip : nat) (s : list ascii) : list ascii :=
  match s with
  | [] => []
  | c :: s' =>
      match skip with
      | S n => sub_scan r repl (Some c) n s'
      | O =>
          match match_at r prev s with
          | Some (S n) => repl ++ sub_scan r repl (Some c) n s'
          | _ => c :: sub_scan r repl (Some c) 0 s'
          end
      end
  end.

Definition re_sub (r : regex) (repl : string) (s : list ascii) : list ascii :=
  sub_scan r (list_ascii_of_string repl) None 0 s.

(** [str.replace] for a one-character needle. *)
Definition replace_char (old : ascii) (new : string) (s : list ascii)
  : list ascii :=
  flat_map (fun c => if Ascii.eqb c old then list_ascii_of_string new else [c]) s.

(** [str.strip()]: drop white space at both ends. *)
Fixpoint lstrip (s : list ascii) : list ascii :=
  match s with
  | c :: s' => if is_space c then lstrip s' else s
  | [] => []
  end.

Fixpoint rstrip (s : list ascii) : list ascii :=
  match s with
  | c :: s' =>
      match rstrip s' with
      | [] => if is_space c then [] else [c]
      | r => c :: r
      end
  | [] => []
  end.

Definition strip (s : list ascii) : list ascii := rstrip (lstrip s).

(** [str.lower()]. *)
Definition lower (s : list ascii) : list ascii := map lower_char s.

End PyRe.

(* ===================================================================== *)
(** * fix_data.py: normalize_constituency_name *)
(* ===================================================================== *)

Import PyRe.

(** [\bXY\b] *)
Definition word2 (a b : ascii) : regex :=
  Cat WordB (Cat (Chr a) (Cat (Chr b) WordB)).

(** [\bX\b(?=\s|$)] *)
Definition word1 (a : ascii) : regex :=
  Cat WordB (Cat (Chr a) (Cat WordB (Ahead (Alt (Cls is_space) Eol)))).

(** [\s*&\s*] *)
Definition amp_re : regex :=
  Cat (Star is_space) (Cat (Chr "&") (Star is_space)).

Definition normalize_chars (n : list ascii) : list ascii :=
  let n := re_sub amp_re " and " n in
  let n := replace_char "-" " " n in
  let n := re_sub (word2 "N" "E") "North East" n in
  let n := re_sub (word2 "N" "W") "North West" n in
  let n := re_sub (word2 "S" "E") "South East" n in
  let n := re_sub (word2 "S" "W") "South West" n in
  let n := re_sub (word1 "N") "North" n in
  let n := re_sub (word1 "S") "South" n in
  let n := re_sub (word1 "E") "East" n in
  let n := re_sub (word1 "W") "West" n in
  lower (strip (re_sub (Plus is_space) " " n)).

Definition normalize_constituency_name (name : string) : string :=
  match name with
  | EmptyString => EmptyString
  | _ => string_of_list_ascii (normalize_chars (list_ascii_of_string name))
  end.

(* ===================================================================== *)
(** * Python values shared by the scripts *)
(* ===================================================================== *)

(** Exceptions the modelled code can raise. *)
Inductive exn : Type :=
| IndexError
| TypeError.

(** A computation that returns or raises. *)
Inductive result (A : Type) : Type :=
| Ok (a : A)
| Raise (e : exn).

Arguments Ok {A} a.
Arguments Raise {A} e.

Definition rbind {A B : Type} (m : result A) (k : A -> result B) : result B :=
  match m with
  | Ok a => k a
  | Raise e => Raise e
  end.

#[global] Instance result_bind : MBind result :=
  fun A B k m => rbind m k.

#[global] Instance result_fmap : FMap result :=
  fun A B f m => rbind m (fun a => Ok (f a)).

(** [a > b] on numbers. *)
Definition Qgtb (a b : Q) : bool := negb (Qle_bool a b).

(* ===================================================================== *)
(** * GeoJSON documents *)
(* ===================================================================== *)

Module GeoJSON.

(** A position [[x, y]]: longitude and latitude. *)
Definition point : Type := (Q * Q)%type.

Definition ring : Type := list point.

(** Nested coordinate arrays as [json.load] delivers them. *)
#[warnings="-register-all"]
Inductive json : Type :=
| JNum (q : Q)
| JArr (items : list json).

(** Geometry types with a ['coordinates'] member that the scripts pass
    over. *)
Inductive other_type : Type :=
| Point
| MultiPoint
| LineString
| MultiLineString.

(** [{'type': ..., 'coordinates': ...}].  A Polygon is a sequence of rings,
    a MultiPolygon a sequence of polygons. *)
Inductive geometry : Type :=
| Polygon (coordinates : list ring)
| MultiPolygon (coordinates : list (list ring))
| OtherGeometry (type : other_type) (coordinates : json).

Definition other_type_name (t : other_type) : string :=
  match t with
  | Point => "Point"
  | MultiPoint => "MultiPoint"
  | LineString => "LineString"
  | MultiLineString => "MultiLineString"
  end.

(** [geometry['type']] *)
Definition geo_type (g : geometry) : string :=
  match g with
  | Polygon _ => "Polygon"
  | MultiPolygon _ => "MultiPolygon"
  | OtherGeometry t _ => other_type_name t
  end.

(** [feature['properties']]: ['id'] is always there, ['Name'] and
    ['normalizedName'] may be missing. *)
Record properties : Type := {
  p_id : string;
  p_Name : option string;
  p_normalizedName : option string
}.

Record feature : Type := {
  f_properties : properties;
  f_geometry : geometry
}.

(** The three assignments [properties['id'] = new_id],
    [properties['Name'] = new_name], [properties['normalizedName'] = norm]. *)
Definition set_names (f : feature) (new_id new_name norm : string) : feature :=
  {| f_properties := {| p_id := new_id; p_Name := Some new_name;
                        p_normalizedName := Some norm |};
     f_geometry := f_geometry f |}.

(** [properties['id'] = new_id] *)
Definition set_id (f : feature) (new_id : string) : feature :=
  {| f_properties := {| p_id := new_id;
                        p_Name := p_Name (f_properties f);
                        p_normalizedName := p_normalizedName (f_properties f) |};
     f_geometry := f_geometry f |}.

(** [feature['geometry'] = g] *)
Definition set_geometry (f : feature) (g : geometry) : feature :=
  {| f_properties := f_properties f; f_geometry := g |}.

(** Total number of points, the loop of both [count_coords] functions. *)
Definition count_points (g : geometry) : nat :=
  match g with
  | Polygon coords =>
      fold_left (fun total ring => total + length ring) coords 0
  | MultiPolygon coords =>
      fold_left
        (fun total polygon =>
           fold_left (fun total ring => total + length ring) polygon total)
        coords 0
  | OtherGeometry _ _ => 0
  end.

End GeoJSON.

Import GeoJSON.
(* ===================================================================== *)
(** * fix_data.py *)
(* ===================================================================== *)

Module FixData.

(** ** Tables *)

Definition BOUNDARY_RENAMES : list (string * list (string * string)) :=
  [ ("1955",
     [ ("EC_BARON_S_COURT", "EC_BARONS_COURT");
       ("EC_BUTE_AND_AYRSHIRE_NORTH", "EC_AYRSHIRE_NORTH_AND_BUTE");
       ("EC_CITIES_OF_LONDON_AND_WESTMISTER", "EC_CITIES_OF_LONDON_AND_WESTMINSTER");
       ("EC_CITY_OF_CHESTER", "EC_CHESTER__CITY_OF");
       ("EC_CLACKMANNAN_AND_EAST_STIRLINGSHIRE", "EC_STIRLINGSHIRE_EAST_AND_CLACKMANNAN");
       ("EC_DUNFERMLINE_BURGHS", "EC_DUNFERMLINE");
       ("EC_DURHAM", "EC_DURHAM__CITY_OF");
       ("EC_KINGSTON_UPON_HULL_EAST", "EC_HULL_EAST");
       ("EC_KINGSTON_UPON_HULL_NORTH", "EC_HULL_NORTH");
       ("EC_KINGSTON_UPON_HULL_WEST", "EC_HULL_WEST");
       ("EC_KIRKCALDY_BURGHS", "EC_KIRKCALDY");
       ("EC_LLANELLY", "EC_LLANELLI");
       ("EC_MANSFIIELD", "EC_MANSFIELD");
       ("EC_STRATFORD", "EC_STRATFORD_ON_AVON");
       ("EC_THE_HARTLEPOOLS", "EC_HARTLEPOOLS__THE");
       ("EC_THE_WREKIN", "EC_WREKIN__THE");
       ("EC_WOLVERHAMTON_NORTH_EAST", "EC_WOLVERHAMPTON_NORTH_EAST");
       ("EC_WOLVERHAMTON_SOUTH_WEST", "EC_WOLVERHAMPTON_SOUTH_WEST");
       ("EC__WANSTEAD_AND___WOODFORD", "EC_WANSTEAD_AND_WOODFORD");
       ("EC_YORK", "EC_YORK__CITY_OF") ]);
    ("1974",
     [ ("EC_ASHTON_UNDER_LINE", "EC_ASHTON_UNDER_LYNE");
       ("EC_BIRMINGHA_SELLY_OAK", "EC_BIRMINGHAM_SELLY_OAK");
       ("EC_BUTE_AND_AYRSHIRE_NORTH", "EC_AYRSHIRE_NORTH_AND_BUTE");
       ("EC_CITY_OF_CHESTER", "EC_CHESTER__CITY_OF");
       ("EC_CITY_OF_LONDON_AND_WESTMISTER_SOUTH", "EC_CITY_OF_LONDON_AND_WESTMINSTER_SOUTH");
       ("EC_CLACKMANNAN_AND_EAST_STIRLINGSHIRE", "EC_STIRLINGSHIRE_EAST_AND_CLACKMANNAN");
       ("EC_DURHAM", "EC_DURHAM__CITY_OF");
       ("EC_GASGOW_SHETTLESTON", "EC_GLASGOW_SHETTLESTON");
       ("EC_KINGSTON_UPON_HULL_CENTRAL", "EC_HULL_CENTRAL");
       ("EC_KINGSTON_UPON_HULL_EAST", "EC_HULL_EAST");
       ("EC_KINGSTON_UPON_HULL_WEST", "EC_HULL_WEST");
       ("EC_NOTTINGHSM_WEST", "EC_NOTTINGHAM_WEST");
       ("EC_OXON_MID", "EC_OXFORDSHIRE_MID");
       ("EC_ROYAL_TUNBRIDGE_WELLS", "EC_TUNBRIDGE_WELLS");
       ("EC_THE_WREKIN", "EC_WREKIN__THE");
       ("EC_WOLVERHAMTON_NORTH_EAST", "EC_WOLVERHAMPTON_NORTH_EAST");
       ("EC_YORK", "EC_YORK__CITY_OF") ]);
    ("1983",
     [ ("EC_BIRKENDHEAD", "EC_BIRKENHEAD");
       ("EC_CARRICK__CUMNOCK_AND_DOON_VALLEY", "EC_CARRICK");
       ("EC_CITY_OF_CHESTER", "EC_CHESTER__CITY_OF");
       ("EC_CITY_OF_DURHAM", "EC_DURHAM__CITY_OF");
       ("EC_DEVON_WEST_AND_TORRIDGE", "EC_TORRIDGE_AND_WEST_DEVON");
       ("EC_GLLINGHAM", "EC_GILLINGHAM");
       ("EC_INVERNESS__NAIRN_AND_LOCHABER", "EC_INVERNESS");
       ("EC_KILMARNOCK_AND_LOUDON", "EC_KILMARNOCK_AND_LOUDOUN");
       ("EC_LEEDS_SOUTH_AND_MORLEY", "EC_MORLEY_AND_LEEDS_SOUTH");
       ("EC_LINDSEY_EAST", "EC_EAST_LINDSEY");
       ("EC_ROSS__CROMARTY_AND_SKYE", "EC_ROSS");
       ("EC_SHEFFIELD_HILLBOROUGH", "EC_SHEFFIELD_HILLSBOROUGH");
       ("EC_THE_WREKIN", "EC_WREKIN__THE");
       ("EC_TWEEDDALE__ETTRICK_AND_LAUDERDALE", "EC_TWEEDDALE");
       ("EC_WOLVERHMAPTON_NORTH_EAST", "EC_WOLVERHAMPTON_NORTH_EAST");
       ("EC_YNYS_MON", "EC_YNYS_MON___ANGLESEY");
       ("EC_YORK", "EC_YORK__CITY_OF") ]);
    ("1997",
     [ ("EC_CAITHNESS__SUTHERLAND_AND_EASTER_ROSS", "EC_CAITHNESS_SUTHERLAND_AND_EASTER_ROSS");
       ("EC_CARRICK__CUMNOCK_AND_DOON_VALLEY", "EC_CARRICK_CUMNOCK_AND_DOON_VALLEY");
       ("EC_CITY_OF_CHESTER", "EC_CHESTER__CITY_OF");
       ("EC_CITY_OF_DURHAM", "EC_DURHAM__CITY_OF");
       ("EC_CITY_OF_YORK", "EC_YORK__CITY_OF");
       ("EC_GREAT_GRIMSBBY", "EC_GREAT_GRIMSBY");
       ("EC_INVERNESS_E__NAIRN_AND_LOCHABER", "EC_INVERNESS_EAST_NAIRN_AND_LOCHABER");
       ("EC_KILMARNOCK_AND_LOUDON", "EC_KILMARNOCK_AND_LOUDOUN");
       ("EC_ROSS__SKYE_AND_INVERNESS_WEST", "EC_ROSS_SKYE_AND_INVERNESS_WEST");
       ("EC_SHEFFILED_BRIGHTSIDE", "EC_SHEFFIELD_BRIGHTSIDE");
       ("EC_SHEFFILED_CENTRAL", "EC_SHEFFIELD_CENTRAL");
       ("EC_SHEFFILED_HEELEY", "EC_SHEFFIELD_HEELEY");
       ("EC_SOUTHHAMPTON_ITCHIN", "EC_SOUTHAMPTON_ITCHEN");
       ("EC_THE_WREKIN", "EC_WREKIN__THE");
       ("EC_TWEEDDALE__ETTRICK_AND_LAUDERDALE", "EC_TWEEDDALE_ETTRICK_AND_LAUDERDALE") ]);
    ("2005",
     [ ("EC_AIDRIE_AND_SHOTTS", "EC_AIRDRIE_AND_SHOTTS");
       ("EC_AYR__CARRICK_AND_CUMNOCK", "EC_AYR_CARRICK_AND_CUMNOCK");
       ("EC_CAITHNESS__SUTHERLAND_AND_EASTER_ROSS", "EC_CAITHNESS_SUTHERLAND_AND_EASTER_ROSS");
       ("EC_CITY_OF_CHESTER", "EC_CHESTER__CITY_OF");
       ("EC_CITY_OF_DURHAM", "EC_DURHAM__CITY_OF");
       ("EC_CITY_OF_YORK", "EC_YORK__CITY_OF");
       ("EC_GREAT_GRIMSBBY", "EC_GREAT_GRIMSBY");
       ("EC_INVERNESS__NAIRN__BADENOCH_AND_STRATHSPEY", "EC_INVERNESS_NAIRN_BADENOCH_AND_STRATHSPEY");
       ("EC_KILMARNOCK_AND_LOUDON", "EC_KILMARNOCK_AND_LOUDOUN");
       ("EC_LINLITHGOW_AND_FALKIRK_EAST", "EC_LINLITHGOW_AND_EAST_FALKIRK");
       ("EC_NA_H_EILEANAN_AN_IAR", "EC_NA_H_EILEANAN_AN_IAR__WESTERN_ISLES_");
       ("EC_ROSS__SKYE_AND_LOCHABER", "EC_ROSS_SKYE_AND_LOCHABER");
       ("EC_SHEFFILED_BRIGHTSIDE", "EC_SHEFFIELD_BRIGHTSIDE");
       ("EC_SHEFFILED_CENTRAL", "EC_SHEFFIELD_CENTRAL");
       ("EC_SHEFFILED_HEELEY", "EC_SHEFFIELD_HEELEY");
       ("EC_SOUTHHAMPTON_ITCHIN", "EC_SOUTHAMPTON_ITCHEN");
       ("EC_THE_WREKIN", "EC_WREKIN__THE") ]);
    ("2010",
     [ ("EC_AIDRIE_AND_SHOTTS", "EC_AIRDRIE_AND_SHOTTS");
       ("EC_AYR__CARRICK_AND_CUMNOCK", "EC_AYR_CARRICK_AND_CUMNOCK");
       ("EC_BRIDGWATER_AND_SOMERSET_WEST", "EC_BRIDGWATER_AND_WEST_SOMERSET");
       ("EC_CAITHNESS__SUTHERLAND_AND_EASTER_ROSS", "EC_CAITHNESS_SUTHERLAND_AND_EASTER_ROSS");
       ("EC_CANBRIDGESHIRE_SOUTH_EAST", "EC_CAMBRIDGESHIRE_SOUTH_EAST");
       ("EC_CITY_OF_CHESTER", "EC_CHESTER__CITY_OF");
       ("EC_CITY_OF_DURHAM", "EC_DURHAM__CITY_OF");
       ("EC_GREAT_GRIMSBBY", "EC_GREAT_GRIMSBY");
       ("EC_HEREFORD_AND_HEREFORDSHIRE_SOUTH", "EC_HEREFORD_AND_SOUTH_HEREFORDSHIRE");
       ("EC_INVERNESS__NAIRN__BADENOCH_AND_STRATHSPEY", "EC_INVERNESS_NAIRN_BADENOCH_AND_STRATHSPEY");
       ("EC_KILMARNOCK_AND_LOUDON", "EC_KILMARNOCK_AND_LOUDOUN");
       ("EC_LINLITHGOW_AND_FALKIRK_EAST", "EC_LINLITHGOW_AND_EAST_FALKIRK");
       ("EC_MORCAMBE_AND_LUNESDALE", "EC_MORECAMBE_AND_LUNESDALE");
       ("EC_NA_H_EILEANAN_AN_IAR", "EC_NA_H_EILEANAN_AN_IAR__WESTERN_ISLES_");
       ("EC_NORTHAMAPTON_SOUTH", "EC_NORTHAMPTON_SOUTH");
       ("EC_ROSS__SKYE_AND_LOCHABER", "EC_ROSS_SKYE_AND_LOCHABER");
       ("EC_SOUTH_RIBBLE", "EC_RIBBLE_SOUTH");
       ("EC_SUUFOLK_WEST", "EC_SUFFOLK_WEST");
       ("EC_THE_COTSWOLDS", "EC_COTSWOLDS__THE");
       ("EC_THE_WREKIN", "EC_WREKIN__THE") ]);
    ("2024",
     [ ("EC_AYR_CARRICK_AND_CUMNOCK", "EC_AYR__CARRICK_AND_CUMNOCK");
       ("EC_CAERFYRDDIN", "EC_CAERFYRDDIN__CARMARTHEN_");
       ("EC_CITY_OF_DURHAM", "EC_DURHAM__CITY_OF");
       ("EC_DORSET_MID_AND_POOLE_NORTH", "EC_DORSET_MID_AND_NORTH_POOLE");
       ("EC_FAVERSHAM_AND_KENT_MID", "EC_FAVERSHAM_AND_MID_KENT");
       ("EC_KILMARNOCK_AND_LOUDON", "EC_KILMARNOCK_AND_LOUDOUN");
       ("EC_MIDDLESBROUGH_SOUTH_AND_CLEVELAND_EAST", "EC_MIDDLESBROUGH_SOUTH_AND_EAST_CLEVELAND");
       ("EC_MORAY_W__NAIRN_AND_STRATHSPEY", "EC_MORAY_WEST__NAIRN_AND_STRATHSPEY");
       ("EC_NA_H_EILEANAN_AN_IAR", "EC_NA_H_EILEANAN_AN_IAR__WESTERN_ISLES_");
       ("EC_OLDHAM_W__CHADDERTON_AND_ROYTON", "EC_OLDHAM_WEST__CHADDERTON_AND_ROYTON");
       ("EC_SUFFOLK_CENTRAL_AND_IPSWICH_NORTH", "EC_SUFFOLK_CENTRAL_AND_NORTH_IPSWICH");
       ("EC_THE_WREKIN", "EC_WREKIN__THE");
       ("EC_YNYS_M_N", "EC_YNYS_MON__ANGLESEY_") ]) ].

(** [BOUNDARY_RENAMES[version]] as a dictionary; [None] when [version] is
    not a key. *)
Definition renames_of (version : string) : option (gmap string string) :=
  list_to_map <$> (list_to_map BOUNDARY_RENAMES : gmap string _) !! version.

Definition RICHMOND_SPLIT_VERSIONS : list string := ["1955"; "1974"].

Definition EMPTY_FEATURE_VERSIONS : list string := ["1997"; "2005"].

Definition DEDUP_VERSIONS : list string := ["2010"].

(** ** count_coords, get_centroid_lat *)

Definition count_coords (feature : feature) : nat :=
  count_points (f_geometry feature).

Definition get_centroid_lat (feature : feature) : Q :=
  let all_points : list point :=
    match f_geometry feature with
    | Polygon coords => fold_left (fun acc ring => acc ++ ring) coords []
    | MultiPolygon coords =>
        fold_left
          (fun acc polygon => fold_left (fun acc ring => acc ++ ring) polygon acc)
          coords []
    | OtherGeometry _ _ => []
    end in
  match all_points with
  | [] => 0%Q
  | _ =>
      (fold_left Qplus (map snd all_points) 0
       / inject_Z (Z.of_nat (length all_points)))%Q
  end.

(** ** fix_boundary_files, one boundary version *)

(** Richmond split, the body of the loop for one feature. *)
Definition richmond_split (feature : feature) : GeoJSON.feature :=
  if decide (p_id (f_properties feature) = "EC_RICHMOND") then
    let lat := get_centroid_lat feature in
    if Qgtb lat 53
    then set_names feature "EC_RICHMOND__YORKS_" "Richmond (Yorks.)" "Richmond (Yorks.)"
    else set_names feature "EC_RICHMOND__SURREY_" "Richmond (Surrey)" "Richmond (Surrey)"
  else feature.

(** Empty feature, the body of the loop for one feature. *)
Definition empty_feature (feature : feature) : GeoJSON.feature :=
  if decide (p_id (f_properties feature) = "EC_") then
    set_names feature "EC_SOUTHEND_WEST" "Southend West" "Southend West"
  else feature.

(** Identifier renames, the body of the loop for one feature. *)
Definition apply_rename (renames : gmap string string) (feature : feature)
  : GeoJSON.feature :=
  match renames !! p_id (f_properties feature) with
  | Some new_id => set_id feature new_id
  | None => feature
  end.

(** How many features a loop touches: each one adds 1 to [rename_count]. *)
Definition count_if (P : feature -> bool) (features : list feature) : nat :=
  length (filter (fun f => P f = true) features).

Definition has_id (fid : string) (feature : feature) : bool :=
  bool_decide (p_id (f_properties feature) = fid).

(** [id_features]: a [defaultdict(list)] filled in document order. *)
Definition group_by_id (features : list feature) : gmap string (list feature) :=
  fold_left
    (fun id_features feature =>
       let fid := p_id (f_properties feature) in
       <[fid := default [] (id_features !! fid) ++ [feature]]> id_features)
    features ∅.

(** [max(l, key=key)]: the first element with the largest key; [None]
    stands for the ValueError on an empty list. *)
Definition py_max {A : Type} (key : A -> nat) (l : list A) : option A :=
  match l with
  | [] => None
  | x :: xs =>
      Some (fold_left (fun best y => if key best <? key y then y else best) xs x)
  end.

Record dedup_state : Type := {
  dupe_count : nat;
  deduped : list feature;
  seen_ids : gset string
}.

(** One round of the deduplication loop; [None] stands for an exception
    ([candidates[0]] or [max] on an empty list). *)
Definition dedup_step (id_features : gmap string (list feature))
    (st : option dedup_state) (feature : feature) : option dedup_state :=
  st ← st;
  let fid := p_id (f_properties feature) in
  if decide (fid ∈ seen_ids st) then Some st
  else
    let seen := seen_ids st ∪ {[fid]} in
    let candidates := default [] (id_features !! fid) in
    if 1 <? length candidates then
      best ← py_max count_coords candidates;
      Some {| dupe_count := dupe_count st + (length candidates - 1);
              deduped := deduped st ++ [best];
              seen_ids := seen |}
    else
      first ← head candidates;
      Some {| dupe_count := dupe_count st;
              deduped := deduped st ++ [first];
              seen_ids := seen |}.

Definition dedup_loop (features : list feature) : option dedup_state :=
  fold_left (dedup_step (group_by_id features)) features
    (Some {| dupe_count := 0; deduped := []; seen_ids := ∅ |}).

(** State of one pass over a boundary document. *)
Record pass : Type := {
  features : list feature;
  modified : bool;
  rename_count : nat
}.

Definition richmond_stage (version : string) (p : pass) : pass :=
  if decide (version ∈ RICHMOND_SPLIT_VERSIONS) then
    let n := count_if (has_id "EC_RICHMOND") (features p) in
    {| features := map richmond_split (features p);
       modified := modified p || (0 <? n);
       rename_count := rename_count p + n |}
  else p.

Definition empty_feature_stage (version : string) (p : pass) : pass :=
  if decide (version ∈ EMPTY_FEATURE_VERSIONS) then
    let n := count_if (has_id "EC_") (features p) in
    {| features := map empty_feature (features p);
       modified := modified p || (0 <? n);
       rename_count := rename_count p + n |}
  else p.

Definition rename_stage (renames : gmap string string) (p : pass) : pass :=
  let n := count_if (fun f => bool_decide (is_Some (renames !! p_id (f_properties f))))
             (features p) in
  {| features := map (apply_rename renames) (features p);
     modified := modified p || (0 <? n);
     rename_count := rename_count p + n |}.

Definition dedup_stage (version : string) (p : pass) : option pass :=
  if decide (version ∈ DEDUP_VERSIONS) then
    st ← dedup_loop (features p);
    if 0 <? dupe_count st then
      Some {| features := deduped st; modified := true;
              rename_count := rename_count p |}
    else Some p
  else Some p.

(** The body of the loop of [fix_boundary_files] for one version, from the
    loaded [data['features']] to the list that is written back when
    [modified] is set.  The outer [None]: [version] is not a key of
    BOUNDARY_RENAMES and the loop never visits it; the inner one: an
    exception. *)
Definition fix_boundary_version (version : string) (data : list feature)
  : option (option pass) :=
  renames ← renames_of version;
  let p := {| features := data; modified := false; rename_count := 0 |} in
  let p := richmond_stage version p in
  let p := empty_feature_stage version p in
  let p := rename_stage renames p in
  Some (dedup_stage version p).

(** ** ring_signed_area, fix_winding_order *)

Definition ring_signed_area (ring : ring) : Q :=
  let n := length ring in
  let at_ (i : nat) : point := nth i ring (0%Q, 0%Q) in
  (fold_left
     (fun area i =>
        let j := ((i + 1) mod n)%nat in
        area + fst (at_ i) * snd (at_ j) - fst (at_ j) * snd (at_ i))
     (seq 0 n) 0
   / 2)%Q.

(** Does ring number [i] of a polygon with this signed area get reversed? *)
Definition wrong_way (i : nat) (area : Q) : bool :=
  match i with
  | O => Qgtb area 0        (* outer ring should be CW (negative area) *)
  | S _ => Qgtb 0 area      (* holes should be CCW (positive area) *)
  end.

(** The body of the loop over [enumerate(rings)]. *)
Definition rewind_ring (i : nat) (ring : ring) : GeoJSON.ring :=
  if wrong_way i (ring_signed_area ring) then rev ring else ring.

Definition rewind_rings (rings : list ring) : list ring :=
  imap rewind_ring rings.

Definition rewound_in (rings : list ring) : nat :=
  length (filter (fun b : bool => b = true)
            (imap (fun i ring => wrong_way i (ring_signed_area ring)) rings)).

Definition rewind_geometry (geom : geometry) : geometry :=
  match geom with
  | Polygon rings => Polygon (rewind_rings rings)
  | MultiPolygon polygons => MultiPolygon (map rewind_rings polygons)
  | OtherGeometry t c => OtherGeometry t c
  end.

Definition rewound_geometry (geom : geometry) : nat :=
  match geom with
  | Polygon rings => rewound_in rings
  | MultiPolygon polygons =>
      fold_left (fun n polygon => n + rewound_in polygon) polygons 0
  | OtherGeometry _ _ => 0
  end.

Record winding_pass : Type := {
  w_features : list feature;
  w_modified : bool;
  rewound : nat
}.

(** The body of the loop of [fix_winding_order] for one boundary file. *)
Definition fix_winding_order (data : list feature) : winding_pass :=
  let n := fold_left (fun n f => n + rewound_geometry (f_geometry f)) data 0 in
  {| w_features :=
       map (fun f => set_geometry f (rewind_geometry (f_geometry f))) data;
     w_modified := 0 <? n;
     rewound := n |}.

(** ** sync_boundary_names, one boundary file *)

(** The body of the loop over [data['features']]; the flag tells whether
    the feature was updated. *)
Definition sync_feature (name_lookup : gmap string string) (feature : feature)
  : GeoJSON.feature * bool :=
  let fid := p_id (f_properties feature) in
  match name_lookup !! fid with
  | Some election_name =>
      let normalized := normalize_constituency_name election_name in
      let current_name := default ""%string (p_Name (f_properties feature)) in
      let current_normalized :=
        default ""%string (p_normalizedName (f_properties feature)) in
      if negb (String.eqb current_name election_name)
         || negb (String.eqb current_normalized normalized)
      then (set_names feature fid election_name normalized, true)
      else (feature, false)
  | None => (feature, false)
  end.

Definition sync_boundary_names (name_lookup : gmap string string)
    (data : list feature) : list feature * nat :=
  (map (fun f => fst (sync_feature name_lookup f)) data,
   length (filter (fun f => snd (sync_feature name_lookup f) = true) data)).

(** ** fix_election_files, one election file *)

Definition BOUNDARY_VERSION_FIXES : list (string * string) :=
  [ ("1955", "1955"); ("1959", "1955"); ("1964", "1955"); ("1966", "1955");
    ("1970", "1955"); ("2005", "2005") ].

Definition YEAR_ENCODING_FIXES : list (string * Z) :=
  [ ("197402", 197402%Z); ("197410", 197410%Z) ].

Definition WOODFORD_RENAME_YEARS : list string := ["1955"; "1959"].

(** [d[key]] for a dictionary written as a list of items with distinct
    keys; [None] when [key in d] is false. *)
Definition dict_get {V : Type} (d : list (string * V)) (key : string)
  : option V :=
  snd <$> List.find (fun kv => String.eqb (fst kv) key) d.

(** An item of [data['constituencies']]; [None] is a missing key, as
    [c.get(...)] sees it. *)
Record row : Type := {
  r_constituencyId : option string;
  r_constituencyName : option string;
  r_year : option Z
}.

(** An election document: the members this function reads. *)
Record election_file : Type := {
  boundaryVersion : option string;
  e_year : option Z;
  constituencies : list row
}.

(** [c['year'] = expected_year] when [c.get('year') != expected_year]. *)
Definition fix_row_year (expected_year : Z) (c : row) : row :=
  if decide (r_year c = Some expected_year) then c
  else {| r_constituencyId := r_constituencyId c;
          r_constituencyName := r_constituencyName c;
          r_year := Some expected_year |}.

(** The Woodford rename of one row. *)
Definition rename_woodford (c : row) : row :=
  if decide (r_constituencyId c = Some "EC_WOODFORD"%string) then
    {| r_constituencyId := Some "EC_WANSTEAD_AND_WOODFORD"%string;
       r_constituencyName := Some "Wanstead and Woodford"%string;
       r_year := r_year c |}
  else c.

(** The body of the loop of [fix_election_files] for the file
    [year_str.json]: the document and the [modified] flag (the file is
    written back when it is set). *)
Definition fix_election_file (year_str : string) (data : election_file)
  : election_file * bool :=
  (* Fix boundaryVersion *)
  let '(data, modified) :=
    match dict_get BOUNDARY_VERSION_FIXES year_str with
    | Some expected =>
        if decide (boundaryVersion data = Some expected) then (data, false)
        else ({| boundaryVersion := Some expected; e_year := e_year data;
                 constituencies := constituencies data |}, true)
    | None => (data, false)
    end in
  (* Fix year encoding for 197402/197410 *)
  let '(data, modified) :=
    match dict_get YEAR_ENCODING_FIXES year_str with
    | Some expected_year =>
        let '(data, modified) :=
          if decide (e_year data = Some expected_year) then (data, modified)
          else ({| boundaryVersion := boundaryVersion data;
                   e_year := Some expected_year;
                   constituencies := constituencies data |}, true) in
        ({| boundaryVersion := boundaryVersion data; e_year := e_year data;
            constituencies := map (fix_row_year expected_year) (constituencies data) |},
         modified
         || existsb (fun c => negb (bool_decide (r_year c = Some expected_year)))
              (constituencies data))
    | None => (data, modified)
    end in
  (* Rename EC_WOODFORD in 1955/1959 *)
  if decide (year_str ∈ WOODFORD_RENAME_YEARS) then
    ({| boundaryVersion := boundaryVersion data; e_year := e_year data;
        constituencies := map rename_woodford (constituencies data) |},
     modified
     || existsb (fun c => bool_decide (r_constituencyId c = Some "EC_WOODFORD"%string))
          (constituencies data))
  else (data, modified).

(** ** validate *)

(** An entry of [election['constituencies']]. *)
Record constituency : Type := {
  constituencyId : string;
  constituencyName : string
}.

Definition year_to_boundary : list (string * string) :=
  [ ("1955", "1955"); ("1959", "1955"); ("1964", "1955"); ("1966", "1955");
    ("1970", "1955");
    ("197402", "1974"); ("197410", "1974"); ("1979", "1974");
    ("1983", "1983"); ("1987", "1983"); ("1992", "1983");
    ("1997", "1997"); ("2001", "1997");
    ("2005", "2005");
    ("2010", "2010"); ("2015", "2010"); ("2017", "2010"); ("2019", "2010");
    ("2024", "2024") ].

(** ** sync_boundary_names, the name lookup *)

(** [sync_boundary_names] holds the same [year_to_boundary] dictionary as
    [validate].  The loop over [election['constituencies']]: a name is
    stored only for an identifier that has none yet. *)
Definition add_names (names : gmap string string)
    (election : list constituency) : gmap string string :=
  fold_left
    (fun names c =>
       match names !! constituencyId c with
       | Some _ => names
       | None => <[constituencyId c := constituencyName c]> names
       end)
    election names.

(** The loop over [year_to_boundary.items()], with the election directory
    as a function from file stem to the constituencies of the document;
    the inner dictionary of a version is created on first use and then
    updated in place. *)
Definition name_lookup_loop (elections : string -> list constituency)
    (items : list (string * string))
    (boundary_name_lookup : gmap string (gmap string string))
  : gmap string (gmap string string) :=
  fold_left
    (fun lookup '(year_str, bv) =>
       let lookup :=
         match lookup !! bv with
         | Some _ => lookup
         | None => <[bv := ∅]> lookup
         end in
       <[bv := add_names (default ∅ (lookup !! bv)) (elections year_str)]>
         lookup)
    items boundary_name_lookup.

Definition boundary_name_lookup (elections : string -> list constituency)
  : gmap string (gmap string string) :=
  name_lookup_loop elections year_to_boundary ∅.

(** ** validate, continued *)

Definition known_exceptions : gset (string * string) :=
  {[ ("1992", "EC_MILTON_KEYNES_NORTH_EAST");
     ("1992", "EC_MILTON_KEYNES_SOUTH_WEST") ]}.

(** Order of Python strings: by code point. *)
Definition str_le : relation string := fun a b => String.leb a b = true.

#[global] Instance str_le_dec : RelDecision str_le :=
  fun a b => decide (String.leb a b = true).

(** [sorted(s)] for a set of strings. *)
Definition sorted (s : gset string) : list string :=
  merge_sort str_le (elements s).

(** [sorted(d.items())] for a dictionary with string keys (the keys are
    distinct, so they decide the order). *)
Definition item_le : relation (string * string) :=
  fun p q => String.leb (fst p) (fst q) = true.

#[global] Instance item_le_dec : RelDecision item_le :=
  fun p q => decide (String.leb (fst p) (fst q) = true).

Definition sorted_items (d : list (string * string)) : list (string * string) :=
  merge_sort item_le d.

(** What [validate] prints. *)
Inductive line : Type :=
| Mismatch (year_str bv : string)
| MissingFromBoundary (ids : list string)
| MissingFromElection (ids : list string)
| AllOk (year_str bv : string) (n : nat)
| AllClear
| Remaining (total_mismatches : nat).

(** [set(c['constituencyId'] for c in election['constituencies'])] *)
Definition election_ids (election : list constituency) : gset string :=
  list_to_set (map constituencyId election).

(** [set(f['properties']['id'] for f in boundary['features']
          if f['properties'].get('id'))]: an empty identifier is falsy. *)
Definition boundary_ids (boundary : list feature) : gset string :=
  list_to_set
    (map (fun f => p_id (f_properties f))
       (filter (fun f => p_id (f_properties f) <> ""%string) boundary)).

(** The two sets of one round of the loop, after the exceptions are
    filtered out. *)
Record mismatches : Type := {
  missing_from_boundary : gset string;
  missing_from_election : gset string
}.

Definition compare_ids (year_str : string) (election : list constituency)
    (boundary : list feature) : mismatches :=
  let election_ids := election_ids election in
  let boundary_ids := boundary_ids boundary in
  let missing_from_boundary := election_ids ∖ boundary_ids in
  let missing_from_election := boundary_ids ∖ election_ids in
  let missing_from_boundary :=
    filter (fun m => (year_str, m) ∉ known_exceptions) missing_from_boundary in
  {| missing_from_boundary := missing_from_boundary;
     missing_from_election := missing_from_election |}.

(** Truth value of a set: not empty. *)
Definition truthy (s : gset string) : bool := bool_decide (s <> ∅).

(** One round of the loop: the lines printed and the number added to
    [total_mismatches]. *)
Definition validate_pair (year_str bv : string) (election : list constituency)
    (boundary : list feature) : list line * nat :=
  let m := compare_ids year_str election boundary in
  if truthy (missing_from_boundary m) || truthy (missing_from_election m) then
    ([Mismatch year_str bv]
       ++ (if truthy (missing_from_boundary m)
           then [MissingFromBoundary (take 10 (sorted (missing_from_boundary m)))]
           else [])
       ++ (if truthy (missing_from_election m)
           then [MissingFromElection (take 10 (sorted (missing_from_election m)))]
           else []),
     size (missing_from_boundary m) + size (missing_from_election m))
  else
    ([AllOk year_str bv (size (election_ids election))], 0).

(** [validate], with the two directories as functions from file stem to
    document. *)
Definition validate (elections : string -> list constituency)
    (boundaries : string -> list feature) : list line :=
  let '(printed, total_mismatches) :=
    fold_left
      (fun '(printed, total) '(year_str, bv) =>
         let '(lines, n) :=
           validate_pair year_str bv (elections year_str) (boundaries bv) in
         (printed ++ lines, total + n))
      (sorted_items year_to_boundary) ([], 0) in
  printed ++ [if total_mismatches =? 0 then AllClear
              else Remaining total_mismatches].

End FixData.
(* ===================================================================== *)
(** * clip_to_coastline.py *)
(* ===================================================================== *)

Module Clip.

Definition MIN_AREA : Q := 1 # 1000000.

(** ** The geometry library *)

(** A Shapely polygon: the exterior ring and the holes. *)
Definition spolygon : Type := list ring.

(** A Shapely geometry value. *)
#[warnings="-register-all"]
Inductive sgeom : Type :=
| SPolygon (p : spolygon)
| SMultiPolygon (geoms : list spolygon)
| SCollection (geoms : list sgeom)
| SOther.

(** The operations of Shapely that the script calls.  [shape] answers
    [None] when it raises, [intersection] answers [inl e] when it raises
    the exception [e]. *)
Record engine : Type := {
  shape : geometry -> option sgeom;
  is_valid : sgeom -> bool;
  make_valid : sgeom -> sgeom;
  intersection : sgeom -> sgeom -> string + sgeom;
  is_empty : sgeom -> bool;
  area : spolygon -> Q
}.

(** ** extract_polygons *)

Fixpoint extract_polygons (E : engine) (geom : sgeom) : list spolygon :=
  if is_empty E geom then []
  else
    match geom with
    | SPolygon p => if Qle_bool MIN_AREA (area E p) then [p] else []
    | SMultiPolygon geoms =>
        List.filter (fun poly => Qle_bool MIN_AREA (area E poly)) geoms
    | SCollection geoms => flat_map (extract_polygons E) geoms
    | SOther => []
    end.

(** ** round_coords *)

(** [round(c, precision)] on an exact number: to the nearest multiple of
    [10 ** -precision], a tie to the even one. *)
Definition py_round (c : Q) (precision : nat) : Q :=
  let scale := inject_Z (10 ^ Z.of_nat precision) in
  let x := (c * scale)%Q in
  let f := Qfloor x in
  let d := (x - inject_Z f)%Q in
  let n := if Qgtb (1 # 2) d then f
           else if Qgtb d (1 # 2) then (f + 1)%Z
           else if Z.even f then f else (f + 1)%Z in
  (inject_Z n / scale)%Q.

(** [[round(c, precision) for c in coords]]; [round] of a list raises
    TypeError. *)
Fixpoint round_numbers (precision : nat) (coords : list json)
  : result (list json) :=
  match coords with
  | [] => Ok []
  | JNum c :: rest =>
      rs ← round_numbers precision rest; Ok (JNum (py_round c precision) :: rs)
  | JArr _ :: _ => Raise TypeError
  end.

(** [coords[0]] raises IndexError on an empty list and TypeError on a
    number. *)
Fixpoint round_coords (coords : json) (precision : nat) : result json :=
  match coords with
  | JNum _ => Raise TypeError
  | JArr items =>
      match items with
      | [] => Raise IndexError
      | JNum _ :: _ => JArr <$> round_numbers precision items
      | JArr _ :: _ =>
          JArr <$>
          (fix each (cs : list json) : result (list json) :=
             match cs with
             | [] => Ok []
             | c :: rest =>
                 r ← round_coords c precision;
                 rs ← each rest;
                 Ok (r :: rs)
             end) items
      end
  end.

(** ** The coordinates of a geometry as nested arrays *)

Definition json_of_point (p : point) : json := JArr [JNum (fst p); JNum (snd p)].

Definition json_of_ring (r : ring) : json := JArr (map json_of_point r).

Definition json_of_polygon (p : list ring) : json := JArr (map json_of_ring p).

Definition json_of_coordinates (g : geometry) : json :=
  match g with
  | Polygon coords => json_of_polygon coords
  | MultiPolygon coords => JArr (map json_of_polygon coords)
  | OtherGeometry _ coords => coords
  end.

Definition round_point (p : point) : point :=
  (py_round (fst p) 3, py_round (snd p) 3).

Definition solid_polygon (p : list ring) : bool :=
  negb (bool_decide (p = [])) && forallb (fun r => negb (bool_decide (r = []))) p.

(** [round_coords(result_dict['coordinates'])] at the two shapes
    [mapping] produces; it is proved below to agree with [round_coords]
    on the coordinate tree of the geometry. *)
Definition round_geometry (g : geometry) : result geometry :=
  match g with
  | Polygon coords =>
      if solid_polygon coords
      then Ok (Polygon (map (map round_point) coords))
      else Raise IndexError
  | MultiPolygon coords =>
      if negb (bool_decide (coords = [])) && forallb solid_polygon coords
      then Ok (MultiPolygon (map (map (map round_point)) coords))
      else Raise IndexError
  | OtherGeometry t c => OtherGeometry t <$> round_coords c 3
  end.

(** ** count_coords *)

Definition count_coords (geometry_dict : geometry) : nat :=
  count_points geometry_dict.

(** ** clip_boundary_file *)

(** [polygons[0]] or [MultiPolygon(polygons)], then [mapping]. *)
Definition mapping (polygons : list spolygon) : geometry :=
  match polygons with
  | [p] => Polygon p
  | _ => MultiPolygon polygons
  end.

(** The WARNING lines. *)
Inductive warning : Type :=
| IntersectionFailed (fid e : string)
| EmptyIntersection (fid : string)
| NoPolygonParts (fid : string).

(** How the body of the loop leaves one feature: by one of the [continue]
    statements, with the line it printed before (if any), or with a
    [result_dict]. *)
Inductive outcome : Type :=
| Skipped (printed : option warning)
| Clipped (result_dict : geometry).

Definition clip_geometry (E : engine) (land_mask : sgeom) (fid : string)
    (geom_dict : geometry) : result outcome :=
  match shape E geom_dict with
  | None =>
      (* Degenerate rings (< 4 points) can't be parsed by Shapely *)
      Ok (Skipped None)
  | Some constituency_geom =>
      let constituency_geom :=
        if is_valid E constituency_geom then constituency_geom
        else make_valid E constituency_geom in
      match intersection E constituency_geom land_mask with
      | inl e => Ok (Skipped (Some (IntersectionFailed fid e)))
      | inr clipped =>
          if is_empty E clipped then Ok (Skipped (Some (EmptyIntersection fid)))
          else
            match extract_polygons E clipped with
            | [] => Ok (Skipped (Some (NoPolygonParts fid)))
            | polygons =>
                result_dict ← round_geometry (mapping polygons);
                Ok (Clipped result_dict)
            end
      end
  end.

(** What one round of the loop adds to the counters and the output. *)
Record step : Type := {
  s_feature : feature;
  s_modified : bool;
  s_before : nat;
  s_after : nat;
  s_printed : list warning
}.

Definition clip_feature (E : engine) (land_mask : sgeom) (feature : feature)
  : result step :=
  let geom_dict := f_geometry feature in
  let fid := p_id (f_properties feature) in
  let coords_before := count_coords geom_dict in
  out ← clip_geometry E land_mask fid geom_dict;
  match out with
  | Skipped printed =>
      Ok {| s_feature := feature; s_modified := false;
            s_before := coords_before; s_after := coords_before;
            s_printed := option_list printed |}
  | Clipped result_dict =>
      let coords_after := count_coords result_dict in
      if negb (String.eqb (geo_type result_dict) (geo_type geom_dict))
         || negb (coords_after =? coords_before)
      then Ok {| s_feature := set_geometry feature result_dict;
                 s_modified := true;
                 s_before := coords_before; s_after := coords_after;
                 s_printed := [] |}
      else Ok {| s_feature := feature; s_modified := false;
                 s_before := coords_before; s_after := coords_after;
                 s_printed := [] |}
  end.

(** The document written back, the three numbers returned and the lines
    printed on the way. *)
Record clipped_file : Type := {
  c_features : list feature;
  modified_count : nat;
  coords_before_total : nat;
  coords_after_total : nat;
  c_printed : list warning
}.

Definition clip_boundary_file (E : engine) (land_mask : sgeom)
    (features : list feature) : result clipped_file :=
  fold_left
    (fun acc feature =>
       acc ← acc;
       s ← clip_feature E land_mask feature;
       Ok {| c_features := c_features acc ++ [s_feature s];
             modified_count :=
               modified_count acc + (if s_modified s then 1 else 0);
             coords_before_total := coords_before_total acc + s_before s;
             coords_after_total := coords_after_total acc + s_after s;
             c_printed := c_printed acc ++ s_printed s |})
    features
    (Ok {| c_features := []; modified_count := 0; coords_before_total := 0;
           coords_after_total := 0; c_printed := [] |}).

End Clip.
(* ===================================================================== *)
(** * Auxiliary notions used in the statements and proofs *)
(* ===================================================================== *)

(** Characters no pattern of the normaliser reacts to. *)
Definition calm (c : ascii) : bool :=
  negb (Ascii.eqb c "&") && negb (Ascii.eqb c "-")
  && negb (Ascii.eqb c "N") && negb (Ascii.eqb c "S")
  && negb (Ascii.eqb c "E") && negb (Ascii.eqb c "W").

Definition no_amp (c : ascii) : bool := negb (Ascii.eqb c "&").

Definition no_amp_dash (c : ascii) : bool :=
  negb (Ascii.eqb c "&") && negb (Ascii.eqb c "-").

(** Length of the run of [p]-characters at the front. *)
Fixpoint run (p : ascii -> bool) (s : list ascii) : nat :=
  match s with
  | c :: s' => if p c then S (run p s') else 0
  | [] => 0
  end.

Definition starts_solid (s : list ascii) : Prop :=
  match s with c :: _ => is_space c = false | [] => True end.

(** Every white-space character is one blank, and the next character (if
    any) is not white space. *)
Fixpoint spaced (s : list ascii) : Prop :=
  match s with
  | c :: s' =>
      (is_space c = true -> c = " "%char /\ starts_solid s') /\ spaced s'
  | [] => True
  end.

Abbreviation collapse := (sub_scan (Plus is_space) (list_ascii_of_string " ")).

(** What one run of the normaliser guarantees about its output. *)
Record normal_form (y : list ascii) : Prop := {
  nf_calm : Forall (fun c => calm c = true) y;
  nf_spaced : spaced y;
  nf_strip : strip y = y;
  nf_lower : lower y = y
}.

(** ** Shoelace sums *)


Definition Qsum (l : list Q) : Q := fold_right Qplus 0%Q l.











(** ** Deduplication *)

Abbreviation with_id fid := (fun f : feature => p_id (f_properties f) = fid).

(** The member of the group of [fid] that deduplication is to keep. *)
Definition best_of (all : list feature) (fid : string) : option feature :=
  FixData.py_max FixData.count_coords (filter (with_id fid) all).

(** What the deduplication loop maintains: of every identifier seen so far
    exactly the chosen member is in [deduped]; and while the counter is 0
    no group seen so far has two members. *)
Record dedup_inv (all : list feature) (st : FixData.dedup_state) : Prop := {
  inv_deduped : forall fid,
    filter (with_id fid) (FixData.deduped st) =
    if decide (fid ∈ FixData.seen_ids st) then option_list (best_of all fid) else [];
  inv_count : FixData.dupe_count st = 0%nat ->
    forall fid, fid ∈ FixData.seen_ids st ->
    length (filter (with_id fid) all) <= 1
}.

(** The features of a document after the split, repair and rename stages,
    before deduplication. *)
Definition reconciled (version : string) (renames : gmap string string)
    (data : list feature) : list feature :=
  FixData.features
    (FixData.rename_stage renames
       (FixData.empty_feature_stage version
          (FixData.richmond_stage version
             {| FixData.features := data; FixData.modified := false;
                FixData.rename_count := 0 |}))).

(** All points of a geometry, ring after ring. *)
Definition point_list (g : geometry) : list point :=
  match g with
  | Polygon coords => concat coords
  | MultiPolygon coords => concat (concat coords)
  | OtherGeometry _ _ => []
  end.

(** ** Sample documents *)

Definition sample_feature (fid name : string) (g : geometry) : feature :=
  {| f_properties := {| p_id := fid; p_Name := Some name;
                        p_normalizedName := Some name |};
     f_geometry := g |}.

(** A closed unit square at latitude [lat], counter-clockwise. *)
Definition square_at (lat : Q) : ring :=
  [(0, lat); (1, lat); (1, lat + 1); (0, lat + 1); (0, lat)]%Q.

(** Three features under one identifier (3, 5 and 5 points), one under the
    obsolete spelling of another identifier, one under the canonical
    spelling. *)
Definition dup_document : list feature :=
  [ sample_feature "EC_A" "first" (Polygon [[(0, 0); (1, 0); (0, 0)]%Q]);
    sample_feature "EC_THE_WREKIN" "old" (Polygon [[(0, 0); (1, 1)]%Q]);
    sample_feature "EC_A" "second" (Polygon [square_at 0]);
    sample_feature "EC_A" "third" (Polygon [square_at 1]);
    sample_feature "EC_WREKIN__THE" "new" (Polygon [[(2, 2)]%Q]) ].

(** ** Coordinate trees *)

Definition is_num (t : json) : bool :=
  match t with JNum _ => true | JArr _ => false end.

Definition is_arr (t : json) : bool :=
  match t with JNum _ => false | JArr _ => true end.

(** A coordinate tree as GeoJSON has it: the items of an array are all
    numbers or all arrays. *)
Fixpoint homogeneous (t : json) : bool :=
  match t with
  | JNum _ => true
  | JArr items =>
      forallb is_num items
      || forallb (fun c => is_arr c && homogeneous c) items
  end.

(** No array of the tree is empty. *)
Fixpoint no_empty (t : json) : bool :=
  match t with
  | JNum _ => true
  | JArr items =>
      match items with [] => false | _ => forallb no_empty items end
  end.

(** The tree with every number rounded. *)
Fixpoint round_all (precision : nat) (t : json) : json :=
  match t with
  | JNum c => JNum (Clip.py_round c precision)
  | JArr items => JArr (map (round_all precision) items)
  end.

(** Same nesting and same lengths. *)
Fixpoint same_shape (t u : json) : bool :=
  match t, u with
  | JNum _, JNum _ => true
  | JArr l, JArr m =>
      (fix all2 (l m : list json) : bool :=
         match l, m with
         | [], [] => true
         | a :: l', b :: m' => same_shape a b && all2 l' m'
         | _, _ => false
         end) l m
  | _, _ => false
  end.

(** Induction on coordinate trees with the hypothesis for all items. *)
Fixpoint json_ind' (P : json -> Prop) (Hnum : forall q, P (JNum q))
    (Harr : forall items, Forall P items -> P (JArr items)) (t : json) : P t :=
  match t with
  | JNum q => Hnum q
  | JArr items =>
      Harr items
        ((fix all (l : list json) : Forall P l :=
            match l with
            | [] => @List.Forall_nil _ P
            | c :: l' => @List.Forall_cons _ P c l' (json_ind' P Hnum Harr c) (all l')
            end) items)
  end.


(** [[f(c) for c in cs]] for an [f] that may raise. *)
Fixpoint traverse {A B : Type} (f : A -> result B) (cs : list A)
  : result (list B) :=
  match cs with
  | [] => Ok []
  | c :: rest => r ← f c; rs ← traverse f rest; Ok (r :: rs)
  end.

(** A feature [EC_RICHMOND] whose two points have mean latitude 53. *)
Definition richmond_on_the_line : feature :=
  sample_feature "EC_RICHMOND" "Richmond" (Polygon [[(0, 52); (0, 54)]%Q]).

(** The invariant of the data model: the stored [normalizedName] is the
    normal form of the stored [Name]. *)
Definition name_invariant (f : feature) : Prop :=
  exists name,
    p_Name (f_properties f) = Some name /\
    p_normalizedName (f_properties f) = Some (normalize_constituency_name name).

(** ** A small geometry engine to run the clipper on examples

    [shape] refuses rings of fewer than 4 points (as Shapely does), every
    geometry is valid, the land mask covers everything (the intersection
    is the geometry itself), and a polygon counts as having area 1. *)
Definition long_rings (p : list ring) : bool :=
  forallb (fun r => 4 <=? length r) p.

Definition demo_engine : Clip.engine :=
  {| Clip.shape := fun g =>
       match g with
       | Polygon p => if long_rings p then Some (Clip.SPolygon p) else None
       | MultiPolygon ps =>
           if forallb long_rings ps then Some (Clip.SMultiPolygon ps) else None
       | OtherGeometry _ _ => Some Clip.SOther
       end;
     Clip.is_valid := fun _ => true;
     Clip.make_valid := fun g => g;
     Clip.intersection := fun g _ => inr g;
     Clip.is_empty := fun g =>
       match g with
       | Clip.SPolygon [] | Clip.SMultiPolygon [] | Clip.SCollection [] => true
       | _ => false
       end;
     Clip.area := fun _ => 1%Q |}.

(** A feature whose only ring has three points. *)
Definition degenerate_feature : feature :=
  sample_feature "EC_TRIANGLE" "Triangle"
    (Polygon [[(0, 0); (1, 0); (0, 0)]%Q]).

(** A feature stored with more decimals than the clipper keeps. *)
Definition square_feature : feature :=
  sample_feature "EC_SQUARE" "Square" (Polygon [square_at (515 # 10)]).

(** ** The validator *)

(** Every identifier of the boundary document, empty or not. *)
Definition all_boundary_ids (boundary : list feature) : gset string :=
  list_to_set (map (fun f => p_id (f_properties f)) boundary).

(** The report a validator would give that works as the specification
    words it: the symmetric difference of the two identifier sets, minus
    the allow-list. *)
Definition symmetric_difference_report (year_str : string)
    (election boundary : gset string) : gset string :=
  filter (fun m => (year_str, m) ∉ FixData.known_exceptions)
    ((election ∖ boundary) ∪ (boundary ∖ election)).

(** The identifiers [validate] counts for one pair of documents. *)
Definition reported (m : FixData.mismatches) : gset string :=
  FixData.missing_from_boundary m ∪ FixData.missing_from_election m.

Definition election_of (ids : list string) : list FixData.constituency :=
  map (fun i => {| FixData.constituencyId := i;
                   FixData.constituencyName := i |}) ids.

Definition eleven_ids : list string :=
  ["EC_A"; "EC_B"; "EC_C"; "EC_D"; "EC_E"; "EC_F"; "EC_G"; "EC_H"; "EC_I";
   "EC_J"; "EC_K"].

(** ** The rename tables *)

(** Is [s] an old identifier (a key) of the table? *)
Definition is_key (table : list (string * string)) (s : string) : bool :=
  existsb (fun kv => String.eqb (fst kv) s) table.

(** No new identifier of a table is an old identifier of it, and none is
    one of the identifiers the two repairs look for. *)
Definition table_settled (table : list (string * string)) : bool :=
  forallb (fun kv => negb (is_key table (snd kv))
                     && negb (String.eqb (snd kv) "EC_RICHMOND")
                     && negb (String.eqb (snd kv) "EC_")) table.

(** The identifiers the repairs assign are not renamed afterwards. *)
Definition table_keeps_repairs (table : list (string * string)) : bool :=
  negb (is_key table "EC_RICHMOND__YORKS_")
  && negb (is_key table "EC_RICHMOND__SURREY_")
  && negb (is_key table "EC_SOUTHEND_WEST").


(** ** Rounding *)

(** The integer [round] picks for [x]: the floor or the next integer. *)
Definition nearest (x : Q) : Z :=
  let f := Qfloor x in
  let d := (x - inject_Z f)%Q in
  if Qgtb (1 # 2) d then f
  else if Qgtb d (1 # 2) then (f + 1)%Z
  else if Z.even f then f else (f + 1)%Z.


(** Induction on Shapely geometries with the hypothesis for all parts. *)
Fixpoint sgeom_ind' (P : Clip.sgeom -> Prop)
    (Hpoly : forall p, P (Clip.SPolygon p))
    (Hmulti : forall geoms, P (Clip.SMultiPolygon geoms))
    (Hcoll : forall geoms, Forall P geoms -> P (Clip.SCollection geoms))
    (Hother : P Clip.SOther) (g : Clip.sgeom) : P g :=
  match g with
  | Clip.SPolygon p => Hpoly p
  | Clip.SMultiPolygon geoms => Hmulti geoms
  | Clip.SCollection geoms =>
      Hcoll geoms
        ((fix all (l : list Clip.sgeom) : Forall P l :=
            match l with
            | [] => @List.Forall_nil _ P
            | c :: l' =>
                @List.Forall_cons _ P c l'
                  (sgeom_ind' P Hpoly Hmulti Hcoll Hother c) (all l')
            end) geoms)
  | Clip.SOther => Hother
  end.

(** The polygons a geometry is made of, at any depth of nesting. *)
Fixpoint parts_of (g : Clip.sgeom) : list Clip.spolygon :=
  match g with
  | Clip.SPolygon p => [p]
  | Clip.SMultiPolygon geoms => geoms
  | Clip.SCollection geoms => flat_map parts_of geoms
  | Clip.SOther => []
  end.


(** ** Name lookup *)

(** The election years of a boundary version, in dictionary order. *)
Definition years_of (bv : string) (items : list (string * string))
  : list string :=
  map fst (filter (fun item => snd item = bv) items).

(** The name of the first constituency with this identifier. *)
Definition first_name (cid : string) (election : list FixData.constituency)
  : option string :=
  FixData.constituencyName
    <$> List.find (fun c => bool_decide (FixData.constituencyId c = cid))
          election.
(* ===================================================================== *)
(** * Proofs *)
(* ===================================================================== *)

(** ** Characters *)

Ltac each_char c := destruct c as [[] [] [] [] [] [] [] []].

Lemma lower_char_idem c : lower_char (lower_char c) = lower_char c.
Proof. each_char c; reflexivity. Qed.

Lemma lower_char_space c : is_space (lower_char c) = is_space c.
Proof. each_char c; reflexivity. Qed.

Lemma lower_char_calm c : no_amp_dash c = true -> calm (lower_char c) = true.
Proof. each_char c; intros H; try reflexivity; discriminate H. Qed.

Example norm_ex1 :
  normalize_constituency_name "Ayr & Carrick" = "ayr and carrick"%string.
Proof. reflexivity. Qed.

Example norm_ex2 :
  normalize_constituency_name "  Hull N -  SW Area&NE  end-E " =
  "hull north south west area and north east end east"%string.
Proof. vm_compute. reflexivity. Qed.

(** ** The substitution scan *)

Section Scan.
Variables (r : regex) (repl : list ascii).

(** Every character of the output comes from the subject or from the
    replacement text. *)
Lemma sub_scan_Forall (P : ascii -> Prop) prev skip s :
  Forall P repl -> Forall P s -> Forall P (sub_scan r repl prev skip s).
Proof.
  intros Hrepl Hs. revert prev skip.
  induction Hs as [|c s Hc Hs IH]; intros prev skip; simpl; [constructor|].
  destruct skip as [|n]; [|apply IH].
  destruct (match_at r prev (c :: s)) as [[|n]|].
  - constructor; [exact Hc | apply IH].
  - apply Forall_app; split; [exact Hrepl | apply IH].
  - constructor; [exact Hc | apply IH].
Qed.

(** Where the pattern matches nowhere the subject is returned as it is. *)
Lemma sub_scan_no_match (P : ascii -> Prop) prev s :
  (forall p t, Forall P t -> match_at r p t = None) ->
  Forall P s -> sub_scan r repl prev 0 s = s.
Proof.
  intros Hno Hs. revert prev.
  induction Hs as [|c s Hc Hs IH]; intros prev; simpl; [reflexivity|].
  rewrite (Hno prev (c :: s)) by (constructor; assumption).
  f_equal. apply IH.
Qed.
End Scan.

(** ** The patterns of the normaliser *)

(** [\s*] followed by nothing always succeeds: it takes the whole run. *)
Lemma star_total p prev s : is_Some (star p (fun _ _ => Some 0) prev s).
Proof.
  revert prev. induction s as [|c s IH]; intros prev; simpl; [eauto|].
  destruct (p c); [|eauto].
  destruct (IH (Some c)) as [n ->]. eauto.
Qed.

(** At an ampersand [\s*&\s*] matches, and the match is not empty. *)
Lemma amp_re_at_amp prev s :
  exists n, match_at amp_re prev ("&"%char :: s) = Some (S n).
Proof.
  unfold match_at, amp_re. simpl.
  destruct (star_total is_space (Some "&"%char) s) as [n ->].
  simpl. eauto.
Qed.

(** Without an ampersand in the subject [\s*&\s*] does not match. *)
Lemma amp_re_no_match prev s :
  Forall (fun c => no_amp c = true) s -> match_at amp_re prev s = None.
Proof.
  unfold match_at, amp_re. cbn [rmatch].
  intros Hs. revert prev.
  induction Hs as [|c s Hc Hs IH]; intros prev; [reflexivity|].
  cbn [star]. rewrite IH.
  assert (Hk : rmatch (Cat (Chr "&") (Star is_space)) (fun _ _ => Some 0)
                 prev (c :: s) = None).
  { cbn [rmatch]. unfold no_amp in Hc.
    rewrite Ascii.eqb_sym. destruct (Ascii.eqb c "&"); [discriminate|reflexivity]. }
  destruct (is_space c); exact Hk.
Qed.

(** The first substitution leaves no ampersand. *)
Lemma amp_removed prev skip s :
  Forall (fun c => no_amp c = true)
         (sub_scan amp_re (list_ascii_of_string " and ") prev skip s).
Proof.
  revert prev skip. induction s as [|c s IH]; intros prev skip;
    cbn [sub_scan]; [constructor|].
  destruct skip as [|n]; [|apply IH].
  destruct (match_at amp_re prev (c :: s)) as [[|n]|] eqn:Hm.
  - constructor; [|apply IH].
    destruct (no_amp c) eqn:Hc; [reflexivity|].
    unfold no_amp in Hc. apply negb_false_iff, Ascii.eqb_eq in Hc. subst c.
    destruct (amp_re_at_amp prev s) as [n Hn]. congruence.
  - apply Forall_app; split; [repeat constructor | apply IH].
  - destruct (no_amp c) eqn:Hc; [constructor; [exact Hc | apply IH]|].
    unfold no_amp in Hc. apply negb_false_iff, Ascii.eqb_eq in Hc. subst c.
    destruct (amp_re_at_amp prev s) as [n Hn]. congruence.
Qed.

(** [\bXY\b] and [\bX\b(?=\s|$)] need their first letter. *)
Lemma word2_no_match a b prev s :
  Forall (fun c => Ascii.eqb a c = false) s -> match_at (word2 a b) prev s = None.
Proof.
  unfold match_at, word2. cbn [rmatch]. intros Hs.
  destruct (xorb _ _); [|reflexivity].
  destruct Hs as [|c s Hc Hs]; [reflexivity|]. rewrite Hc. reflexivity.
Qed.

Lemma word1_no_match a prev s :
  Forall (fun c => Ascii.eqb a c = false) s -> match_at (word1 a) prev s = None.
Proof.
  unfold match_at, word1. cbn [rmatch]. intros Hs.
  destruct (xorb _ _); [|reflexivity].
  destruct Hs as [|c s Hc Hs]; [reflexivity|]. rewrite Hc. reflexivity.
Qed.

(** No pattern of the normaliser matches the empty string. *)
Lemma chr_first_nonempty a r k prev s :
  rmatch (Cat WordB (Cat (Chr a) r)) k prev s <> Some 0.
Proof.
  cbn [rmatch]. destruct (xorb _ _); [|discriminate].
  destruct s as [|c s]; [discriminate|].
  destruct (Ascii.eqb a c); [|discriminate].
  destruct (rmatch r k (Some c) s); discriminate.
Qed.

Lemma word2_nonempty a b prev s : match_at (word2 a b) prev s <> Some 0.
Proof. apply chr_first_nonempty. Qed.

Lemma word1_nonempty a prev s : match_at (word1 a) prev s <> Some 0.
Proof. apply chr_first_nonempty. Qed.

Lemma plus_nonempty p prev s : match_at (Plus p) prev s <> Some 0.
Proof.
  unfold match_at. cbn [rmatch]. destruct s as [|c s]; [discriminate|].
  destruct (p c); [|discriminate].
  destruct (star p _ (Some c) s); cbn; discriminate.
Qed.

Lemma star_nonempty p (k : cont) :
  (forall prev s, k prev s <> Some 0) ->
  forall prev s, star p k prev s <> Some 0.
Proof.
  intros Hk prev s. revert prev.
  induction s as [|c s IH]; intros prev; cbn [star]; [apply Hk|].
  destruct (p c); [|apply Hk].
  destruct (star p k (Some c) s); [discriminate | apply Hk].
Qed.

Lemma amp_re_nonempty prev s : match_at amp_re prev s <> Some 0.
Proof.
  unfold match_at, amp_re. cbn [rmatch]. apply star_nonempty.
  clear prev s. intros prev [|c s]; cbn [rmatch]; [discriminate|].
  destruct (Ascii.eqb "&" c); [|discriminate].
  destruct (star is_space _ (Some c) s); cbn; discriminate.
Qed.

(** ** Collapsing and trimming white space *)

Lemma star_run p prev s : star p (fun _ _ => Some 0) prev s = Some (run p s).
Proof.
  revert prev. induction s as [|c s IH]; intros prev; simpl; [reflexivity|].
  destruct (p c); [|reflexivity]. rewrite IH. reflexivity.
Qed.

Lemma plus_match p prev c s :
  match_at (Plus p) prev (c :: s) = if p c then Some (S (run p s)) else None.
Proof.
  unfold match_at. cbn [rmatch]. destruct (p c); [|reflexivity].
  rewrite star_run. reflexivity.
Qed.

Lemma collapse_spaced s :
  (forall prev, spaced (collapse prev 0 s)) /\
  (forall prev, spaced (collapse prev (run is_space s) s) /\
                starts_solid (collapse prev (run is_space s) s)).
Proof.
  induction s as [|c s [IH0 IHr]]; [split; intros; simpl; auto|].
  assert (H0 : forall prev, spaced (collapse prev 0 (c :: s))).
  { intros prev. cbn [sub_scan]. rewrite plus_match.
    destruct (is_space c) eqn:Hc.
    - destruct (IHr (Some c)) as [Hs Hh]. cbn. split; [split|]; auto.
    - cbn. split; [congruence | apply IH0]. }
  split; [exact H0|].
  intros prev. cbn [run]. destruct (is_space c) eqn:Hc.
  - cbn [sub_scan]. apply IHr.
  - split; [apply H0|]. cbn [sub_scan]. rewrite plus_match, Hc. exact Hc.
Qed.

Lemma collapse_fixed s prev : spaced s -> collapse prev 0 s = s.
Proof.
  revert prev. induction s as [|c s IH]; intros prev Hs; [reflexivity|].
  destruct Hs as [Hc Hs]. cbn [sub_scan]. rewrite plus_match.
  destruct (is_space c) eqn:Ec.
  - destruct (Hc eq_refl) as [-> Hh].
    assert (run is_space s = 0) as ->.
    { destruct s as [|d s]; [reflexivity|]. cbn in Hh |- *. rewrite Hh. reflexivity. }
    cbn. f_equal. apply IH, Hs.
  - f_equal. apply IH, Hs.
Qed.

Lemma spaced_lstrip s : spaced s -> spaced (lstrip s).
Proof.
  induction s as [|c s IH]; intros Hs; [exact Hs|].
  cbn [lstrip]. destruct (is_space c); [apply IH, Hs | exact Hs].
Qed.

Lemma rstrip_prefix s : exists t, s = rstrip s ++ t.
Proof.
  induction s as [|c s [t IH]]; [exists []; reflexivity|].
  cbn [rstrip]. destruct (rstrip s) as [|d r] eqn:Hr.
  - destruct (is_space c); [exists (c :: s) | exists s]; reflexivity.
  - exists t. cbn. f_equal. exact IH.
Qed.

Lemma spaced_rstrip s : spaced s -> spaced (rstrip s).
Proof.
  induction s as [|c s IH]; intros Hs; [exact Hs|].
  destruct Hs as [Hc Hs]. cbn [rstrip].
  destruct (rstrip_prefix s) as [t Ht].
  destruct (rstrip s) as [|d r] eqn:Hr.
  - destruct (is_space c) eqn:Ec; cbn; [trivial|]. split; [congruence | trivial].
  - split; [|apply IH, Hs]. intros E. destruct (Hc E) as [-> Hh].
    split; [reflexivity|]. rewrite Ht in Hh. exact Hh.
Qed.

Lemma spaced_lower s : spaced s -> spaced (lower s).
Proof.
  induction s as [|c s IH]; intros Hs; [exact Hs|].
  destruct Hs as [Hc Hs]. cbn. split; [|apply IH, Hs].
  rewrite lower_char_space. intros E. destruct (Hc E) as [-> Hh].
  split; [reflexivity|].
  destruct s as [|d s]; [exact I|]. cbn in Hh |- *.
  rewrite lower_char_space. exact Hh.
Qed.

Lemma lstrip_solid s : starts_solid (lstrip s).
Proof.
  induction s as [|c s IH]; [exact I|].
  cbn [lstrip]. destruct (is_space c) eqn:Ec; [exact IH | exact Ec].
Qed.

Lemma lstrip_fixed s : starts_solid s -> lstrip s = s.
Proof. destruct s as [|c s]; [reflexivity|]. cbn. intros ->. reflexivity. Qed.

Lemma rstrip_solid s : starts_solid s -> starts_solid (rstrip s).
Proof.
  destruct s as [|c s]; [trivial|]. cbn. intros Hc.
  destruct (rstrip s); rewrite ?Hc; exact Hc.
Qed.

Lemma rstrip_idem s : rstrip (rstrip s) = rstrip s.
Proof.
  induction s as [|c s IH]; [reflexivity|].
  cbn [rstrip]. destruct (rstrip s) as [|d r] eqn:Hr.
  - destruct (is_space c) eqn:Ec; [reflexivity|]. cbn. rewrite Ec. reflexivity.
  - cbn [rstrip] in IH |- *. rewrite IH. reflexivity.
Qed.

Lemma strip_idem s : strip (strip s) = strip s.
Proof.
  unfold strip. rewrite (lstrip_fixed (rstrip (lstrip s))).
  - apply rstrip_idem.
  - apply rstrip_solid, lstrip_solid.
Qed.

Lemma lstrip_lower s : lstrip (lower s) = lower (lstrip s).
Proof.
  induction s as [|c s IH]; [reflexivity|].
  cbn. rewrite lower_char_space. destruct (is_space c); [exact IH | reflexivity].
Qed.

Lemma rstrip_lower s : rstrip (lower s) = lower (rstrip s).
Proof.
  induction s as [|c s IH]; [reflexivity|].
  cbn [lower map rstrip]. fold (lower s). rewrite IH.
  destruct (rstrip s) as [|d r]; [|reflexivity].
  cbn. rewrite lower_char_space. destruct (is_space c); reflexivity.
Qed.

Lemma strip_lower s : strip (lower s) = lower (strip s).
Proof. unfold strip. rewrite lstrip_lower, rstrip_lower. reflexivity. Qed.

Lemma lower_idem s : lower (lower s) = lower s.
Proof.
  unfold lower. rewrite map_map. apply map_ext. intros c. apply lower_char_idem.
Qed.

Lemma Forall_lstrip (P : ascii -> Prop) s : Forall P s -> Forall P (lstrip s).
Proof.
  induction 1 as [|c s Hc Hs IH]; [constructor|].
  cbn. destruct (is_space c); [exact IH | constructor; assumption].
Qed.

Lemma Forall_rstrip (P : ascii -> Prop) s : Forall P s -> Forall P (rstrip s).
Proof.
  induction 1 as [|c s Hc Hs IH]; [constructor|].
  cbn. destruct (rstrip s).
  - destruct (is_space c); repeat constructor; assumption.
  - constructor; assumption.
Qed.

(** ** normalize_constituency_name is idempotent *)

Lemma replace_dash s :
  Forall (fun c => no_amp c = true) s ->
  Forall (fun c => no_amp_dash c = true) (replace_char "-" " " s).
Proof.
  induction 1 as [|c s Hc Hs IH]; [constructor|].
  unfold replace_char. cbn [flat_map]. fold (replace_char "-" " " s).
  unfold no_amp in Hc.
  destruct (Ascii.eqb c "-") eqn:E; cbn [app list_ascii_of_string];
    constructor; try exact IH.
  - reflexivity.
  - unfold no_amp_dash. rewrite Hc, E. reflexivity.
Qed.

Lemma replace_char_fixed old new s :
  Forall (fun c => Ascii.eqb c old = false) s -> replace_char old new s = s.
Proof.
  induction 1 as [|c s Hc Hs IH]; [reflexivity|].
  unfold replace_char. cbn [flat_map]. fold (replace_char old new s).
  rewrite Hc, IH. reflexivity.
Qed.

Lemma re_sub_keeps r repl s :
  Forall (fun c => no_amp_dash c = true) (list_ascii_of_string repl) ->
  Forall (fun c => no_amp_dash c = true) s ->
  Forall (fun c => no_amp_dash c = true) (re_sub r repl s).
Proof. intros Hr Hs. apply sub_scan_Forall; assumption. Qed.

Lemma normalize_chars_normal x : normal_form (normalize_chars x).
Proof.
  unfold normalize_chars.
  set (u := re_sub (word1 "W") _ _).
  assert (Hu : Forall (fun c => no_amp_dash c = true) u).
  { subst u.
    repeat (apply re_sub_keeps; [repeat constructor|]).
    apply replace_dash, amp_removed. }
  set (t := re_sub (Plus is_space) " " u).
  assert (Ht : Forall (fun c => no_amp_dash c = true) t).
  { subst t. apply re_sub_keeps; [repeat constructor | exact Hu]. }
  assert (Hsp : spaced t) by apply collapse_spaced.
  split.
  - unfold lower. apply Forall_fmap.
    eapply Forall_impl; [apply Forall_rstrip, Forall_lstrip, Ht|].
    intros c Hc. apply lower_char_calm, Hc.
  - apply spaced_lower, spaced_rstrip, spaced_lstrip, Hsp.
  - rewrite strip_lower, strip_idem. reflexivity.
  - apply lower_idem.
Qed.

Lemma calm_without (a : ascii) y :
  calm a = false -> Forall (fun c => calm c = true) y ->
  Forall (fun c => Ascii.eqb a c = false) y.
Proof.
  intros Ha Hy. eapply Forall_impl; [exact Hy|].
  intros c Hc. destruct (Ascii.eqb a c) eqn:E; [|reflexivity].
  apply Ascii.eqb_eq in E. subst c. congruence.
Qed.

(** On such an output a second run changes nothing. *)
Lemma normalize_chars_fixed y : normal_form y -> normalize_chars y = y.
Proof.
  intros [Hcalm Hsp Hstrip Hlow]. unfold normalize_chars.
  assert (H1 : re_sub amp_re " and " y = y).
  { apply (sub_scan_no_match _ _ (fun c => no_amp c = true)).
    - intros p t. apply amp_re_no_match.
    - eapply Forall_impl; [exact Hcalm|]. intros c Hc.
      unfold calm in Hc. unfold no_amp.
      destruct (Ascii.eqb c "&"); [discriminate | reflexivity]. }
  rewrite H1.
  assert (H2 : replace_char "-" " " y = y).
  { apply replace_char_fixed. eapply Forall_impl; [exact Hcalm|].
    intros c Hc. unfold calm in Hc.
    destruct (Ascii.eqb c "-"); [|reflexivity].
    rewrite andb_false_r in Hc. discriminate. }
  rewrite H2.
  assert (W2 : forall a b repl, calm a = false -> re_sub (word2 a b) repl y = y).
  { intros a b repl Ha.
    apply (sub_scan_no_match _ _ (fun c => Ascii.eqb a c = false)).
    - intros p t. apply word2_no_match.
    - apply calm_without; assumption. }
  assert (W1 : forall a repl, calm a = false -> re_sub (word1 a) repl y = y).
  { intros a repl Ha.
    apply (sub_scan_no_match _ _ (fun c => Ascii.eqb a c = false)).
    - intros p t. apply word1_no_match.
    - apply calm_without; assumption. }
  rewrite !W2 by reflexivity. rewrite !W1 by reflexivity.
  unfold re_sub. rewrite collapse_fixed by exact Hsp.
  rewrite Hstrip. exact Hlow.
Qed.

(** C8.  Canonical name normalisation is idempotent:
    [normalize (normalize x) = normalize x] for every string [x]; and
    ["Ayr & Carrick"] and ["ayr and carrick"] have the same normal form. *)
Theorem normalize_idempotent :
  (forall x : string,
     normalize_constituency_name (normalize_constituency_name x) =
     normalize_constituency_name x) /\
  normalize_constituency_name "Ayr & Carrick" =
  normalize_constituency_name "ayr and carrick".
Proof.
  split; [|reflexivity].
  intros x. destruct x as [|a x]; [reflexivity|].
  unfold normalize_constituency_name at 2 3.
  generalize (normalize_chars_normal (list_ascii_of_string (String a x))).
  generalize (normalize_chars (list_ascii_of_string (String a x))).
  intros y Hy. destruct y as [|c y]; [reflexivity|].
  change (string_of_list_ascii (c :: y))
    with (String c (string_of_list_ascii y)).
  cbn [normalize_constituency_name].
  change (String c (string_of_list_ascii y))
    with (string_of_list_ascii (c :: y)).
  rewrite list_ascii_of_string_of_list_ascii.
  rewrite normalize_chars_fixed by exact Hy. reflexivity.
Qed.

(** The output of [normalize_constituency_name] is in normal form: it
    holds no ampersand, no hyphen and no capital N, S, E or W; its white
    space is single blanks between other characters; it has no white space
    at either end; and lower-casing it changes nothing. *)
Theorem normalize_output_normal (x : string) :
  normal_form (list_ascii_of_string (normalize_constituency_name x)).
Proof.
  destruct x as [|a x].
  - split; [constructor | exact I | reflexivity | reflexivity].
  - unfold normalize_constituency_name.
    rewrite list_ascii_of_string_of_list_ascii.
    apply normalize_chars_normal.
Qed.

(** The empty name and a name of white space only both normalise to the
    empty string, and directional abbreviations are expanded only as
    separate words. *)
Example normalize_edges :
  normalize_constituency_name "" = ""%string /\
  normalize_constituency_name "   " = ""%string /\
  normalize_constituency_name "Devon N" = "devon north"%string /\
  normalize_constituency_name "Newport SW-Central" =
    "newport south west central"%string /\
  normalize_constituency_name "N. Ireland" = "n. ireland"%string.
Proof. vm_compute. repeat split. Qed.

(** ** Ring orientation *)

Import FixData.

Lemma Qgtb_lt a b : Qgtb a b = true <-> (b < a)%Q.
Proof.
  unfold Qgtb. rewrite negb_true_iff. split.
  - intros H. apply Qnot_le_lt. intros Hle.
    apply Qle_bool_iff in Hle. congruence.
  - intros H. destruct (Qle_bool a b) eqn:E; [|reflexivity].
    apply Qle_bool_iff in E. exfalso. exact (Qlt_not_le _ _ H E).
Qed.

Lemma Qgtb_le a b : Qgtb a b = false <-> (a <= b)%Q.
Proof.
  unfold Qgtb. rewrite negb_false_iff. apply Qle_bool_iff.
Qed.













Lemma rewind_rings_lookup rings i :
  rewind_rings rings !! i = rewind_ring i <$> rings !! i.
Proof. unfold rewind_rings. apply list_lookup_imap. Qed.












(** ** Deduplication *)

(** [max(..., key=...)] returns the first of the largest elements. *)
Lemma py_max_first_largest {A : Type} (key : A -> nat) (l : list A) best :
  py_max key l = Some best ->
  exists pre post,
    l = pre ++ best :: post /\
    (forall g, g ∈ pre -> key g < key best) /\
    (forall g, g ∈ post -> key g <= key best).
Proof.
  destruct l as [|x xs]; [discriminate|]. cbn [py_max]. intros [= <-].
  assert (Hgen : forall ys pre b post,
            (forall g, g ∈ pre -> key g < key b) ->
            (forall g, g ∈ post -> key g <= key b) ->
            exists pre' post',
              let b' := fold_left (fun best y => if key best <? key y then y else best)
                          ys b in
              pre ++ b :: post ++ ys = pre' ++ b' :: post' /\
              (forall g, g ∈ pre' -> key g < key b') /\
              (forall g, g ∈ post' -> key g <= key b')).
  { induction ys as [|y ys IH]; intros pre b post Hpre Hpost.
    - exists pre, post. cbn. rewrite app_nil_r. auto.
    - cbn [fold_left]. destruct (key b <? key y) eqn:E.
      + apply Nat.ltb_lt in E.
        destruct (IH (pre ++ b :: post) y []) as (pre' & post' & Heq & H1 & H2).
        * intros g Hg. apply elem_of_app in Hg as [Hg|Hg].
          -- specialize (Hpre g Hg). lia.
          -- apply elem_of_cons in Hg as [->|Hg]; [exact E|].
             specialize (Hpost g Hg). lia.
        * intros g Hg. inversion Hg.
        * exists pre', post'. cbn zeta in *. split; [|auto].
          rewrite <- Heq. rewrite <- !app_assoc. reflexivity.
      + apply Nat.ltb_ge in E.
        destruct (IH pre b (post ++ [y])) as (pre' & post' & Heq & H1 & H2).
        * exact Hpre.
        * intros g Hg. apply elem_of_app in Hg as [Hg|Hg]; [auto|].
          apply list_elem_of_singleton in Hg. subst g. exact E.
        * exists pre', post'. cbn zeta in *. split; [|auto].
          rewrite <- Heq. rewrite <- !app_assoc. reflexivity. }
  destruct (Hgen xs [] x []) as (pre' & post' & Heq & H1 & H2).
  - intros g Hg. inversion Hg.
  - intros g Hg. inversion Hg.
  - exists pre', post'. cbn zeta in *. auto.
Qed.

Lemma py_max_short {A : Type} (key : A -> nat) (l : list A) :
  length l <= 1 -> py_max key l = head l.
Proof.
  destruct l as [|x [|y l]]; cbn; intros H; try reflexivity. lia.
Qed.

Lemma py_max_is_Some {A : Type} (key : A -> nat) (l : list A) :
  l <> [] -> is_Some (py_max key l).
Proof. destruct l; [congruence | cbn; eauto]. Qed.

(** [id_features[fid]] is the list of the features with that identifier,
    in document order. *)
Lemma group_by_id_lookup (features : list feature) (fid : string) :
  default [] (group_by_id features !! fid) = filter (with_id fid) features.
Proof.
  unfold group_by_id.
  assert (Hgen : forall l (m : gmap string (list feature)),
            default [] (fold_left
              (fun id_features feature =>
                 let fid := p_id (f_properties feature) in
                 <[fid := default [] (id_features !! fid) ++ [feature]]> id_features)
              l m !! fid)
            = default [] (m !! fid) ++ filter (with_id fid) l).
  { induction l as [|f l IH]; intros m; cbn [fold_left].
    - rewrite app_nil_r. reflexivity.
    - rewrite IH. cbn zeta. rewrite filter_cons.
      destruct (decide (p_id (f_properties f) = fid)) as [->|Hne].
      + rewrite lookup_insert_eq. cbn. rewrite <- app_assoc. reflexivity.
      + rewrite lookup_insert_ne by exact Hne. reflexivity. }
  rewrite Hgen, lookup_empty. reflexivity.
Qed.

Lemma best_of_has_id all fid best :
  best_of all fid = Some best -> p_id (f_properties best) = fid.
Proof.
  unfold best_of. intros H.
  apply py_max_first_largest in H as (pre & post & Heq & _).
  assert (Hin : best ∈ filter (with_id fid) all).
  { rewrite Heq. apply elem_of_app. right. apply elem_of_cons. left. reflexivity. }
  apply list_elem_of_filter in Hin as [Hid _]. exact Hid.
Qed.

Lemma dedup_step_inv all st f :
  dedup_inv all st -> f ∈ all ->
  exists st',
    dedup_step (group_by_id all) (Some st) f = Some st' /\
    dedup_inv all st' /\
    seen_ids st ⊆ seen_ids st' /\
    p_id (f_properties f) ∈ seen_ids st'.
Proof.
  intros [Hd Hc] Hf. unfold dedup_step. cbn [mbind option_bind].
  set (fid0 := p_id (f_properties f)).
  destruct (decide (fid0 ∈ seen_ids st)) as [Hseen|Hnew].
  { exists st. split; [reflexivity|]. split; [split; assumption|].
    split; [set_solver | exact Hseen]. }
  rewrite group_by_id_lookup.
  set (candidates := filter (with_id fid0) all).
  assert (Hne : candidates <> []).
  { intros E. assert (Hin : f ∈ candidates).
    { apply list_elem_of_filter. split; [reflexivity | exact Hf]. }
    rewrite E in Hin. inversion Hin. }
  destruct (py_max_is_Some count_coords candidates Hne) as [best Hbest].
  assert (Hbid : p_id (f_properties best) = fid0)
    by (apply (best_of_has_id all); exact Hbest).
  assert (Hstep : forall dc,
            (dc = 0%nat -> length candidates <= 1 /\ dupe_count st = 0%nat) ->
            let st' := {| dupe_count := dc; deduped := deduped st ++ [best];
                          seen_ids := seen_ids st ∪ {[fid0]} |} in
            dedup_inv all st' /\ seen_ids st ⊆ seen_ids st' /\
            fid0 ∈ seen_ids st').
  { intros dc Hdc st'. split; [split|split].
    - intros fid. cbn [deduped seen_ids st']. rewrite filter_app, Hd.
      rewrite filter_cons, filter_nil.
      destruct (decide (fid = fid0)) as [->|Hfid].
      + destruct (decide (fid0 ∈ seen_ids st)) as [?|_]; [contradiction|].
        destruct (decide (p_id (f_properties best) = fid0)) as [_|?];
          [|contradiction].
        destruct (decide (fid0 ∈ seen_ids st ∪ {[fid0]})) as [_|Hn];
          [|exfalso; apply Hn; set_solver].
        unfold best_of. fold candidates. rewrite Hbest. reflexivity.
      + destruct (decide (p_id (f_properties best) = fid)) as [E|_];
          [congruence|].
        rewrite app_nil_r.
        destruct (decide (fid ∈ seen_ids st)) as [Hs|Hs];
          destruct (decide (fid ∈ seen_ids st ∪ {[fid0]})) as [Hs'|Hs'];
          try reflexivity; exfalso; set_solver.
    - cbn [dupe_count seen_ids st']. intros Ez fid Hfid.
      destruct (Hdc Ez) as [Hlen Hz].
      destruct (decide (fid = fid0)) as [->|Hne'']; [exact Hlen|].
      apply Hc; [exact Hz | set_solver].
    - cbn. set_solver.
    - cbn. set_solver. }
  destruct (1 <? length candidates) eqn:Elen.
  - rewrite Hbest. cbn [mbind option_bind]. eexists. split; [reflexivity|].
    apply Hstep. apply Nat.ltb_lt in Elen. lia.
  - apply Nat.ltb_ge in Elen.
    rewrite <- (py_max_short count_coords candidates Elen), Hbest.
    cbn [mbind option_bind]. eexists. split; [reflexivity|].
    apply Hstep. intros E. split; [exact Elen | exact E].
Qed.

Lemma dedup_fold_inv all l st :
  dedup_inv all st -> (forall f, f ∈ l -> f ∈ all) ->
  exists st',
    fold_left (dedup_step (group_by_id all)) l (Some st) = Some st' /\
    dedup_inv all st' /\
    seen_ids st ⊆ seen_ids st' /\
    (forall f, f ∈ l -> p_id (f_properties f) ∈ seen_ids st').
Proof.
  revert st. induction l as [|f l IH]; intros st Hinv Hall.
  - exists st. cbn. split; [reflexivity|]. split; [exact Hinv|].
    split; [set_solver|]. intros f Hf. inversion Hf.
  - cbn [fold_left].
    destruct (dedup_step_inv all st f Hinv) as (st1 & -> & Hinv1 & Hsub1 & Hf1).
    { apply Hall. left. }
    destruct (IH st1 Hinv1) as (st' & Hfold & Hinv' & Hsub' & Hl).
    { intros g Hg. apply Hall. right. exact Hg. }
    exists st'. split; [exact Hfold|]. split; [exact Hinv'|].
    split; [set_solver|].
    intros g Hg. apply elem_of_cons in Hg as [->|Hg]; [set_solver | auto].
Qed.

(** The deduplication stage returns, and its output holds of every group of
    the input exactly the chosen member. *)
Lemma dedup_stage_keeps version p :
  version ∈ DEDUP_VERSIONS ->
  exists p',
    dedup_stage version p = Some p' /\
    forall fid best, best_of (features p) fid = Some best ->
      filter (with_id fid) (features p') = [best].
Proof.
  intros Hv. unfold dedup_stage.
  destruct (decide (version ∈ DEDUP_VERSIONS)) as [_|?]; [|contradiction].
  unfold dedup_loop.
  destruct (dedup_fold_inv (features p) (features p)
              {| dupe_count := 0; deduped := []; seen_ids := ∅ |})
    as (st & -> & [Hd Hc] & _ & Hseen).
  { split; cbn.
    - intros fid. destruct (decide (fid ∈ (∅ : gset string))); [set_solver|reflexivity].
    - intros _ fid Hfid. set_solver. }
  { auto. }
  cbn [mbind option_bind].
  assert (Hin : forall fid best, best_of (features p) fid = Some best ->
                  fid ∈ seen_ids st).
  { intros fid best Hb. unfold best_of in Hb.
    apply py_max_first_largest in Hb as (pre & post & Heq & _).
    assert (Hg : best ∈ filter (with_id fid) (features p)).
    { rewrite Heq. apply elem_of_app. right. left. }
    apply list_elem_of_filter in Hg as [Hid Hg].
    rewrite <- Hid. apply Hseen, Hg. }
  destruct (0 <? dupe_count st) eqn:Edc.
  - eexists. split; [reflexivity|]. cbn [features].
    intros fid best Hb. rewrite Hd.
    destruct (decide (fid ∈ seen_ids st)) as [_|Hn].
    + rewrite Hb. reflexivity.
    + exfalso. apply Hn. eapply Hin, Hb.
  - exists p. split; [reflexivity|].
    intros fid best Hb. apply Nat.ltb_ge in Edc.
    assert (Hlen : length (filter (with_id fid) (features p)) <= 1).
    { apply Hc; [lia | eapply Hin, Hb]. }
    unfold best_of in Hb. rewrite (py_max_short _ _ Hlen) in Hb.
    destruct (filter (with_id fid) (features p)) as [|x [|y l]];
      cbn in Hb, Hlen; [discriminate | congruence | lia].
Qed.

Lemma renames_2010 : is_Some (renames_of "2010").
Proof. apply (bool_decide_unpack _). vm_compute. exact I. Qed.

(** C2.  For every version in the deduplication set and every identifier
    borne by at least one feature after the renames, deduplication keeps
    exactly one feature with that identifier: the first of those with the
    greatest count of coordinate points (every earlier member of the group
    has strictly fewer points, every later one at most as many).  The
    other members are gone, and a group of one keeps its member. *)
Theorem dedup_keeps_first_largest (version : string) (data : list feature) :
  version ∈ DEDUP_VERSIONS ->
  exists renames p,
    renames_of version = Some renames /\
    fix_boundary_version version data = Some (Some p) /\
    forall fid,
      filter (with_id fid) (reconciled version renames data) <> [] ->
      exists pre best post,
        filter (with_id fid) (reconciled version renames data)
          = pre ++ best :: post /\
        (forall g, g ∈ pre -> count_coords g < count_coords best) /\
        (forall g, g ∈ post -> count_coords g <= count_coords best) /\
        filter (with_id fid) (features p) = [best].
Proof.
  intros Hv.
  assert (Hr : is_Some (renames_of version)).
  { apply list_elem_of_singleton in Hv. subst version. exact renames_2010. }
  destruct Hr as [renames Hr]. unfold fix_boundary_version. rewrite Hr.
  cbn [mbind option_bind].
  fold (reconciled version renames data).
  set (q := rename_stage _ _).
  destruct (dedup_stage_keeps version q Hv) as (p & Hp & Hkeep).
  exists renames, p. split; [reflexivity|]. split; [rewrite Hp; reflexivity|].
  intros fid Hne.
  change (features q) with (reconciled version renames data) in Hkeep.
  destruct (py_max_is_Some count_coords _ Hne) as [best Hbest].
  destruct (py_max_first_largest _ _ _ Hbest) as (pre & post & Heq & H1 & H2).
  exists pre, best, post. split; [exact Heq|]. split; [exact H1|].
  split; [exact H2|]. apply Hkeep. exact Hbest.
Qed.

Example dedup_dup_document :
  option_map (option_map features) (fix_boundary_version "2010" dup_document) =
  Some (Some
    [ sample_feature "EC_A" "second" (Polygon [square_at 0]);
      sample_feature "EC_WREKIN__THE" "old" (Polygon [[(0, 0); (1, 1)]%Q]) ]).
Proof. vm_compute. reflexivity. Qed.

Lemma dedup_keeps_first_largest_witness :
  "2010" ∈ DEDUP_VERSIONS /\
  exists renames p,
    renames_of "2010" = Some renames /\
    fix_boundary_version "2010" dup_document = Some (Some p) /\
    forall fid,
      filter (with_id fid) (reconciled "2010" renames dup_document) <> [] ->
      exists pre best post,
        filter (with_id fid) (reconciled "2010" renames dup_document)
          = pre ++ best :: post /\
        (forall g, g ∈ pre -> count_coords g < count_coords best) /\
        (forall g, g ∈ post -> count_coords g <= count_coords best) /\
        filter (with_id fid) (features p) = [best].
Proof.
  split; [left|].
  apply (dedup_keeps_first_largest "2010" dup_document). left.
Defined.

(** ** Ambiguous split and repairs *)

Lemma collect_rings (coords : list ring) (acc : list point) :
  fold_left (fun acc ring => acc ++ ring) coords acc = acc ++ concat coords.
Proof.
  revert acc. induction coords as [|r coords IH]; intros acc; cbn.
  - rewrite app_nil_r. reflexivity.
  - rewrite IH, <- app_assoc. reflexivity.
Qed.

Lemma collect_polygons (coords : list (list ring)) (acc : list point) :
  fold_left
    (fun acc polygon => fold_left (fun acc ring => acc ++ ring) polygon acc)
    coords acc
  = acc ++ concat (concat coords).
Proof.
  revert acc. induction coords as [|p coords IH]; intros acc; cbn.
  - rewrite app_nil_r. reflexivity.
  - rewrite IH, collect_rings, concat_app, <- app_assoc. reflexivity.
Qed.

(** [get_centroid_lat]: 0 without points, otherwise the mean of the
    latitudes. *)
Lemma get_centroid_lat_mean f :
  get_centroid_lat f =
  match point_list (f_geometry f) with
  | [] => 0%Q
  | l => (fold_left Qplus (map snd l) 0 / inject_Z (Z.of_nat (length l)))%Q
  end.
Proof.
  unfold get_centroid_lat, point_list.
  destruct (f_geometry f) as [coords|coords|t c]; [| |reflexivity].
  - rewrite collect_rings. cbn [app]. destruct (concat coords); reflexivity.
  - rewrite collect_polygons. cbn [app].
    destruct (concat (concat coords)); reflexivity.
Qed.

Lemma richmond_split_south f :
  p_id (f_properties f) = "EC_RICHMOND" ->
  (get_centroid_lat f <= 53)%Q ->
  richmond_split f =
  set_names f "EC_RICHMOND__SURREY_" "Richmond (Surrey)" "Richmond (Surrey)".
Proof.
  intros Hid Hlat. unfold richmond_split.
  destruct (decide _) as [_|?]; [|contradiction].
  cbn zeta. apply Qgtb_le in Hlat. rewrite Hlat. reflexivity.
Qed.

Lemma richmond_split_north f :
  p_id (f_properties f) = "EC_RICHMOND" ->
  (53 < get_centroid_lat f)%Q ->
  richmond_split f =
  set_names f "EC_RICHMOND__YORKS_" "Richmond (Yorks.)" "Richmond (Yorks.)".
Proof.
  intros Hid Hlat. unfold richmond_split.
  destruct (decide _) as [_|?]; [|contradiction].
  cbn zeta. apply Qgtb_lt in Hlat. rewrite Hlat. reflexivity.
Qed.



Example richmond_north :
  option_map (option_map features)
    (fix_boundary_version "1974"
       [sample_feature "EC_RICHMOND" "Richmond" (Polygon [square_at (542 # 10)])])
  = Some (Some [sample_feature "EC_RICHMOND__YORKS_" "Richmond (Yorks.)"
                  (Polygon [square_at (542 # 10)])]).
Proof. vm_compute. reflexivity. Qed.

Example richmond_no_geometry :
  option_map (option_map features)
    (fix_boundary_version "1955"
       [sample_feature "EC_RICHMOND" "Richmond" (OtherGeometry Point (JArr []))])
  = Some (Some [sample_feature "EC_RICHMOND__SURREY_" "Richmond (Surrey)"
                  (OtherGeometry Point (JArr []))]).
Proof. vm_compute. reflexivity. Qed.


(** ** Names written by the repairs and by the name sync *)

(** The name sync stores the normal form of the name it stores. *)
Lemma sync_feature_invariant name_lookup f :
  snd (sync_feature name_lookup f) = true ->
  name_invariant (fst (sync_feature name_lookup f)).
Proof.
  unfold sync_feature.
  destruct (name_lookup !! p_id (f_properties f)) as [election_name|];
    [|discriminate].
  cbn zeta. destruct (_ || _); [|discriminate].
  intros _. exists election_name. split; reflexivity.
Qed.

Lemma richmond_split_stores_raw_name f :
  p_id (f_properties f) = "EC_RICHMOND" ->
  ~ name_invariant (richmond_split f).
Proof.
  intros Hid [name [Hn Hnn]]. unfold richmond_split in Hn, Hnn.
  destruct (decide _) as [_|?]; [|contradiction].
  cbn zeta in Hn, Hnn.
  destruct (Qgtb (get_centroid_lat f) 53); cbn in Hn, Hnn;
    injection Hn as <-; vm_compute in Hnn; discriminate Hnn.
Qed.

Lemma empty_feature_stores_raw_name f :
  p_id (f_properties f) = "EC_" ->
  ~ name_invariant (empty_feature f).
Proof.
  intros Hid [name [Hn Hnn]]. unfold empty_feature in Hn, Hnn.
  destruct (decide _) as [_|?]; [|contradiction].
  cbn in Hn, Hnn. injection Hn as <-. vm_compute in Hnn. discriminate Hnn.
Qed.

(** C3 (the code departs from the claim).  The Richmond split and the
    empty-identifier repair store the display name itself as
    [normalizedName]: after [fix_boundary_files] the repaired feature has
    [normalizedName = "Richmond (Surrey)"] (resp. ["Southend West"]) while
    the normal form of its [Name] is ["richmond (surrey)"] (resp.
    ["southend west"]).  Only the name sync stores the normal form. *)
Theorem repairs_break_name_invariant :
  (exists p f',
     fix_boundary_version "1955" [richmond_on_the_line] = Some (Some p) /\
     features p = [f'] /\
     p_Name (f_properties f') = Some "Richmond (Surrey)"%string /\
     p_normalizedName (f_properties f') = Some "Richmond (Surrey)"%string /\
     normalize_constituency_name "Richmond (Surrey)" = "richmond (surrey)"%string /\
     ~ name_invariant f') /\
  (exists p f',
     fix_boundary_version "1997"
       [sample_feature "EC_" "" (Polygon [square_at 51])] = Some (Some p) /\
     features p = [f'] /\
     p_Name (f_properties f') = Some "Southend West"%string /\
     p_normalizedName (f_properties f') = Some "Southend West"%string /\
     normalize_constituency_name "Southend West" = "southend west"%string /\
     ~ name_invariant f').
Proof.
  split.
  - eexists _, _. split; [vm_compute; reflexivity|].
    split; [reflexivity|]. split; [reflexivity|]. split; [reflexivity|].
    split; [vm_compute; reflexivity|].
    intros [name [Hn Hnn]]. cbn in Hn, Hnn. injection Hn as <-.
    vm_compute in Hnn. discriminate Hnn.
  - eexists _, _. split; [vm_compute; reflexivity|].
    split; [reflexivity|]. split; [reflexivity|]. split; [reflexivity|].
    split; [vm_compute; reflexivity|].
    intros [name [Hn Hnn]]. cbn in Hn, Hnn. injection Hn as <-.
    vm_compute in Hnn. discriminate Hnn.
Qed.

(** ** round_coords *)

Import Clip.

Lemma round_numbers_all precision items :
  forallb is_num items = true ->
  round_numbers precision items = Ok (map (round_all precision) items).
Proof.
  induction items as [|[c|l] items IH]; cbn; intros H;
    [reflexivity | | discriminate].
  rewrite IH by exact H. reflexivity.
Qed.

Lemma no_empty_numbers items :
  forallb is_num items = true -> forallb no_empty items = true.
Proof.
  induction items as [|[c|l] items IH]; cbn; intros H;
    [reflexivity | exact (IH H) | discriminate].
Qed.

(** The comprehension over nested arrays, as a traversal. *)
Lemma each_traverse precision (cs : list json) :
  (fix each (cs : list json) : result (list json) :=
     match cs with
     | [] => Ok []
     | c :: rest0 =>
         r ← round_coords c precision;
         rs ← each rest0; Ok (r :: rs)
     end) cs
  = traverse (fun c => round_coords c precision) cs.
Proof.
  induction cs as [|c cs IH]; [reflexivity|].
  cbn [traverse]. rewrite <- IH. reflexivity.
Qed.

Lemma round_coords_arrays precision l rest :
  round_coords (JArr (JArr l :: rest)) precision =
  JArr <$> traverse (fun c => round_coords c precision) (JArr l :: rest).
Proof.
  exact (f_equal (fun x : result (list json) => JArr <$> x)
           (each_traverse precision (JArr l :: rest))).
Qed.

(** On a homogeneous array [round_coords] returns the rounded tree when no
    array in it is empty and raises IndexError otherwise. *)
Lemma round_coords_homogeneous precision (t : json) :
  is_arr t = true -> homogeneous t = true ->
  round_coords t precision =
  if no_empty t then Ok (round_all precision t) else Raise IndexError.
Proof.
  induction t as [q|items IH] using json_ind'; [discriminate|].
  intros _ Hh. destruct items as [|[c|l] rest]; [reflexivity| |].
  - (* numbers *)
    cbn [homogeneous] in Hh. apply orb_true_iff in Hh as [Hh|Hh];
      [|cbn in Hh; discriminate].
    cbn [round_coords no_empty]. rewrite (round_numbers_all _ _ Hh).
    rewrite (no_empty_numbers _ Hh). reflexivity.
  - (* arrays *)
    cbn [homogeneous] in Hh. apply orb_true_iff in Hh as [Hh|Hh];
      [cbn in Hh; discriminate|].
    rewrite round_coords_arrays. cbn [no_empty round_all].
    set (items := JArr l :: rest) in *.
    assert (Heach : traverse (fun c => round_coords c precision) items =
                    if forallb no_empty items
                    then Ok (map (round_all precision) items)
                    else Raise IndexError).
    { clearbody items. clear -IH Hh.
      induction items as [|c cs IHcs]; [reflexivity|].
      cbn [forallb] in Hh. apply andb_true_iff in Hh as [Hc Hcs].
      apply andb_true_iff in Hc as [Hca Hch].
      inversion IH as [|? ? Hc' Hcs']; subst.
      cbn [traverse forallb map]. rewrite (Hc' Hca Hch).
      destruct (no_empty c); [|reflexivity].
      cbn. rewrite (IHcs Hcs' Hcs).
      destruct (forallb no_empty cs); reflexivity. }
    rewrite Heach. destruct (forallb no_empty items); reflexivity.
Qed.

Lemma round_all_same_shape precision t :
  same_shape t (round_all precision t) = true.
Proof.
  induction t as [q|items IH] using json_ind'; [reflexivity|].
  cbn [round_all same_shape].
  induction IH as [|c cs Hc Hcs IHcs]; [reflexivity|].
  cbn [map]. rewrite Hc. exact IHcs.
Qed.

(** C10.  [round_coords] indexes the first item of its argument whatever
    it is.  On a coordinate array (the items of every array all numbers or
    all arrays) it raises IndexError as soon as some array of the tree, at
    any depth, is empty; when no array is empty it returns, and the result
    is the same tree, of the same shape, with every number rounded to the
    given number of decimal places (3 at the call site). *)
Theorem round_coords_partial (coords : json) (precision : nat) :
  is_arr coords = true ->
  homogeneous coords = true ->
  (no_empty coords = false -> round_coords coords precision = Raise IndexError) /\
  (no_empty coords = true ->
   round_coords coords precision = Ok (round_all precision coords) /\
   same_shape coords (round_all precision coords) = true).
Proof.
  intros Ha Hh. rewrite (round_coords_homogeneous precision coords Ha Hh).
  split; intros ->; [reflexivity|].
  split; [reflexivity | apply round_all_same_shape].
Qed.

Example round_coords_empty_top : round_coords (JArr []) 3 = Raise IndexError.
Proof. reflexivity. Qed.

Example round_coords_empty_deep :
  round_coords (JArr [JArr [JArr [JNum 1; JNum 2]]; JArr []]) 3
  = Raise IndexError.
Proof. reflexivity. Qed.

Example round_coords_ring :
  round_coords (JArr [JArr [JNum (12345 # 10000); JNum (-5 # 10000)];
                      JArr [JNum (15 # 10000); JNum 7]]) 3
  = Ok (JArr [JArr [JNum (1234 # 1000); JNum (0 # 1000)];
              JArr [JNum (2 # 1000); JNum (7000 # 1000)]]).
Proof. vm_compute. reflexivity. Qed.

Lemma round_coords_partial_witness :
  is_arr (JArr [JArr [JNum (12345 # 10000); JNum 7]]) = true /\
  homogeneous (JArr [JArr [JNum (12345 # 10000); JNum 7]]) = true /\
  (no_empty (JArr [JArr [JNum (12345 # 10000); JNum 7]]) = false ->
   round_coords (JArr [JArr [JNum (12345 # 10000); JNum 7]]) 3
   = Raise IndexError) /\
  (no_empty (JArr [JArr [JNum (12345 # 10000); JNum 7]]) = true ->
   round_coords (JArr [JArr [JNum (12345 # 10000); JNum 7]]) 3
   = Ok (round_all 3 (JArr [JArr [JNum (12345 # 10000); JNum 7]])) /\
   same_shape (JArr [JArr [JNum (12345 # 10000); JNum 7]])
     (round_all 3 (JArr [JArr [JNum (12345 # 10000); JNum 7]])) = true).
Proof.
  split; [reflexivity|]. split; [reflexivity|].
  apply (round_coords_partial (JArr [JArr [JNum (12345 # 10000); JNum 7]]) 3);
    reflexivity.
Defined.

(** ** The clipper *)

Lemma eqb_type_differs (a b : string) :
  negb (String.eqb a b) = true <-> a <> b.
Proof.
  rewrite negb_true_iff. split.
  - intros H E. apply String.eqb_eq in E. congruence.
  - intros H. destruct (String.eqb a b) eqn:E; [|reflexivity].
    apply String.eqb_eq in E. contradiction.
Qed.

(** C6.  When the body of the loop completes for a feature, the stored
    geometry is replaced (and the feature counted as modified) if and only
    if clipping produced a [result_dict] whose type or whose number of
    points differs from the input's; the new geometry is then that
    [result_dict].  In every other case, in particular when type and
    number of points agree, the feature is left exactly as it was. *)
Theorem clip_replaces_iff_changed (E : engine) (land_mask : sgeom)
    (f : feature) (s : step) :
  clip_feature E land_mask f = Ok s ->
  (s_modified s = true <->
   exists result_dict,
     clip_geometry E land_mask (p_id (f_properties f)) (f_geometry f)
       = Ok (Clipped result_dict) /\
     (geo_type result_dict <> geo_type (f_geometry f) \/
      count_coords result_dict <> count_coords (f_geometry f))) /\
  (s_modified s = true ->
   exists result_dict,
     clip_geometry E land_mask (p_id (f_properties f)) (f_geometry f)
       = Ok (Clipped result_dict) /\
     s_feature s = set_geometry f result_dict) /\
  (s_modified s = false -> s_feature s = f).
Proof.
  unfold clip_feature. cbn zeta.
  destruct (clip_geometry E land_mask (p_id (f_properties f)) (f_geometry f))
    as [[printed|result_dict]|e]; cbn [mbind result_bind rbind];
    [| |discriminate].
  - intros [= <-]. cbn [s_modified s_feature].
    split; [split; [discriminate | intros (r & H & _); discriminate]|].
    split; [discriminate | reflexivity].
  - destruct (negb (String.eqb (geo_type result_dict) (geo_type (f_geometry f)))
              || negb (count_coords result_dict =? count_coords (f_geometry f)))
      eqn:Hchg; intros [= <-]; cbn [s_modified s_feature].
    + split; [|split; [|discriminate]].
      * split; [|reflexivity]. intros _. exists result_dict.
        split; [reflexivity|].
        apply orb_true_iff in Hchg as [H|H].
        -- left. apply eqb_type_differs, H.
        -- right. apply negb_true_iff, Nat.eqb_neq in H. exact H.
      * intros _. exists result_dict. split; reflexivity.
    + split; [|split; [discriminate | reflexivity]].
      split; [discriminate|].
      intros (r & [= <-] & Hd). exfalso.
      apply orb_false_iff in Hchg as [Ht Hn].
      apply negb_false_iff in Ht, Hn.
      apply String.eqb_eq in Ht. apply Nat.eqb_eq in Hn.
      destruct Hd as [Hd|Hd]; contradiction.
Qed.

Example clip_square_kept :
  clip_feature demo_engine SOther square_feature =
  Ok {| s_feature := square_feature; s_modified := false;
        s_before := 5; s_after := 5; s_printed := [] |}.
Proof. vm_compute. reflexivity. Qed.

Lemma clip_replaces_iff_changed_witness :
  clip_feature demo_engine SOther square_feature =
    Ok {| s_feature := square_feature; s_modified := false;
          s_before := 5; s_after := 5; s_printed := [] |} /\
  (false = false -> square_feature = square_feature).
Proof.
  assert (H : clip_feature demo_engine SOther square_feature =
              Ok {| s_feature := square_feature; s_modified := false;
                    s_before := 5; s_after := 5; s_printed := [] |})
    by (vm_compute; reflexivity).
  split; [exact H|].
  exact (proj2 (proj2 (clip_replaces_iff_changed demo_engine SOther
                         square_feature _ H))).
Defined.

(** A feature that [shape] cannot parse leaves the loop body unchanged and
    without any line printed. *)
Lemma clip_parse_failure E land_mask f :
  shape E (f_geometry f) = None ->
  clip_feature E land_mask f =
  Ok {| s_feature := f; s_modified := false;
        s_before := count_coords (f_geometry f);
        s_after := count_coords (f_geometry f);
        s_printed := [] |}.
Proof.
  intros H. unfold clip_feature, clip_geometry. rewrite H. reflexivity.
Qed.


(** ** The validator *)

Lemma sorted_elem_of (s : gset string) (c : string) : c ∈ sorted s <-> c ∈ s.
Proof.
  unfold sorted. rewrite merge_sort_Permutation. apply elem_of_elements.
Qed.

Lemma sorted_length (s : gset string) : length (sorted s) = size s.
Proof. unfold sorted. rewrite merge_sort_Permutation. reflexivity. Qed.

Lemma truthy_nonempty (s : gset string) : truthy s = true <-> s <> ∅.
Proof. unfold truthy. apply bool_decide_eq_true. Qed.

Lemma truthy_empty (s : gset string) : truthy s = false <-> s = ∅.
Proof.
  unfold truthy. rewrite bool_decide_eq_false. split.
  - intros H. destruct (decide (s = ∅)); [assumption | contradiction].
  - intros -> H. apply H. reflexivity.
Qed.

Lemma boundary_ids_spec boundary c :
  c ∈ boundary_ids boundary <->
  c <> ""%string /\ exists f, f ∈ boundary /\ p_id (f_properties f) = c.
Proof.
  unfold boundary_ids. rewrite elem_of_list_to_set, list_elem_of_fmap. split.
  - intros (f & -> & Hf). apply list_elem_of_filter in Hf as [Hne Hf].
    split; [exact Hne | exists f; auto].
  - intros (Hne & f & Hf & <-). exists f. split; [reflexivity|].
    apply list_elem_of_filter. auto.
Qed.

Lemma election_ids_spec election c :
  c ∈ election_ids election <->
  exists k, k ∈ election /\ constituencyId k = c.
Proof.
  unfold election_ids. rewrite elem_of_list_to_set, list_elem_of_fmap. split.
  - intros (k & -> & Hk). exists k. auto.
  - intros (k & Hk & <-). exists k. auto.
Qed.

Lemma missing_from_boundary_spec year_str election boundary c :
  c ∈ missing_from_boundary (compare_ids year_str election boundary) <->
  c ∈ election_ids election /\ (c ∉ boundary_ids boundary) /\
  (year_str, c) ∉ known_exceptions.
Proof.
  unfold compare_ids. cbn [missing_from_boundary].
  rewrite elem_of_filter, elem_of_difference. tauto.
Qed.

Lemma missing_from_election_spec year_str election boundary c :
  c ∈ missing_from_election (compare_ids year_str election boundary) <->
  c ∈ boundary_ids boundary /\ (c ∉ election_ids election).
Proof.
  unfold compare_ids. cbn [missing_from_election].
  apply elem_of_difference.
Qed.

Lemma validate_pair_lines year_str bv election boundary :
  let m := compare_ids year_str election boundary in
  let out := validate_pair year_str bv election boundary in
  (forall ids, MissingFromBoundary ids ∈ fst out <->
     missing_from_boundary m <> ∅ /\
     ids = take 10 (sorted (missing_from_boundary m))) /\
  (forall ids, MissingFromElection ids ∈ fst out <->
     missing_from_election m <> ∅ /\
     ids = take 10 (sorted (missing_from_election m))) /\
  snd out = size (missing_from_boundary m) + size (missing_from_election m).
Proof.
  cbn zeta. unfold validate_pair.
  set (m := compare_ids year_str election boundary).
  destruct (truthy (missing_from_boundary m)) eqn:Hb;
    destruct (truthy (missing_from_election m)) eqn:He;
    cbn [orb fst snd app];
    try apply truthy_nonempty in Hb; try apply truthy_nonempty in He;
    try apply truthy_empty in Hb; try apply truthy_empty in He;
    (split; [|split]);
    try (intros ids; rewrite ?elem_of_cons, ?elem_of_nil; split;
         [ intros H; repeat destruct H as [H|H]; try discriminate H;
           try contradiction; injection H as ->; auto
         | intros [Hne ->]; try (rewrite Hb in Hne; congruence);
           try (rewrite He in Hne; congruence); auto ]).
  - reflexivity.
  - rewrite He, size_empty. reflexivity.
  - rewrite Hb, size_empty. reflexivity.
  - rewrite Hb, He, size_empty. reflexivity.
Qed.

(** C5, as the code has it.  For a result document and a boundary document
    the validator counts, as missing from the boundary, the election
    identifiers that are not boundary identifiers and not on the allow-list
    for that year, and, as missing from the election, every boundary
    identifier that is not an election identifier (the allow-list is not
    applied to this side); the boundary identifiers are the non-empty
    ones.  An identifier in both sets is in neither.  Each of the two
    printed lists holds the first ten identifiers of its set in sorted
    order, so every printed identifier belongs to the set and a set of at
    most ten is printed in full. *)
Theorem validate_reports (year_str bv : string)
    (election : list constituency) (boundary : list feature) :
  let m := compare_ids year_str election boundary in
  let out := validate_pair year_str bv election boundary in
  (forall c, c ∈ missing_from_boundary m <->
     c ∈ election_ids election /\ (c ∉ boundary_ids boundary) /\
     (year_str, c) ∉ known_exceptions) /\
  (forall c, c ∈ missing_from_election m <->
     c ∈ boundary_ids boundary /\ (c ∉ election_ids election)) /\
  (forall c, c ∈ boundary_ids boundary <->
     c <> ""%string /\ exists f, f ∈ boundary /\ p_id (f_properties f) = c) /\
  (forall c, c ∈ election_ids election <->
     exists k, k ∈ election /\ constituencyId k = c) /\
  (forall c, c ∈ election_ids election -> c ∈ boundary_ids boundary ->
     c ∉ reported m) /\
  (forall ids, MissingFromBoundary ids ∈ fst out <->
     missing_from_boundary m <> ∅ /\
     ids = take 10 (sorted (missing_from_boundary m))) /\
  (forall ids, MissingFromElection ids ∈ fst out <->
     missing_from_election m <> ∅ /\
     ids = take 10 (sorted (missing_from_election m))) /\
  (forall s c, c ∈ take 10 (sorted s) -> c ∈ s) /\
  (forall s, size s <= 10 -> forall c, c ∈ s -> c ∈ take 10 (sorted s)) /\
  snd out = size (missing_from_boundary m) + size (missing_from_election m).
Proof.
  cbn zeta.
  destruct (validate_pair_lines year_str bv election boundary) as (L1 & L2 & L3).
  split; [intros c; apply missing_from_boundary_spec|].
  split; [intros c; apply missing_from_election_spec|].
  split; [intros c; apply boundary_ids_spec|].
  split; [intros c; apply election_ids_spec|].
  split.
  { intros c He Hb Hr. unfold reported in Hr.
    apply elem_of_union in Hr as [Hr|Hr].
    - apply missing_from_boundary_spec in Hr as (_ & Hn & _). contradiction.
    - apply missing_from_election_spec in Hr as (_ & Hn). contradiction. }
  split; [exact L1|]. split; [exact L2|].
  split.
  { intros s c Hc. apply sorted_elem_of.
    exact (subseteq_take 10 _ _ Hc). }
  split; [|exact L3].
  intros s Hs c Hc. rewrite take_ge by (rewrite sorted_length; exact Hs).
  apply sorted_elem_of, Hc.
Qed.

Example validate_pair_scenario :
  validate_pair "2010" "2010" (election_of ["EC_A"; "EC_B"; "EC_C"])
    [sample_feature "EC_A" "A" (Polygon []); sample_feature "EC_B" "B" (Polygon [])]
  = ([Mismatch "2010" "2010"; MissingFromBoundary ["EC_C"]], 1).
Proof. vm_compute. reflexivity. Qed.

Example validate_pair_exception :
  validate_pair "1992" "1983"
    (election_of ["EC_A"; "EC_MILTON_KEYNES_NORTH_EAST"])
    [sample_feature "EC_A" "A" (Polygon [])]
  = ([AllOk "1992" "1983" 2], 0).
Proof. vm_compute. reflexivity. Qed.

(** C5, as the claim words it, fails on the code in three ways: an
    allow-listed identifier that only the boundary has is reported; of
    eleven missing identifiers the eleventh is not printed; an empty
    identifier present on both sides is reported. *)
Lemma validate_not_symmetric_difference :
  reported (compare_ids "1992" []
              [sample_feature "EC_MILTON_KEYNES_NORTH_EAST" "MK" (Polygon [])])
  <> symmetric_difference_report "1992" (election_ids [])
       (all_boundary_ids
          [sample_feature "EC_MILTON_KEYNES_NORTH_EAST" "MK" (Polygon [])])
  /\
  ("EC_K"%string ∈ election_ids (election_of eleven_ids) /\
   ("EC_K"%string ∉ all_boundary_ids []) /\
   (("2010"%string, "EC_K"%string) ∉ known_exceptions) /\
   validate_pair "2010" "2010" (election_of eleven_ids) []
   = ([Mismatch "2010" "2010";
       MissingFromBoundary ["EC_A"; "EC_B"; "EC_C"; "EC_D"; "EC_E"; "EC_F";
                            "EC_G"; "EC_H"; "EC_I"; "EC_J"]], 11))
  /\
  (""%string ∈ election_ids (election_of [""%string]) /\
   ""%string ∈ all_boundary_ids [sample_feature "" "nameless" (Polygon [])] /\
   ""%string ∈ reported (compare_ids "2010" (election_of [""%string])
                           [sample_feature "" "nameless" (Polygon [])])).
Proof.
  split; [|split].
  - intros Heq.
    assert (Hin : "EC_MILTON_KEYNES_NORTH_EAST"%string ∈
                  reported (compare_ids "1992" []
                    [sample_feature "EC_MILTON_KEYNES_NORTH_EAST" "MK" (Polygon [])])).
    { apply (bool_decide_unpack _). vm_compute. exact I. }
    rewrite Heq in Hin. unfold symmetric_difference_report in Hin.
    apply elem_of_filter in Hin as [Hex _]. apply Hex.
    apply (bool_decide_unpack _). vm_compute. exact I.
  - split; [apply (bool_decide_unpack _); vm_compute; exact I|].
    split; [apply (proj1 (bool_decide_eq_false _)); vm_compute; reflexivity|].
    split; [apply (proj1 (bool_decide_eq_false _)); vm_compute; reflexivity|].
    vm_compute. reflexivity.
  - split; [apply (bool_decide_unpack _); vm_compute; exact I|].
    split; apply (bool_decide_unpack _); vm_compute; exact I.
Qed.

(** The validator prints OK for a pair of documents, and adds nothing to
    the mismatch total, exactly when every election identifier is a
    boundary identifier or allow-listed for that year and every non-empty
    boundary identifier is an election identifier; the number it prints is
    the number of distinct election identifiers. *)
Theorem validate_pair_ok (year_str bv : string)
    (election : list constituency) (boundary : list feature) :
  let out := validate_pair year_str bv election boundary in
  let consistent :=
    (forall c, c ∈ election_ids election ->
       c ∈ boundary_ids boundary \/ (year_str, c) ∈ known_exceptions) /\
    (forall c, c ∈ boundary_ids boundary -> c ∈ election_ids election) in
  (fst out = [AllOk year_str bv (size (election_ids election))] <-> consistent) /\
  (snd out = 0%nat <-> consistent) /\
  (~ consistent -> exists rest, fst out = Mismatch year_str bv :: rest).
Proof.
  cbn zeta.
  set (m := compare_ids year_str election boundary).
  assert (Hc : (missing_from_boundary m = ∅ /\ missing_from_election m = ∅) <->
               ((forall c, c ∈ election_ids election ->
                   c ∈ boundary_ids boundary \/ (year_str, c) ∈ known_exceptions) /\
                (forall c, c ∈ boundary_ids boundary -> c ∈ election_ids election))).
  { split.
    - intros [Hb He]. split.
      + intros c Hin.
        destruct (decide (c ∈ boundary_ids boundary)) as [?|Hn]; [auto|].
        destruct (decide ((year_str, c) ∈ known_exceptions)) as [?|Hx]; [auto|].
        exfalso. assert (Hm : c ∈ missing_from_boundary m)
          by (apply missing_from_boundary_spec; auto).
        rewrite Hb in Hm. revert Hm. apply not_elem_of_empty.
      + intros c Hin.
        destruct (decide (c ∈ election_ids election)) as [?|Hn]; [auto|].
        exfalso. assert (Hm : c ∈ missing_from_election m)
          by (apply missing_from_election_spec; auto).
        rewrite He in Hm. revert Hm. apply not_elem_of_empty.
    - intros [H1 H2]. split; apply set_eq; intros c; split;
        try (intros Hn; exfalso; revert Hn; apply not_elem_of_empty).
      + intros Hm. apply missing_from_boundary_spec in Hm as (Hin & Hn & Hx).
        destruct (H1 c Hin); contradiction.
      + intros Hm. apply missing_from_election_spec in Hm as (Hin & Hn).
        exfalso. apply Hn, H2, Hin. }
  unfold validate_pair. fold m.
  destruct (truthy (missing_from_boundary m)) eqn:Hb;
    destruct (truthy (missing_from_election m)) eqn:He;
    cbn [orb fst snd app];
    try apply truthy_nonempty in Hb; try apply truthy_nonempty in He;
    try apply truthy_empty in Hb; try apply truthy_empty in He.
  4:{ split; [split; [intros _; apply Hc; auto | reflexivity]|].
      split; [split; [intros _; apply Hc; auto | reflexivity]|].
      intros Hn. exfalso. apply Hn, Hc. auto. }
  all: assert (Hnot : ~ (missing_from_boundary m = ∅ /\ missing_from_election m = ∅))
         by (intros [? ?]; contradiction).
  all: assert (Hpos : size (missing_from_boundary m)
                      + size (missing_from_election m) <> 0%nat)
         by (intros Hz; apply Hnot; split; apply leibniz_equiv, size_empty_inv; lia).
  all: split; [split; [discriminate | intros H; exfalso; apply Hnot, Hc, H]|].
  all: split; [split; [intros H; exfalso; apply Hpos, H
                      | intros H; exfalso; apply Hnot, Hc, H]|].
  all: intros _; eexists; reflexivity.
Qed.

(** ** fix_election_files *)

Lemma fix_row_year_eq expected c :
  fix_row_year expected c = c <-> r_year c = Some expected.
Proof.
  unfold fix_row_year. destruct (decide (r_year c = Some expected)) as [E|E].
  - tauto.
  - split; [|contradiction]. intros H. rewrite <- H. reflexivity.
Qed.

Lemma rename_woodford_eq c :
  rename_woodford c = c <-> r_constituencyId c <> Some "EC_WOODFORD"%string.
Proof.
  unfold rename_woodford.
  destruct (decide (r_constituencyId c = Some "EC_WOODFORD"%string)) as [E|E].
  - split; [|contradiction]. intros H. rewrite <- H. discriminate.
  - tauto.
Qed.

Lemma fix_row_year_fixed expected (l : list row) :
  existsb (fun c => negb (bool_decide (r_year c = Some expected))) l = false <->
  map (fix_row_year expected) l = l.
Proof.
  induction l as [|c l IH]; [cbn; tauto|].
  cbn [existsb map]. rewrite orb_false_iff, IH, negb_false_iff, bool_decide_eq_true.
  rewrite <- fix_row_year_eq. split.
  - intros [-> ->]. reflexivity.
  - intros [= H1 H2]. auto.
Qed.

Lemma rename_woodford_fixed (l : list row) :
  existsb (fun c => bool_decide (r_constituencyId c = Some "EC_WOODFORD"%string)) l
    = false <->
  map rename_woodford l = l.
Proof.
  induction l as [|c l IH]; [cbn; tauto|].
  cbn [existsb map]. rewrite orb_false_iff, IH, bool_decide_eq_false.
  rewrite <- rename_woodford_eq. split.
  - intros [-> ->]. reflexivity.
  - intros [= H1 H2]. auto.
Qed.

Lemma fix_row_year_year expected c :
  r_year (fix_row_year expected c) = Some expected.
Proof.
  unfold fix_row_year. destruct (decide (r_year c = Some expected)) as [E|E];
    [exact E | reflexivity].
Qed.

Lemma fix_row_year_idem expected c :
  fix_row_year expected (fix_row_year expected c) = fix_row_year expected c.
Proof. apply fix_row_year_eq, fix_row_year_year. Qed.

Lemma rename_woodford_gone c :
  r_constituencyId (rename_woodford c) <> Some "EC_WOODFORD"%string.
Proof.
  unfold rename_woodford.
  destruct (decide (r_constituencyId c = Some "EC_WOODFORD"%string)) as [E|E];
    [discriminate | exact E].
Qed.

Lemma rename_woodford_idem c :
  rename_woodford (rename_woodford c) = rename_woodford c.
Proof. apply rename_woodford_eq, rename_woodford_gone. Qed.

Lemma fix_row_year_after expected l :
  existsb (fun c => negb (bool_decide (r_year c = Some expected)))
    (map (fix_row_year expected) l) = false.
Proof.
  apply fix_row_year_fixed. rewrite map_map. apply map_ext.
  intros c. apply fix_row_year_idem.
Qed.

Lemma rename_woodford_after l :
  existsb (fun c => bool_decide (r_constituencyId c = Some "EC_WOODFORD"%string))
    (map rename_woodford l) = false.
Proof.
  apply rename_woodford_fixed. rewrite map_map. apply map_ext.
  intros c. apply rename_woodford_idem.
Qed.

Lemma rename_woodford_year c : r_year (rename_woodford c) = r_year c.
Proof. unfold rename_woodford. destruct (decide _); reflexivity. Qed.

Lemma both_fixed expected (l : list row) :
  map rename_woodford (map (fix_row_year expected) l) = l ->
  map (fix_row_year expected) l = l.
Proof.
  induction l as [|c l IH]; [reflexivity|].
  cbn [map]. intros [= Hc Hl]. rewrite (IH Hl). f_equal.
  apply fix_row_year_eq. rewrite <- Hc at 1.
  rewrite rename_woodford_year. apply fix_row_year_year.
Qed.

Ltac crack_election :=
  repeat first
    [ progress cbn [fst snd boundaryVersion e_year constituencies orb]
    | match goal with
      | |- context [decide ?P] => destruct (decide P) as [?|?]
      end ];
  subst.

(** The document [fix_election_files] leaves behind, member by member. *)
Lemma fix_election_file_result year_str data :
  fst (fix_election_file year_str data) =
  {| boundaryVersion :=
       match dict_get BOUNDARY_VERSION_FIXES year_str with
       | Some expected => Some expected
       | None => boundaryVersion data
       end;
     e_year :=
       match dict_get YEAR_ENCODING_FIXES year_str with
       | Some expected_year => Some expected_year
       | None => e_year data
       end;
     constituencies :=
       (if bool_decide (year_str ∈ WOODFORD_RENAME_YEARS)
        then map rename_woodford else fun l => l)
         (match dict_get YEAR_ENCODING_FIXES year_str with
          | Some expected_year => map (fix_row_year expected_year)
          | None => fun l => l
          end (constituencies data)) |}.
Proof.
  unfold fix_election_file. destruct data as [bv y rows].
  destruct (dict_get BOUNDARY_VERSION_FIXES year_str) as [expected|];
    destruct (dict_get YEAR_ENCODING_FIXES year_str) as [ey|];
    destruct (bool_decide_reflect (year_str ∈ WOODFORD_RENAME_YEARS));
    crack_election; try reflexivity; contradiction.
Qed.

Lemma election_modified_iff year_str data :
  snd (fix_election_file year_str data) = false <->
  fst (fix_election_file year_str data) = data.
Proof.
  unfold fix_election_file. destruct data as [bv y rows].
  destruct (dict_get BOUNDARY_VERSION_FIXES year_str) as [expected|];
    destruct (dict_get YEAR_ENCODING_FIXES year_str) as [ey|];
    crack_election;
    rewrite ?orb_false_iff, ?fix_row_year_fixed, ?rename_woodford_fixed;
    (split;
     [ try discriminate; try (intros [H1 H2]; rewrite H2, H1; reflexivity);
       try (intros H1; rewrite H1; reflexivity); try reflexivity
     | first [ intros [= H1 H2 H3] | intros [= H1 H2] | intros [= H1] | intros _ ];
       try congruence; try reflexivity; auto ]).
  all: pose proof (both_fixed _ _ H1) as H2; rewrite H2 in H1 |- *;
    split; [reflexivity | exact H1].
Qed.

(** The [modified] flag is raised exactly when the document changes, so a
    file is written back if and only if its content differs. *)
Theorem fix_election_file_modified year_str data :
  snd (fix_election_file year_str data) = false <->
  fst (fix_election_file year_str data) = data.
Proof. exact (election_modified_iff year_str data). Qed.

Lemma fix_after_rename expected c :
  fix_row_year expected (rename_woodford (fix_row_year expected c)) =
  rename_woodford (fix_row_year expected c).
Proof.
  apply fix_row_year_eq. rewrite rename_woodford_year. apply fix_row_year_year.
Qed.

(** Running [fix_election_files] a second time changes nothing and leaves
    the [modified] flag down. *)
Theorem fix_election_file_idempotent year_str data :
  fix_election_file year_str (fst (fix_election_file year_str data)) =
  (fst (fix_election_file year_str data), false).
Proof.
  assert (H : fst (fix_election_file year_str
                     (fst (fix_election_file year_str data)))
              = fst (fix_election_file year_str data)).
  { rewrite (fix_election_file_result year_str
               (fst (fix_election_file year_str data))).
    rewrite fix_election_file_result.
    cbn [boundaryVersion e_year constituencies].
    destruct (dict_get BOUNDARY_VERSION_FIXES year_str) as [expected|];
      destruct (dict_get YEAR_ENCODING_FIXES year_str) as [ey|];
      destruct (bool_decide (year_str ∈ WOODFORD_RENAME_YEARS));
      f_equal; rewrite ?map_map; try reflexivity; apply map_ext; intros c;
      rewrite ?fix_after_rename, ?rename_woodford_idem, ?fix_row_year_idem;
      reflexivity. }
  destruct (fix_election_file year_str (fst (fix_election_file year_str data)))
    as [d' m] eqn:E.
  cbn [fst] in H. subst d'. f_equal.
  pose proof (election_modified_iff year_str
                (fst (fix_election_file year_str data))) as Hm.
  rewrite E in Hm. cbn [fst snd] in Hm. apply Hm. reflexivity.
Qed.

(** What holds of an election file after [fix_election_files]: the
    boundary version and the year are the ones of the tables, every row
    carries the year of the table, no row is left as [EC_WOODFORD] in the
    rename years, and no row is added or dropped. *)
Theorem fix_election_file_post year_str data :
  let out := fst (fix_election_file year_str data) in
  (forall expected, dict_get BOUNDARY_VERSION_FIXES year_str = Some expected ->
     boundaryVersion out = Some expected) /\
  (dict_get BOUNDARY_VERSION_FIXES year_str = None ->
     boundaryVersion out = boundaryVersion data) /\
  (forall expected_year,
     dict_get YEAR_ENCODING_FIXES year_str = Some expected_year ->
     e_year out = Some expected_year /\
     Forall (fun c => r_year c = Some expected_year) (constituencies out)) /\
  (year_str ∈ WOODFORD_RENAME_YEARS ->
     Forall (fun c => r_constituencyId c <> Some "EC_WOODFORD"%string)
       (constituencies out)) /\
  length (constituencies out) = length (constituencies data).
Proof.
  cbn zeta. rewrite fix_election_file_result.
  cbn [boundaryVersion e_year constituencies].
  split; [intros expected ->; reflexivity|].
  split; [intros ->; reflexivity|].
  split; [|split].
  - intros ey ->. split; [reflexivity|].
    destruct (bool_decide (year_str ∈ WOODFORD_RENAME_YEARS));
      rewrite ?Forall_fmap; apply Forall_forall; intros c _; cbn;
      rewrite ?rename_woodford_year; apply fix_row_year_year.
  - intros Hy. rewrite (bool_decide_eq_true_2 _ Hy).
    apply Forall_fmap, Forall_forall. intros c _. apply rename_woodford_gone.
  - destruct (bool_decide (year_str ∈ WOODFORD_RENAME_YEARS));
      destruct (dict_get YEAR_ENCODING_FIXES year_str);
      rewrite ?length_map; reflexivity.
Qed.

Example fix_election_1959 :
  fix_election_file "1959"
    {| boundaryVersion := Some "1959"%string; e_year := Some 1959%Z;
       constituencies :=
         [{| r_constituencyId := Some "EC_WOODFORD"%string;
             r_constituencyName := Some "Woodford"%string;
             r_year := Some 1959%Z |}] |}
  = ({| boundaryVersion := Some "1955"%string; e_year := Some 1959%Z;
        constituencies :=
          [{| r_constituencyId := Some "EC_WANSTEAD_AND_WOODFORD"%string;
              r_constituencyName := Some "Wanstead and Woodford"%string;
              r_year := Some 1959%Z |}] |}, true).
Proof. vm_compute. reflexivity. Qed.

(** ** The rename tables *)

Lemma tables_settled :
  forallb (fun vt => table_settled (snd vt) && table_keeps_repairs (snd vt))
    BOUNDARY_RENAMES = true.
Proof. vm_compute. reflexivity. Qed.

Lemma renames_of_table version renames :
  renames_of version = Some renames ->
  exists table, (version, table) ∈ BOUNDARY_RENAMES /\
                renames = list_to_map table.
Proof.
  unfold renames_of. intros H.
  destruct (_ !! version) as [table|] eqn:E; [|discriminate].
  cbn in H. injection H as <-. exists table. split; [|reflexivity].
  apply elem_of_list_to_map_2 in E. exact E.
Qed.

Lemma is_key_lookup (table : list (string * string)) s :
  is_key table s = false -> (list_to_map table : gmap string string) !! s = None.
Proof.
  intros H. apply not_elem_of_list_to_map_1. intros Hin.
  apply list_elem_of_fmap in Hin as ([k v] & -> & Hin).
  unfold is_key in H.
  assert (Ht : existsb (fun kv => String.eqb (fst kv) k) table = true).
  { apply existsb_exists. exists (k, v). split.
    - apply list_elem_of_In, Hin.
    - apply String.eqb_refl. }
  cbn in H. congruence.
Qed.

Lemma table_facts version renames :
  renames_of version = Some renames ->
  (forall k v, renames !! k = Some v ->
     renames !! v = None /\ v <> "EC_RICHMOND"%string /\ v <> "EC_"%string) /\
  renames !! "EC_RICHMOND__YORKS_" = None /\
  renames !! "EC_RICHMOND__SURREY_" = None /\
  renames !! "EC_SOUTHEND_WEST" = None.
Proof.
  intros H. destruct (renames_of_table _ _ H) as (table & Hin & ->).
  pose proof tables_settled as Hall.
  rewrite forallb_forall in Hall.
  specialize (Hall (version, table) (proj1 (list_elem_of_In _ _) Hin)).
  cbn [snd] in Hall. apply andb_true_iff in Hall as [Hs Hk].
  split.
  - intros k v Hkv. apply elem_of_list_to_map_2 in Hkv.
    unfold table_settled in Hs. rewrite forallb_forall in Hs.
    specialize (Hs (k, v) (proj1 (list_elem_of_In _ _) Hkv)). cbn [snd] in Hs.
    apply andb_true_iff in Hs as [Hs H3].
    apply andb_true_iff in Hs as [H1 H2].
    apply negb_true_iff in H1, H2, H3.
    split; [apply is_key_lookup, H1|].
    split; intros ->; rewrite String.eqb_refl in *; discriminate.
  - unfold table_keeps_repairs in Hk.
    apply andb_true_iff in Hk as [Hk H3].
    apply andb_true_iff in Hk as [H1 H2].
    apply negb_true_iff in H1, H2, H3.
    repeat split; apply is_key_lookup; assumption.
Qed.

Lemma rename_settles version renames (f : feature) :
  renames_of version = Some renames ->
  renames !! p_id (f_properties (apply_rename renames f)) = None /\
  apply_rename renames (apply_rename renames f) = apply_rename renames f.
Proof.
  intros H. destruct (table_facts _ _ H) as (Hchain & _).
  assert (Hnone : renames !! p_id (f_properties (apply_rename renames f)) = None).
  { unfold apply_rename.
    destruct (renames !! p_id (f_properties f)) as [v|] eqn:E; [|exact E].
    cbn. apply (Hchain _ _ E). }
  split; [exact Hnone|].
  unfold apply_rename at 1. rewrite Hnone. reflexivity.
Qed.

(** Rename tables never chain: after the rename loop no feature bears an
    identifier that the table of its version renames, so running the loop
    again changes nothing. *)
Theorem renames_never_chain version renames (f : feature) :
  renames_of version = Some renames ->
  renames !! p_id (f_properties (apply_rename renames f)) = None /\
  apply_rename renames (apply_rename renames f) = apply_rename renames f.
Proof. exact (rename_settles version renames f). Qed.

Lemma renames_never_chain_witness :
  renames_of "1983" = Some (list_to_map
    (default [] (dict_get BOUNDARY_RENAMES "1983"))) /\
  apply_rename (list_to_map (default [] (dict_get BOUNDARY_RENAMES "1983")))
    (apply_rename (list_to_map (default [] (dict_get BOUNDARY_RENAMES "1983")))
       (sample_feature "EC_YORK" "York" (Polygon [])))
  = apply_rename (list_to_map (default [] (dict_get BOUNDARY_RENAMES "1983")))
      (sample_feature "EC_YORK" "York" (Polygon [])).
Proof.
  assert (H : renames_of "1983" = Some (list_to_map
                (default [] (dict_get BOUNDARY_RENAMES "1983")))).
  { apply (bool_decide_unpack _). vm_compute. exact I. }
  split; [exact H|].
  exact (proj2 (renames_never_chain "1983" _
                  (sample_feature "EC_YORK" "York" (Polygon [])) H)).
Defined.

Example rename_city_of_chester :
  option_map (option_map features)
    (fix_boundary_version "1983"
       [sample_feature "EC_CITY_OF_CHESTER" "Chester" (Polygon [])])
  = Some (Some [sample_feature "EC_CHESTER__CITY_OF" "Chester" (Polygon [])]).
Proof. vm_compute. reflexivity. Qed.

(** ** The whole pass over a boundary document *)

Lemma richmond_split_id f :
  p_id (f_properties (richmond_split f)) <> "EC_RICHMOND"%string.
Proof.
  unfold richmond_split.
  destruct (decide (p_id (f_properties f) = "EC_RICHMOND"%string)) as [E|E];
    [|exact E].
  cbn zeta. destruct (Qgtb _ _); cbn; discriminate.
Qed.

Lemma richmond_split_other f :
  p_id (f_properties f) <> "EC_RICHMOND"%string -> richmond_split f = f.
Proof.
  intros H. unfold richmond_split. destruct (decide _); [contradiction|reflexivity].
Qed.

Lemma empty_feature_id f :
  p_id (f_properties (empty_feature f)) <> "EC_"%string.
Proof.
  unfold empty_feature.
  destruct (decide (p_id (f_properties f) = "EC_"%string)) as [E|E];
    [cbn; discriminate | exact E].
Qed.

Lemma empty_feature_other f :
  p_id (f_properties f) <> "EC_"%string -> empty_feature f = f.
Proof.
  intros H. unfold empty_feature. destruct (decide _); [contradiction|reflexivity].
Qed.

Lemma apply_rename_other renames f :
  renames !! p_id (f_properties f) = None -> apply_rename renames f = f.
Proof. intros H. unfold apply_rename. rewrite H. reflexivity. Qed.

(** The stages before deduplication, feature by feature. *)
Lemma reconciled_map version renames data :
  reconciled version renames data =
  map (fun f =>
         apply_rename renames
           ((if bool_decide (version ∈ EMPTY_FEATURE_VERSIONS)
             then empty_feature else fun g => g)
              ((if bool_decide (version ∈ RICHMOND_SPLIT_VERSIONS)
                then richmond_split else fun g => g) f)))
      data.
Proof.
  unfold reconciled, rename_stage, empty_feature_stage, richmond_stage.
  destruct (bool_decide_reflect (version ∈ RICHMOND_SPLIT_VERSIONS));
    destruct (bool_decide_reflect (version ∈ EMPTY_FEATURE_VERSIONS));
    repeat match goal with
      | |- context [decide ?P] => destruct (decide P); try contradiction
      end;
    cbn [features]; rewrite ?map_map; reflexivity.
Qed.

Lemma count_if_none (P : feature -> bool) (l : list feature) :
  Forall (fun f => P f = false) l -> count_if P l = 0%nat.
Proof.
  unfold count_if. induction 1 as [|f l Hf Hl IH]; [reflexivity|].
  rewrite filter_cons. destruct (decide (P f = true)); [congruence | exact IH].
Qed.

(** After the three stages no feature bears an identifier that a stage of
    its version would still change. *)
Lemma reconciled_settled version renames data f :
  renames_of version = Some renames ->
  f ∈ reconciled version renames data ->
  renames !! p_id (f_properties f) = None /\
  (version ∈ RICHMOND_SPLIT_VERSIONS ->
   p_id (f_properties f) <> "EC_RICHMOND"%string) /\
  (version ∈ EMPTY_FEATURE_VERSIONS -> p_id (f_properties f) <> "EC_"%string).
Proof.
  intros Hr Hf. rewrite reconciled_map in Hf.
  apply list_elem_of_fmap in Hf as (g & -> & _).
  destruct (table_facts _ _ Hr) as (Hchain & _).
  split; [apply (rename_settles version renames _ Hr)|].
  set (h := (if bool_decide (version ∈ EMPTY_FEATURE_VERSIONS)
             then empty_feature else fun g0 => g0)
              ((if bool_decide (version ∈ RICHMOND_SPLIT_VERSIONS)
                then richmond_split else fun g0 => g0) g)).
  assert (Hh1 : version ∈ RICHMOND_SPLIT_VERSIONS ->
                p_id (f_properties h) <> "EC_RICHMOND"%string).
  { intros Hv. subst h. rewrite (bool_decide_eq_true_2 _ Hv).
    destruct (bool_decide (version ∈ EMPTY_FEATURE_VERSIONS)).
    - unfold empty_feature. destruct (decide _); [cbn; discriminate|].
      apply richmond_split_id.
    - apply richmond_split_id. }
  assert (Hh2 : version ∈ EMPTY_FEATURE_VERSIONS ->
                p_id (f_properties h) <> "EC_"%string).
  { intros Hv. subst h. rewrite (bool_decide_eq_true_2 _ Hv).
    apply empty_feature_id. }
  unfold apply_rename.
  destruct (renames !! p_id (f_properties h)) as [v|] eqn:E.
  - cbn. destruct (Hchain _ _ E) as (_ & H1 & H2). split; intros _; assumption.
  - split; assumption.
Qed.

Lemma dedup_loop_inv (l : list feature) :
  exists st,
    dedup_loop l = Some st /\ dedup_inv l st /\
    forall f, f ∈ l -> p_id (f_properties f) ∈ seen_ids st.
Proof.
  unfold dedup_loop.
  destruct (dedup_fold_inv l l {| dupe_count := 0; deduped := []; seen_ids := ∅ |})
    as (st & Hst & Hinv & _ & Hseen).
  - split; cbn.
    + intros fid. destruct (decide (fid ∈ (∅ : gset string))) as [H|_];
        [|reflexivity]. exfalso. revert H. apply not_elem_of_empty.
    + intros _ fid Hfid. exfalso. revert Hfid. apply not_elem_of_empty.
  - auto.
  - exists st. auto.
Qed.

Lemma option_list_short {A : Type} (o : option A) : length (option_list o) <= 1.
Proof. destruct o; cbn; lia. Qed.

(** What deduplication returns: only features of its input, at most one
    per identifier, at least one for every identifier of the input. *)
Lemma dedup_stage_unique version p p' :
  version ∈ DEDUP_VERSIONS ->
  dedup_stage version p = Some p' ->
  (forall f, f ∈ features p' -> f ∈ features p) /\
  (forall fid, length (filter (with_id fid) (features p')) <= 1) /\
  (forall f, f ∈ features p ->
     exists f', f' ∈ features p' /\
                p_id (f_properties f') = p_id (f_properties f)).
Proof.
  intros Hv. unfold dedup_stage.
  destruct (decide (version ∈ DEDUP_VERSIONS)) as [_|?]; [|contradiction].
  destruct (dedup_loop_inv (features p)) as (st & -> & [Hd Hc] & Hseen).
  cbn [mbind option_bind].
  assert (Hbest : forall f, f ∈ features p ->
            exists b, best_of (features p) (p_id (f_properties f)) = Some b).
  { intros f Hf. apply py_max_is_Some. intros E.
    assert (Hin : f ∈ filter (with_id (p_id (f_properties f))) (features p))
      by (apply list_elem_of_filter; auto).
    rewrite E in Hin. inversion Hin. }
  destruct (0 <? dupe_count st) eqn:Edc; intros [= <-]; cbn [features].
  - split; [|split].
    + intros f Hf.
      assert (Hin : f ∈ filter (with_id (p_id (f_properties f))) (deduped st))
        by (apply list_elem_of_filter; auto).
      rewrite Hd in Hin. destruct (decide _); [|inversion Hin].
      destruct (best_of (features p) (p_id (f_properties f))) as [b|] eqn:Eb;
        [|inversion Hin].
      cbn in Hin. apply list_elem_of_singleton in Hin. subst b.
      unfold best_of in Eb.
      apply py_max_first_largest in Eb as (pre & post & Heq & _).
      assert (Hg : f ∈ filter (with_id (p_id (f_properties f))) (features p)).
      { rewrite Heq. apply elem_of_app. right. left. }
      apply list_elem_of_filter in Hg as [_ Hg]. exact Hg.
    + intros fid. rewrite Hd. destruct (decide _); [apply option_list_short|cbn; lia].
    + intros f Hf. destruct (Hbest f Hf) as [b Hb]. exists b.
      split; [|apply (best_of_has_id _ _ _ Hb)].
      assert (Hin : b ∈ filter (with_id (p_id (f_properties f))) (deduped st)).
      { rewrite Hd. destruct (decide _) as [_|Hn];
          [rewrite Hb; left | exfalso; apply Hn, Hseen, Hf]. }
      apply list_elem_of_filter in Hin as [_ Hin]. exact Hin.
  - apply Nat.ltb_ge in Edc. split; [auto|]. split; [|eauto].
    intros fid.
    destruct (filter (with_id fid) (features p)) as [|g rest] eqn:Eg; [cbn; lia|].
    rewrite <- Eg. apply Hc; [lia|].
    assert (Hg : g ∈ filter (with_id fid) (features p)) by (rewrite Eg; left).
    apply list_elem_of_filter in Hg as [<- Hg]. apply Hseen, Hg.
Qed.

(** On a document with at most one feature per identifier the
    deduplication loop finds nothing to discard. *)
Lemma dedup_fold_quiet all l st :
  (forall fid, length (filter (with_id fid) all) <= 1) ->
  (forall f, f ∈ l -> f ∈ all) ->
  exists st',
    fold_left (dedup_step (group_by_id all)) l (Some st) = Some st' /\
    dupe_count st' = dupe_count st.
Proof.
  intros Hu. revert st. induction l as [|f l IH]; intros st Hall.
  - exists st. split; reflexivity.
  - cbn [fold_left].
    assert (Hstep : exists st1,
              dedup_step (group_by_id all) (Some st) f = Some st1 /\
              dupe_count st1 = dupe_count st).
    { unfold dedup_step. cbn [mbind option_bind].
      destruct (decide _); [eauto|].
      rewrite group_by_id_lookup.
      specialize (Hu (p_id (f_properties f))).
      assert (Hin : f ∈ filter (with_id (p_id (f_properties f))) all).
      { apply list_elem_of_filter. split; [reflexivity|]. apply Hall. left. }
      destruct (filter (with_id (p_id (f_properties f))) all) as [|g [|g' r]];
        [inversion Hin | | cbn in Hu; lia].
      cbn. eauto. }
    destruct Hstep as (st1 & -> & H1).
    destruct (IH st1) as (st' & Hf & H').
    { intros g Hg. apply Hall. right. exact Hg. }
    exists st'. split; [exact Hf | congruence].
Qed.

Lemma dedup_stage_quiet version p :
  (forall fid, length (filter (with_id fid) (features p)) <= 1) ->
  dedup_stage version p = Some p.
Proof.
  intros Hu. unfold dedup_stage. destruct (decide _); [|reflexivity].
  unfold dedup_loop.
  destruct (dedup_fold_quiet (features p) (features p)
              {| dupe_count := 0; deduped := []; seen_ids := ∅ |} Hu)
    as (st & -> & Hdc); [auto|].
  cbn [mbind option_bind]. cbn in Hdc. rewrite Hdc. reflexivity.
Qed.

Lemma pass_unfold version renames data :
  renames_of version = Some renames ->
  exists q,
    fix_boundary_version version data = Some (dedup_stage version q) /\
    features q = reconciled version renames data /\
    q = rename_stage renames
          (empty_feature_stage version
             (richmond_stage version
                {| features := data; modified := false; rename_count := 0 |})).
Proof.
  intros Hr. unfold fix_boundary_version. rewrite Hr. cbn [mbind option_bind].
  eexists. split; [reflexivity|]. split; reflexivity.
Qed.

Lemma pass_returns version data :
  fix_boundary_version version data <> Some None /\
  (fix_boundary_version version data = None <-> renames_of version = None) /\
  forall renames, renames_of version = Some renames ->
    exists p, fix_boundary_version version data = Some (Some p) /\
              forall f, f ∈ features p -> f ∈ reconciled version renames data.
Proof.
  assert (Hsome : forall renames, renames_of version = Some renames ->
            exists p, fix_boundary_version version data = Some (Some p) /\
                      forall f, f ∈ features p ->
                                f ∈ reconciled version renames data).
  { intros renames Hr.
    destruct (pass_unfold version renames data Hr) as (q & -> & Hq & _).
    destruct (decide (version ∈ DEDUP_VERSIONS)) as [Hv|Hv].
    - destruct (dedup_stage_keeps version q Hv) as (p & Hp & _).
      exists p. split; [rewrite Hp; reflexivity|].
      rewrite <- Hq. apply (dedup_stage_unique version q p Hv Hp).
    - exists q. unfold dedup_stage.
      destruct (decide (version ∈ DEDUP_VERSIONS)); [contradiction|].
      split; [reflexivity|]. rewrite Hq. auto. }
  destruct (renames_of version) as [renames|] eqn:Hr.
  - destruct (Hsome renames eq_refl) as (p & Hp & Hsub).
    split; [rewrite Hp; discriminate|].
    split; [rewrite Hp; split; discriminate|].
    intros r [= <-]. eauto.
  - assert (Hn : fix_boundary_version version data = None).
    { unfold fix_boundary_version. rewrite Hr. reflexivity. }
    split; [rewrite Hn; discriminate|].
    split; [tauto | discriminate].
Qed.

(** [fix_boundary_files] never raises: for a version of the rename tables
    the pass returns a document, and every feature of it is a feature of
    the document after the renames. *)
Theorem fix_boundary_version_returns version data :
  fix_boundary_version version data <> Some None /\
  (fix_boundary_version version data = None <-> renames_of version = None) /\
  forall renames, renames_of version = Some renames ->
    exists p, fix_boundary_version version data = Some (Some p) /\
              forall f, f ∈ features p -> f ∈ reconciled version renames data.
Proof. exact (pass_returns version data). Qed.

Lemma pass_settled version data p :
  fix_boundary_version version data = Some (Some p) ->
  (forall f renames, f ∈ features p -> renames_of version = Some renames ->
     renames !! p_id (f_properties f) = None) /\
  (version ∈ RICHMOND_SPLIT_VERSIONS ->
   forall f, f ∈ features p -> p_id (f_properties f) <> "EC_RICHMOND"%string) /\
  (version ∈ EMPTY_FEATURE_VERSIONS ->
   forall f, f ∈ features p -> p_id (f_properties f) <> "EC_"%string) /\
  (version ∈ DEDUP_VERSIONS ->
   forall fid, length (filter (with_id fid) (features p)) <= 1).
Proof.
  intros Hp.
  destruct (renames_of version) as [renames|] eqn:Hr;
    [|unfold fix_boundary_version in Hp; rewrite Hr in Hp; discriminate].
  destruct (pass_returns version data) as (_ & _ & Hret).
  destruct (Hret renames Hr) as (p' & Hp' & Hsub).
  rewrite Hp in Hp'. injection Hp' as <-.
  assert (Hs : forall f, f ∈ features p ->
            renames !! p_id (f_properties f) = None /\
            (version ∈ RICHMOND_SPLIT_VERSIONS ->
             p_id (f_properties f) <> "EC_RICHMOND"%string) /\
            (version ∈ EMPTY_FEATURE_VERSIONS ->
             p_id (f_properties f) <> "EC_"%string)).
  { intros f Hf. apply (reconciled_settled version renames data f Hr), Hsub, Hf. }
  split; [intros f r Hf [= <-]; apply Hs, Hf|].
  split; [intros Hv f Hf; apply (Hs f Hf), Hv|].
  split; [intros Hv f Hf; apply (Hs f Hf), Hv|].
  intros Hv.
  destruct (pass_unfold version renames data Hr) as (q & Hq & _).
  rewrite Hq in Hp. injection Hp as Hp.
  apply (dedup_stage_unique version q p Hv Hp).
Qed.

(** After the pass no feature bears an identifier that the pass would
    change, and in a deduplication version no two features share an
    identifier. *)
Theorem fix_boundary_version_settled version data p :
  fix_boundary_version version data = Some (Some p) ->
  (forall f renames, f ∈ features p -> renames_of version = Some renames ->
     renames !! p_id (f_properties f) = None) /\
  (version ∈ RICHMOND_SPLIT_VERSIONS ->
   forall f, f ∈ features p -> p_id (f_properties f) <> "EC_RICHMOND"%string) /\
  (version ∈ EMPTY_FEATURE_VERSIONS ->
   forall f, f ∈ features p -> p_id (f_properties f) <> "EC_"%string) /\
  (version ∈ DEDUP_VERSIONS ->
   forall fid, length (filter (with_id fid) (features p)) <= 1).
Proof. exact (pass_settled version data p). Qed.

Lemma map_fixed {A : Type} (g : A -> A) (l : list A) :
  Forall (fun x => g x = x) l -> map g l = l.
Proof. induction 1 as [|x l Hx Hl IH]; cbn; congruence. Qed.

Lemma stage_quiet (P : feature -> bool) (g : feature -> feature) (p : pass) :
  Forall (fun f => P f = false /\ g f = f) (features p) ->
  {| features := map g (features p);
     modified := modified p || (0 <? count_if P (features p));
     rename_count := rename_count p + count_if P (features p) |} = p.
Proof.
  intros H. destruct p as [l m n]. cbn [features modified rename_count] in *.
  rewrite count_if_none by (eapply Forall_impl; [exact H|]; intros f [E _]; exact E).
  rewrite map_fixed by (eapply Forall_impl; [exact H|]; intros f [_ E]; exact E).
  cbn. rewrite orb_false_r, Nat.add_0_r. reflexivity.
Qed.

(** A second run of [fix_boundary_files] on its own output returns the
    same features, renames nothing and leaves [modified] down. *)
Theorem fix_boundary_version_idempotent version data p :
  fix_boundary_version version data = Some (Some p) ->
  fix_boundary_version version (features p) =
  Some (Some {| features := features p; modified := false; rename_count := 0 |}).
Proof.
  intros Hp.
  destruct (pass_settled version data p Hp)
    as (Hkey & Hrich & Hempty & Hdup).
  destruct (renames_of version) as [renames|] eqn:Hr;
    [|unfold fix_boundary_version in Hp; rewrite Hr in Hp; discriminate].
  set (p0 := {| features := features p; modified := false; rename_count := 0 |}).
  unfold fix_boundary_version. rewrite Hr. cbn [mbind option_bind]. fold p0.
  assert (H1 : richmond_stage version p0 = p0).
  { unfold richmond_stage. destruct (decide _) as [Hv|_]; [|reflexivity].
    apply stage_quiet. apply Forall_forall. intros f Hf.
    specialize (Hrich Hv f Hf). split.
    - unfold has_id. apply bool_decide_eq_false_2, Hrich.
    - apply richmond_split_other, Hrich. }
  rewrite H1.
  assert (H2 : empty_feature_stage version p0 = p0).
  { unfold empty_feature_stage. destruct (decide _) as [Hv|_]; [|reflexivity].
    apply stage_quiet. apply Forall_forall. intros f Hf.
    specialize (Hempty Hv f Hf). split.
    - unfold has_id. apply bool_decide_eq_false_2, Hempty.
    - apply empty_feature_other, Hempty. }
  rewrite H2.
  assert (H3 : rename_stage renames p0 = p0).
  { unfold rename_stage. apply stage_quiet. apply Forall_forall. intros f Hf.
    specialize (Hkey f renames Hf eq_refl). split.
    - apply bool_decide_eq_false_2. rewrite Hkey. intros [x Hx]. discriminate.
    - apply apply_rename_other, Hkey. }
  rewrite H3.
  f_equal. destruct (decide (version ∈ DEDUP_VERSIONS)) as [Hv|Hv].
  - apply dedup_stage_quiet. exact (Hdup Hv).
  - unfold dedup_stage. destruct (decide _); [contradiction | reflexivity].
Qed.

Lemma fix_boundary_version_idempotent_witness :
  fix_boundary_version "2010" dup_document =
    Some (Some {| features :=
                    [ sample_feature "EC_A" "second" (Polygon [square_at 0]);
                      sample_feature "EC_WREKIN__THE" "old"
                        (Polygon [[(0, 0); (1, 1)]%Q]) ];
                  modified := true; rename_count := 1 |}) /\
  fix_boundary_version "2010"
    [ sample_feature "EC_A" "second" (Polygon [square_at 0]);
      sample_feature "EC_WREKIN__THE" "old" (Polygon [[(0, 0); (1, 1)]%Q]) ]
  = Some (Some {| features :=
                    [ sample_feature "EC_A" "second" (Polygon [square_at 0]);
                      sample_feature "EC_WREKIN__THE" "old"
                        (Polygon [[(0, 0); (1, 1)]%Q]) ];
                  modified := false; rename_count := 0 |}).
Proof.
  assert (H : fix_boundary_version "2010" dup_document =
    Some (Some {| features :=
                    [ sample_feature "EC_A" "second" (Polygon [square_at 0]);
                      sample_feature "EC_WREKIN__THE" "old"
                        (Polygon [[(0, 0); (1, 1)]%Q]) ];
                  modified := true; rename_count := 1 |}))
    by (vm_compute; reflexivity).
  split; [exact H|].
  exact (fix_boundary_version_idempotent "2010" dup_document _ H).
Defined.

Lemma fix_boundary_version_settled_witness :
  fix_boundary_version "2010" dup_document =
    Some (Some {| features :=
                    [ sample_feature "EC_A" "second" (Polygon [square_at 0]);
                      sample_feature "EC_WREKIN__THE" "old"
                        (Polygon [[(0, 0); (1, 1)]%Q]) ];
                  modified := true; rename_count := 1 |}) /\
  ("2010" ∈ DEDUP_VERSIONS ->
   forall fid,
     length (filter (with_id fid)
               [ sample_feature "EC_A" "second" (Polygon [square_at 0]);
                 sample_feature "EC_WREKIN__THE" "old"
                   (Polygon [[(0, 0); (1, 1)]%Q]) ]) <= 1).
Proof.
  assert (H : fix_boundary_version "2010" dup_document =
    Some (Some {| features :=
                    [ sample_feature "EC_A" "second" (Polygon [square_at 0]);
                      sample_feature "EC_WREKIN__THE" "old"
                        (Polygon [[(0, 0); (1, 1)]%Q]) ];
                  modified := true; rename_count := 1 |}))
    by (vm_compute; reflexivity).
  split; [exact H|].
  exact (proj2 (proj2 (proj2
           (fix_boundary_version_settled "2010" dup_document _ H)))).
Defined.

Lemma count_if_zero (P : feature -> bool) (l : list feature) :
  count_if P l = 0%nat -> Forall (fun f => P f = false) l.
Proof.
  unfold count_if. induction l as [|f l IH]; [constructor|].
  rewrite filter_cons. destruct (decide (P f = true)) as [E|E]; [discriminate|].
  intros H. constructor; [destruct (P f); congruence | apply IH, H].
Qed.

Lemma stage_unmodified (P : feature -> bool) (g : feature -> feature)
    (l : list feature) (m : bool) :
  (forall f, P f = false -> g f = f) ->
  m || (0 <? count_if P l) = false ->
  map g l = l /\ m = false.
Proof.
  intros Hg H. apply orb_false_iff in H as [-> Hn]. split; [|reflexivity].
  apply Nat.ltb_ge, Nat.le_0_r in Hn. apply map_fixed.
  eapply Forall_impl; [apply count_if_zero, Hn|]. exact Hg.
Qed.

(** When the pass leaves [modified] down (so that the file is not written
    back) it has changed nothing. *)
Theorem fix_boundary_version_unmodified version data p :
  fix_boundary_version version data = Some (Some p) ->
  modified p = false ->
  features p = data.
Proof.
  intros Hp Hm.
  destruct (renames_of version) as [renames|] eqn:Hr;
    [|unfold fix_boundary_version in Hp; rewrite Hr in Hp; discriminate].
  destruct (pass_unfold version renames data Hr) as (q & Hq & _ & Eq).
  rewrite Hq in Hp. injection Hp as Hp.
  assert (Hpq : p = q).
  { unfold dedup_stage in Hp.
    destruct (decide (version ∈ DEDUP_VERSIONS));
      [|injection Hp as Hp; congruence].
    destruct (dedup_loop (features q)) as [st|]; [|discriminate Hp].
    cbn [mbind option_bind] in Hp.
    destruct (0 <? dupe_count st); [|injection Hp as Hp; congruence].
    injection Hp as Hp. rewrite <- Hp in Hm. discriminate Hm. }
  subst p. rewrite Eq in Hm |- *. clear Hq Eq.
  unfold rename_stage in Hm |- *. cbn [modified features] in Hm |- *.
  apply (stage_unmodified _ (apply_rename renames)) in Hm as [E3 Hm].
  2:{ intros f Hf. apply apply_rename_other.
      apply bool_decide_eq_false in Hf.
      destruct (renames !! p_id (f_properties f));
        [exfalso; apply Hf; eauto | reflexivity]. }
  rewrite E3. clear E3.
  assert (H2 : features (empty_feature_stage version
                 (richmond_stage version
                    {| features := data; modified := false; rename_count := 0 |}))
               = features (richmond_stage version
                    {| features := data; modified := false; rename_count := 0 |})
               /\ modified (richmond_stage version
                    {| features := data; modified := false; rename_count := 0 |})
                  = false).
  { unfold empty_feature_stage in Hm |- *.
    destruct (decide (version ∈ EMPTY_FEATURE_VERSIONS)); [|auto].
    cbn [modified features] in Hm |- *.
    apply (stage_unmodified _ empty_feature) in Hm; [exact Hm|].
    intros f Hf. apply empty_feature_other.
    apply bool_decide_eq_false in Hf. exact Hf. }
  destruct H2 as [-> Hm1].
  unfold richmond_stage in Hm1 |- *.
  destruct (decide (version ∈ RICHMOND_SPLIT_VERSIONS)); [|reflexivity].
  cbn [modified features] in Hm1 |- *.
  apply (stage_unmodified _ richmond_split) in Hm1 as [E1 _]; [exact E1|].
  intros f Hf. apply richmond_split_other.
  apply bool_decide_eq_false in Hf. exact Hf.
Qed.

Lemma fix_boundary_version_unmodified_witness :
  fix_boundary_version "2024"
    [sample_feature "EC_EXETER" "Exeter" (Polygon [square_at 50])]
  = Some (Some {| features :=
                    [sample_feature "EC_EXETER" "Exeter" (Polygon [square_at 50])];
                  modified := false; rename_count := 0 |}) /\
  [sample_feature "EC_EXETER" "Exeter" (Polygon [square_at 50])]
  = [sample_feature "EC_EXETER" "Exeter" (Polygon [square_at 50])].
Proof.
  assert (H : fix_boundary_version "2024"
                [sample_feature "EC_EXETER" "Exeter" (Polygon [square_at 50])]
              = Some (Some {| features :=
                    [sample_feature "EC_EXETER" "Exeter" (Polygon [square_at 50])];
                  modified := false; rename_count := 0 |}))
    by (vm_compute; reflexivity).
  split; [exact H|].
  exact (fix_boundary_version_unmodified "2024" _ _ H eq_refl).
Defined.

(** No identifier is lost: every identifier borne by a feature after the
    renames is still borne by a feature of the output. *)
Theorem fix_boundary_version_keeps_identifiers version renames data p f :
  renames_of version = Some renames ->
  fix_boundary_version version data = Some (Some p) ->
  f ∈ reconciled version renames data ->
  exists f', f' ∈ features p /\
             p_id (f_properties f') = p_id (f_properties f).
Proof.
  intros Hr Hp Hf.
  destruct (pass_unfold version renames data Hr) as (q & Hq & Hfq & _).
  rewrite Hq in Hp. injection Hp as Hp. rewrite <- Hfq in Hf.
  destruct (decide (version ∈ DEDUP_VERSIONS)) as [Hv|Hv].
  - apply (dedup_stage_unique version q p Hv Hp), Hf.
  - unfold dedup_stage in Hp. destruct (decide _); [contradiction|].
    injection Hp as Hp. subst p. eauto.
Qed.

Lemma fix_boundary_version_keeps_identifiers_witness :
  renames_of "2010" = Some (list_to_map
    (default [] (dict_get BOUNDARY_RENAMES "2010"))) /\
  exists f',
    f' ∈ [ sample_feature "EC_A" "second" (Polygon [square_at 0]);
           sample_feature "EC_WREKIN__THE" "old" (Polygon [[(0, 0); (1, 1)]%Q]) ] /\
    p_id (f_properties f') = "EC_WREKIN__THE"%string.
Proof.
  assert (Hr : renames_of "2010" = Some (list_to_map
                 (default [] (dict_get BOUNDARY_RENAMES "2010"))))
    by (apply (bool_decide_unpack _); vm_compute; exact I).
  assert (Hp : fix_boundary_version "2010" dup_document =
    Some (Some {| features :=
                    [ sample_feature "EC_A" "second" (Polygon [square_at 0]);
                      sample_feature "EC_WREKIN__THE" "old"
                        (Polygon [[(0, 0); (1, 1)]%Q]) ];
                  modified := true; rename_count := 1 |}))
    by (vm_compute; reflexivity).
  split; [exact Hr|].
  apply (fix_boundary_version_keeps_identifiers "2010" _ dup_document _
           (sample_feature "EC_WREKIN__THE" "new" (Polygon [[(2, 2)]%Q])) Hr Hp).
  rewrite reconciled_map. apply list_elem_of_fmap.
  exists (sample_feature "EC_WREKIN__THE" "new" (Polygon [[(2, 2)]%Q])).
  split; [|unfold dup_document; repeat (try (left; fail); right); left].
  rewrite apply_rename_other; [reflexivity|].
  apply (bool_decide_unpack _). vm_compute. exact I.
Defined.

Lemma listed_versions_have_tables :
  Forall (fun v => is_Some (renames_of v) /\ (v ∉ DEDUP_VERSIONS \/ v = "2010"%string))
    (RICHMOND_SPLIT_VERSIONS ++ EMPTY_FEATURE_VERSIONS ++ DEDUP_VERSIONS).
Proof.
  repeat constructor;
    try (apply (bool_decide_unpack _); vm_compute; exact I);
    try (left; apply (proj1 (bool_decide_eq_false _)); vm_compute; reflexivity);
    right; reflexivity.
Qed.

Lemma plain_version_features version data :
  version ∈ RICHMOND_SPLIT_VERSIONS ++ EMPTY_FEATURE_VERSIONS ->
  exists renames p,
    renames_of version = Some renames /\
    fix_boundary_version version data = Some (Some p) /\
    features p = reconciled version renames data.
Proof.
  intros Hv. pose proof listed_versions_have_tables as Hall.
  rewrite Forall_forall in Hall.
  assert (Hd : version ∉ DEDUP_VERSIONS).
  { apply elem_of_app in Hv as [Hv|Hv];
      repeat (apply elem_of_cons in Hv as [->|Hv];
              [apply (proj1 (bool_decide_eq_false _)); vm_compute; reflexivity|]);
      inversion Hv. }
  destruct (Hall version) as [[renames Hr] _].
  { rewrite app_assoc. apply elem_of_app. left. exact Hv. }
  destruct (pass_unfold version renames data Hr) as (q & Hq & Hfq & _).
  exists renames, q. split; [exact Hr|]. split; [|exact Hfq].
  rewrite Hq. unfold dedup_stage. destruct (decide _); [contradiction|reflexivity].
Qed.

(** In a version with the empty-identifier repair a feature identified
    ["EC_"] leaves the pass as [EC_SOUTHEND_WEST], named "Southend West",
    with its geometry untouched. *)
Theorem empty_identifier_repaired version data k f :
  version ∈ EMPTY_FEATURE_VERSIONS ->
  data !! k = Some f ->
  p_id (f_properties f) = "EC_"%string ->
  exists p,
    fix_boundary_version version data = Some (Some p) /\
    features p !! k =
    Some (set_names f "EC_SOUTHEND_WEST" "Southend West" "Southend West").
Proof.
  intros Hv Hk Hid.
  destruct (plain_version_features version data) as (renames & p & Hr & Hp & Hf).
  { apply elem_of_app. right. exact Hv. }
  exists p. split; [exact Hp|].
  rewrite Hf, reconciled_map, list_lookup_fmap, Hk. cbn [fmap option_fmap option_map].
  rewrite (bool_decide_eq_true_2 _ Hv). f_equal.
  assert (E1 : (if bool_decide (version ∈ RICHMOND_SPLIT_VERSIONS)
                then richmond_split else fun g => g) f = f).
  { destruct (bool_decide _); [|reflexivity].
    apply richmond_split_other. rewrite Hid. discriminate. }
  rewrite E1. unfold empty_feature.
  destruct (decide _); [|contradiction].
  apply apply_rename_other. cbn. apply (table_facts _ _ Hr).
Qed.

Lemma empty_identifier_repaired_witness :
  "1997" ∈ EMPTY_FEATURE_VERSIONS /\
  exists p,
    fix_boundary_version "1997"
      [sample_feature "EC_" "" (Polygon [square_at 51])] = Some (Some p) /\
    features p !! 0%nat =
    Some (set_names (sample_feature "EC_" "" (Polygon [square_at 51]))
            "EC_SOUTHEND_WEST" "Southend West" "Southend West").
Proof.
  split; [left|].
  apply (empty_identifier_repaired "1997" _ 0
           (sample_feature "EC_" "" (Polygon [square_at 51])));
    [left | reflexivity | reflexivity].
Defined.

(** ** Rounding the coordinates of a geometry *)

Lemma homogeneous_point p : homogeneous (json_of_point p) = true.
Proof. reflexivity. Qed.

Lemma homogeneous_ring (r : ring) : homogeneous (json_of_ring r) = true.
Proof.
  unfold json_of_ring. cbn [homogeneous]. apply orb_true_iff. right.
  induction r as [|p r IH]; [reflexivity|]. cbn [map forallb]. exact IH.
Qed.

Lemma homogeneous_polygon (p : list ring) : homogeneous (json_of_polygon p) = true.
Proof.
  unfold json_of_polygon. cbn [homogeneous]. apply orb_true_iff. right.
  induction p as [|r p IH]; [reflexivity|].
  cbn [map forallb]. rewrite homogeneous_ring. exact IH.
Qed.

Lemma homogeneous_polygons (ps : list (list ring)) :
  homogeneous (JArr (map json_of_polygon ps)) = true.
Proof.
  cbn [homogeneous]. apply orb_true_iff. right.
  induction ps as [|p ps IH]; [reflexivity|].
  cbn [map forallb]. rewrite homogeneous_polygon. exact IH.
Qed.

Lemma no_empty_points (l : list point) :
  forallb no_empty (map json_of_point l) = true.
Proof. induction l as [|q l IH]; [reflexivity|]. cbn [map forallb]. exact IH. Qed.

Lemma no_empty_ring (r : ring) :
  no_empty (json_of_ring r) = negb (bool_decide (r = [])).
Proof.
  destruct r as [|p r]; [reflexivity|].
  rewrite bool_decide_eq_false_2 by discriminate.
  unfold json_of_ring. cbn [map no_empty].
  apply (no_empty_points (p :: r)).
Qed.

Lemma no_empty_rings (l : list ring) :
  forallb no_empty (map json_of_ring l) =
  forallb (fun r => negb (bool_decide (r = []))) l.
Proof.
  induction l as [|q l IH]; [reflexivity|].
  cbn [map forallb]. rewrite no_empty_ring, IH. reflexivity.
Qed.

Lemma no_empty_polygon (p : list ring) :
  no_empty (json_of_polygon p) = solid_polygon p.
Proof.
  unfold solid_polygon. destruct p as [|r p]; [reflexivity|].
  rewrite bool_decide_eq_false_2 by discriminate.
  unfold json_of_polygon. cbn [map no_empty negb andb].
  apply (no_empty_rings (r :: p)).
Qed.

Lemma no_empty_polygon_list (l : list (list ring)) :
  forallb no_empty (map json_of_polygon l) = forallb solid_polygon l.
Proof.
  induction l as [|q l IH]; [reflexivity|].
  cbn [map forallb]. rewrite no_empty_polygon, IH. reflexivity.
Qed.

Lemma no_empty_polygons (ps : list (list ring)) :
  no_empty (JArr (map json_of_polygon ps)) =
  negb (bool_decide (ps = [])) && forallb solid_polygon ps.
Proof.
  destruct ps as [|p ps]; [reflexivity|].
  rewrite bool_decide_eq_false_2 by discriminate.
  cbn [map no_empty negb andb].
  apply (no_empty_polygon_list (p :: ps)).
Qed.

Lemma round_all_polygon (p : list ring) :
  round_all 3 (json_of_polygon p) = json_of_polygon (map (map round_point) p).
Proof.
  unfold json_of_polygon. cbn [round_all]. f_equal.
  rewrite !map_map. apply map_ext. intros r.
  unfold json_of_ring. cbn [round_all]. f_equal.
  rewrite !map_map. apply map_ext. intros q. reflexivity.
Qed.

(** [round_geometry] is [round_coords] at the coordinates of a Polygon or
    a MultiPolygon: the same exception, or the same rounded
    coordinates. *)
Theorem round_geometry_is_round_coords (g : geometry) :
  round_coords (json_of_coordinates g) 3 =
  json_of_coordinates <$> round_geometry g.
Proof.
  destruct g as [coords|coords|t c].
  - cbn [json_of_coordinates round_geometry].
    rewrite round_coords_homogeneous;
      [|reflexivity | apply homogeneous_polygon].
    rewrite no_empty_polygon, round_all_polygon.
    destruct (solid_polygon coords); reflexivity.
  - cbn [json_of_coordinates round_geometry].
    rewrite round_coords_homogeneous;
      [|reflexivity | apply homogeneous_polygons].
    rewrite no_empty_polygons.
    destruct (negb (bool_decide (coords = [])) && forallb solid_polygon coords);
      [|reflexivity].
    cbn. do 2 f_equal. rewrite !map_map. apply map_ext. intros p.
    apply round_all_polygon.
  - cbn [json_of_coordinates round_geometry].
    destruct (round_coords c 3); reflexivity.
Qed.

Lemma count_points_rings (coords : list ring) (n : nat) :
  fold_left (fun total ring => total + length ring)
    (map (map round_point) coords) n
  = fold_left (fun total ring => total + length ring) coords n.
Proof.
  revert n. induction coords as [|r coords IH]; intros n; [reflexivity|].
  cbn [map fold_left]. rewrite length_map. apply IH.
Qed.

(** Rounding changes neither the type nor the number of points of a
    geometry, the two things the clipper compares. *)
Theorem round_geometry_preserves (g g' : geometry) :
  round_geometry g = Ok g' ->
  geo_type g' = geo_type g /\ count_coords g' = count_coords g.
Proof.
  destruct g as [coords|coords|t c]; cbn [round_geometry].
  - destruct (solid_polygon coords); [|discriminate]. intros [= <-].
    split; [reflexivity|]. apply count_points_rings.
  - destruct (_ && _); [|discriminate]. intros [= <-].
    split; [reflexivity|]. unfold count_coords, count_points.
    generalize 0%nat. induction coords as [|p coords IH]; intros n; [reflexivity|].
    cbn [map fold_left]. rewrite count_points_rings. apply IH.
  - destruct (round_coords c 3); [|discriminate]. intros [= <-].
    split; reflexivity.
Qed.

Lemma round_geometry_preserves_witness :
  round_geometry (Polygon [square_at (515 # 10)]) =
    Ok (Polygon [map round_point (square_at (515 # 10))]) /\
  geo_type (Polygon [map round_point (square_at (515 # 10))]) =
    geo_type (Polygon [square_at (515 # 10)]) /\
  count_coords (Polygon [map round_point (square_at (515 # 10))]) =
    count_coords (Polygon [square_at (515 # 10)]).
Proof.
  split; [reflexivity|].
  apply (round_geometry_preserves (Polygon [square_at (515 # 10)])).
  reflexivity.
Defined.

(** ** round *)

Lemma scale_pos (precision : nat) :
  (0 < inject_Z (10 ^ Z.of_nat precision))%Q.
Proof.
  change 0%Q with (inject_Z 0). rewrite <- Zlt_Qlt.
  apply Z.pow_pos_nonneg; lia.
Qed.


Lemma py_round_nearest c precision :
  py_round c precision =
  (inject_Z (nearest (c * inject_Z (10 ^ Z.of_nat precision)))
   / inject_Z (10 ^ Z.of_nat precision))%Q.
Proof. reflexivity. Qed.


Lemma nearest_compat (x y : Q) : (x == y)%Q -> nearest x = nearest y.
Proof.
  intros H. unfold nearest. cbn zeta.
  rewrite (Qfloor_comp _ _ H).
  assert (Hd : (x - inject_Z (Qfloor y) == y - inject_Z (Qfloor y))%Q)
    by (rewrite H; reflexivity).
  assert (G : forall a b a' b', (a == a')%Q -> (b == b')%Q ->
                Qgtb a b = Qgtb a' b').
  { intros a b a' b' Ha Hb.
    destruct (Qgtb a b) eqn:E, (Qgtb a' b') eqn:E'; try reflexivity.
    - apply Qgtb_lt in E. apply Qgtb_le in E'. rewrite Ha, Hb in E. lra.
    - apply Qgtb_le in E. apply Qgtb_lt in E'. rewrite Ha, Hb in E. lra. }
  rewrite (G _ _ _ _ (Qeq_refl (1 # 2)) Hd).
  rewrite (G _ _ _ _ Hd (Qeq_refl (1 # 2))). reflexivity.
Qed.

Lemma nearest_integer (n : Z) : nearest (inject_Z n) = n.
Proof.
  unfold nearest. cbn zeta. rewrite Qfloor_Z.
  assert (E : Qgtb (1 # 2) (inject_Z n - inject_Z n) = true).
  { apply Qgtb_lt. lra. }
  rewrite E. reflexivity.
Qed.


(** Rounding a rounded number again returns it unchanged. *)
Theorem py_round_idempotent (c : Q) (precision : nat) :
  py_round (py_round c precision) precision = py_round c precision.
Proof.
  pose proof (scale_pos precision) as Hs.
  assert (E : nearest (py_round c precision * inject_Z (10 ^ Z.of_nat precision))
              = nearest (c * inject_Z (10 ^ Z.of_nat precision))).
  { rewrite <- (nearest_integer
                  (nearest (c * inject_Z (10 ^ Z.of_nat precision)))).
    apply nearest_compat. rewrite py_round_nearest. field. lra. }
  rewrite (py_round_nearest (py_round c precision)), E.
  symmetry. apply py_round_nearest.
Qed.

Example py_round_examples :
  py_round (12345 # 10000) 3 = (1234 # 1000)%Q /\
  py_round (12355 # 10000) 3 = (1236 # 1000)%Q /\
  py_round (- (27 # 10000)) 3 = (-3 # 1000)%Q /\
  py_round 7 3 = (7000 # 1000)%Q.
Proof. vm_compute. repeat split. Qed.

(** ** extract_polygons *)

(** [extract_polygons] returns only polygons of the geometry it is given,
    each of area at least [MIN_AREA]; and nothing for an empty
    geometry. *)
Theorem extract_polygons_sound (E : engine) (geom : sgeom) :
  Forall (fun p => (MIN_AREA <= area E p)%Q /\ In p (parts_of geom))
    (extract_polygons E geom) /\
  (is_empty E geom = true -> extract_polygons E geom = []).
Proof.
  split.
  - induction geom as [p|geoms|geoms IH|] using sgeom_ind';
      cbn [extract_polygons parts_of]; destruct (is_empty E _);
      try (constructor; fail).
    + destruct (Qle_bool MIN_AREA (area E p)) eqn:Ea; [|constructor].
      constructor; [|constructor]. split; [apply Qle_bool_iff, Ea | left; reflexivity].
    + apply Forall_forall. intros p Hp.
      apply list_elem_of_In, filter_In in Hp as [Hin Ha].
      split; [apply Qle_bool_iff, Ha | exact Hin].
    + induction IH as [|g gs Hg Hgs IHgs]; [constructor|].
      cbn [flat_map]. apply Forall_app. split.
      * eapply Forall_impl; [exact Hg|]. intros p [Ha Hin].
        split; [exact Ha|]. apply in_or_app. left. exact Hin.
      * eapply Forall_impl; [exact IHgs|]. intros p [Ha Hin].
        split; [exact Ha|]. apply in_or_app. right. exact Hin.
  - intros H. destruct geom; cbn [extract_polygons]; rewrite H; reflexivity.
Qed.

(** ** clip_boundary_file *)

(** What one round of the loop does to a feature, whatever the engine. *)
Lemma clip_feature_frame E land_mask f s :
  clip_feature E land_mask f = Ok s ->
  f_properties (s_feature s) = f_properties f /\
  s_before s = count_coords (f_geometry f) /\
  s_after s = count_coords (f_geometry (if s_modified s then s_feature s else f)) \/
  f_properties (s_feature s) = f_properties f /\
  s_before s = count_coords (f_geometry f) /\
  s_modified s = false.
Proof.
  unfold clip_feature. cbn zeta.
  destruct (clip_geometry E land_mask _ _) as [[printed|r]|e];
    cbn [mbind result_bind rbind]; [| |discriminate].
  - intros [= <-]. right. auto.
  - destruct (_ || _); intros [= <-]; [left | right]; auto.
Qed.

Lemma clip_feature_unmodified E land_mask f s :
  clip_feature E land_mask f = Ok s ->
  (s_modified s = false -> s_feature s = f) /\
  (s_printed s <> [] -> s_modified s = false) /\
  length (s_printed s) <= 1 /\
  (s_modified s = true ->
   s_feature s = set_geometry f (f_geometry (s_feature s)) /\
   (geo_type (f_geometry (s_feature s)) <> geo_type (f_geometry f) \/
    count_coords (f_geometry (s_feature s)) <> count_coords (f_geometry f))).
Proof.
  unfold clip_feature. cbn zeta.
  destruct (clip_geometry E land_mask _ _) as [[printed|r]|e];
    cbn [mbind result_bind rbind]; [| |discriminate].
  - intros [= <-]. cbn. split; [auto|]. split; [auto|].
    split; [destruct printed; cbn; lia | discriminate].
  - destruct (negb (String.eqb (geo_type r) (geo_type (f_geometry f)))
              || negb (count_coords r =? count_coords (f_geometry f))) eqn:Hchg;
      intros [= <-]; cbn.
    + split; [discriminate|]. split; [congruence|]. split; [lia|].
      intros _. split; [reflexivity|].
      apply orb_true_iff in Hchg as [H|H].
      * left. apply eqb_type_differs, H.
      * right. apply negb_true_iff, Nat.eqb_neq in H. exact H.
    + split; [auto|]. split; [auto|]. split; [lia | discriminate].
Qed.

(** The clipper never drops, adds or reorders entities and never touches
    their properties: when [clip_boundary_file] returns, the features
    written back are the loaded ones, each either unchanged or with a new
    geometry that differs in type or point count; [modified_count] is at
    most the number of features and is 0 only when nothing changed;
    [coords_before_total] is the number of points loaded, and at most one
    line is printed per feature. *)
Theorem clip_boundary_file_frame (E : engine) (land_mask : sgeom)
    (features : list feature) (out : clipped_file) :
  clip_boundary_file E land_mask features = Ok out ->
  Forall2
    (fun f f' =>
       f' = f \/
       f' = set_geometry f (f_geometry f') /\
       (geo_type (f_geometry f') <> geo_type (f_geometry f) \/
        count_coords (f_geometry f') <> count_coords (f_geometry f)))
    features (c_features out) /\
  modified_count out <= length features /\
  (modified_count out = 0%nat -> c_features out = features) /\
  coords_before_total out =
    fold_left (fun n f => n + count_coords (f_geometry f)) features 0 /\
  length (c_printed out) <= length features.
Proof.
  unfold clip_boundary_file.
  set (step := fun (acc : result clipped_file) (feature : GeoJSON.feature) => _).
  assert (Hgen : forall l acc out,
            fold_left step l (Ok acc) = Ok out ->
            exists fs' : list feature,
              c_features out = c_features acc ++ fs' /\
              Forall2
                (fun f f' =>
                   f' = f \/
                   f' = set_geometry f (f_geometry f') /\
                   (geo_type (f_geometry f') <> geo_type (f_geometry f) \/
                    count_coords (f_geometry f') <> count_coords (f_geometry f)))
                l fs' /\
              modified_count acc <= modified_count out /\
              modified_count out <= modified_count acc + length l /\
              (modified_count out = modified_count acc -> fs' = l) /\
              coords_before_total out =
                fold_left (fun n f => n + count_coords (f_geometry f)) l
                  (coords_before_total acc) /\
              length (c_printed out) <= length (c_printed acc) + length l).
  { induction l as [|f l IH]; intros acc out' H.
    - cbn in H. injection H as <-. exists []. rewrite app_nil_r.
      cbn. repeat split; try constructor; lia.
    - cbn [fold_left] in H. unfold step at 2 in H.
      cbn [mbind result_bind rbind] in H.
      destruct (clip_feature E land_mask f) as [s|e] eqn:Es.
      2:{ cbn [rbind] in H. exfalso. clear -H.
          induction l as [|g l IHl]; [discriminate H|]. apply IHl. exact H. }
      cbn [rbind] in H.
      destruct (IH _ _ H) as (fs' & Hfs & HF & Hlo & Hhi & Hz & Hb & Hp).
      cbn [c_features modified_count coords_before_total c_printed] in *.
      destruct (clip_feature_unmodified _ _ _ _ Es) as (Hun & _ & Hlen & Hmod).
      assert (Hbefore : s_before s = count_coords (f_geometry f)).
      { destruct (clip_feature_frame _ _ _ _ Es) as [(_ & Hb' & _)|(_ & Hb' & _)];
          exact Hb'. }
      exists (s_feature s :: fs'). rewrite <- app_assoc in Hfs.
      split; [exact Hfs|].
      split; [constructor; [|exact HF];
              destruct (s_modified s); [right; apply Hmod; reflexivity
                                       |left; apply Hun; reflexivity]|].
      rewrite length_app in Hp. cbn [length].
      destruct (s_modified s) eqn:Em.
      + split; [lia|]. split; [lia|]. split; [lia|].
        split; [rewrite Hb, Hbefore; reflexivity | lia].
      + split; [lia|]. split; [lia|].
        split; [intros Heq; rewrite Hz by lia; rewrite Hun by reflexivity;
                reflexivity|].
        split; [rewrite Hb, Hbefore; reflexivity | lia]. }
  intros H. destruct (Hgen _ _ _ H) as (fs' & Hfs & HF & Hlo & Hhi & Hz & Hb & Hp).
  cbn in Hfs, Hlo, Hhi, Hz, Hb, Hp. subst fs'.
  split; [exact HF|]. split; [exact Hhi|]. split; [exact Hz|].
  split; [exact Hb | exact Hp].
Qed.

Example clip_two_features :
  clip_boundary_file demo_engine SOther
    [square_feature;
     sample_feature "EC_LINE" "Line" (OtherGeometry LineString (JArr []))]
  = Ok {| c_features :=
            [square_feature;
             sample_feature "EC_LINE" "Line" (OtherGeometry LineString (JArr []))];
          modified_count := 0; coords_before_total := 5;
          coords_after_total := 5;
          c_printed := [NoPolygonParts "EC_LINE"] |}.
Proof. vm_compute. reflexivity. Qed.

Lemma clip_boundary_file_frame_witness :
  clip_boundary_file demo_engine SOther [degenerate_feature; square_feature] =
    Ok {| c_features := [degenerate_feature; square_feature];
          modified_count := 0; coords_before_total := 8;
          coords_after_total := 8; c_printed := [] |} /\
  (0%nat = 0%nat ->
   [degenerate_feature; square_feature] = [degenerate_feature; square_feature]).
Proof.
  assert (H : clip_boundary_file demo_engine SOther
                [degenerate_feature; square_feature] =
              Ok {| c_features := [degenerate_feature; square_feature];
                    modified_count := 0; coords_before_total := 8;
                    coords_after_total := 8; c_printed := [] |})
    by (vm_compute; reflexivity).
  split; [exact H|].
  exact (proj1 (proj2 (proj2 (clip_boundary_file_frame demo_engine SOther
                                _ _ H)))).
Defined.

(** ** sync_boundary_names *)

Lemma sync_feature_cases name_lookup f :
  (name_lookup !! p_id (f_properties f) = None /\
   sync_feature name_lookup f = (f, false)) \/
  (exists name,
     name_lookup !! p_id (f_properties f) = Some name /\
     default ""%string (p_Name (f_properties f)) = name /\
     default ""%string (p_normalizedName (f_properties f)) =
       normalize_constituency_name name /\
     sync_feature name_lookup f = (f, false)) \/
  (exists name,
     name_lookup !! p_id (f_properties f) = Some name /\
     (default ""%string (p_Name (f_properties f)) <> name \/
      default ""%string (p_normalizedName (f_properties f)) <>
        normalize_constituency_name name) /\
     sync_feature name_lookup f =
       (set_names f (p_id (f_properties f)) name
          (normalize_constituency_name name), true)).
Proof.
  unfold sync_feature.
  destruct (name_lookup !! p_id (f_properties f)) as [name|]; [|left; auto].
  right. cbn zeta.
  destruct (String.eqb_spec (default ""%string (p_Name (f_properties f))) name)
    as [E1|E1];
    destruct (String.eqb_spec
                (default ""%string (p_normalizedName (f_properties f)))
                (normalize_constituency_name name)) as [E2|E2];
    cbn [negb orb].
  - left. exists name. auto.
  - right. exists name. auto.
  - right. exists name. auto.
  - right. exists name. auto.
Qed.

(** The name sync keeps the identifier and the geometry of every feature
    and the order of the features; a feature whose identifier is not in the
    lookup is left as it is, and every other feature ends up with the
    election name as [Name] and its normal form as [normalizedName]. *)
Theorem sync_boundary_names_frame (name_lookup : gmap string string)
    (data : list feature) :
  Forall2
    (fun f f' =>
       p_id (f_properties f') = p_id (f_properties f) /\
       f_geometry f' = f_geometry f /\
       match name_lookup !! p_id (f_properties f) with
       | None => f' = f
       | Some name =>
           default ""%string (p_Name (f_properties f')) = name /\
           default ""%string (p_normalizedName (f_properties f')) =
             normalize_constituency_name name
       end)
    data (fst (sync_boundary_names name_lookup data)).
Proof.
  unfold sync_boundary_names. cbn [fst].
  induction data as [|f data IH]; cbn [map]; constructor; [|exact IH].
  destruct (sync_feature_cases name_lookup f)
    as [(Hn & ->)|[(name & Hn & H1 & H2 & ->)|(name & Hn & _ & ->)]];
    cbn [fst]; rewrite Hn; auto.
Qed.

Lemma sync_feature_idem name_lookup f :
  sync_feature name_lookup (fst (sync_feature name_lookup f)) =
  (fst (sync_feature name_lookup f), false).
Proof.
  destruct (sync_feature_cases name_lookup f)
    as [(Hn & E)|[(name & Hn & H1 & H2 & E)|(name & Hn & _ & E)]];
    rewrite E; cbn [fst]; [exact E | exact E |].
  unfold sync_feature. cbn [set_names f_properties p_id p_Name p_normalizedName].
  rewrite Hn. cbn [default]. rewrite !String.eqb_refl. reflexivity.
Qed.

Lemma sync_feature_changed name_lookup f :
  snd (sync_feature name_lookup f) = false <->
  fst (sync_feature name_lookup f) = f.
Proof.
  destruct (sync_feature_cases name_lookup f)
    as [(Hn & E)|[(name & Hn & H1 & H2 & E)|(name & Hn & Hd & E)]];
    rewrite E; cbn [fst snd]; [tauto | tauto |].
  split; [discriminate|]. intros Heq. exfalso.
  destruct Hd as [Hd|Hd]; apply Hd; rewrite <- Heq; reflexivity.
Qed.

(** The name sync is idempotent, and it counts an update (so that the file
    is written back) exactly when the document changes. *)
Theorem sync_boundary_names_idempotent (name_lookup : gmap string string)
    (data : list feature) :
  sync_boundary_names name_lookup (fst (sync_boundary_names name_lookup data))
  = (fst (sync_boundary_names name_lookup data), 0%nat) /\
  (snd (sync_boundary_names name_lookup data) = 0%nat <->
   fst (sync_boundary_names name_lookup data) = data).
Proof.
  unfold sync_boundary_names. cbn [fst snd]. split.
  - f_equal.
    + rewrite map_map. apply map_ext. intros f.
      rewrite sync_feature_idem. reflexivity.
    + induction data as [|f data IH]; [reflexivity|].
      cbn [map]. rewrite filter_cons, sync_feature_idem. cbn [snd].
      destruct (decide (false = true)); [discriminate | exact IH].
  - induction data as [|f data IH]; [cbn; tauto|].
    cbn [map]. rewrite filter_cons.
    destruct (decide (snd (sync_feature name_lookup f) = true)) as [E|E].
    + split; [discriminate|]. intros [= H _].
      apply sync_feature_changed in H. congruence.
    + rewrite IH. split.
      * intros ->. f_equal. apply sync_feature_changed.
        destruct (snd (sync_feature name_lookup f)); congruence.
      * intros [= _ H]. exact H.
Qed.

Example sync_richmond :
  sync_boundary_names {[ "EC_RICHMOND__SURREY_"%string := "Richmond (Surrey)"%string ]}
    [sample_feature "EC_RICHMOND__SURREY_" "Richmond (Surrey)" (Polygon [])]
  = ([{| f_properties :=
           {| p_id := "EC_RICHMOND__SURREY_";
              p_Name := Some "Richmond (Surrey)"%string;
              p_normalizedName := Some "richmond (surrey)"%string |};
         f_geometry := Polygon [] |}], 1%nat).
Proof. vm_compute. reflexivity. Qed.

(** ** More on the winding-order pass *)


Lemma rewind_ring_length i r : length (rewind_ring i r) = length r.
Proof. unfold rewind_ring. destruct (wrong_way _ _); [apply length_rev | reflexivity]. Qed.

Lemma count_imap (g : nat -> ring -> ring) (l : list ring) (n : nat) :
  (forall i r, length (g i r) = length r) ->
  fold_left (fun total ring => total + length ring) (imap g l) n
  = fold_left (fun total ring => total + length ring) l n.
Proof.
  revert g n. induction l as [|r l IH]; intros g n Hg; [reflexivity|].
  cbn [imap fold_left]. rewrite Hg. apply IH. intros i x. apply Hg.
Qed.

Lemma nested_count {A : Type} (len : A -> nat) (h : list A -> list A)
    (ps : list (list A)) (n : nat) :
  (forall p m, fold_left (fun t r => t + len r) (h p) m
               = fold_left (fun t r => t + len r) p m) ->
  fold_left (fun t poly => fold_left (fun t r => t + len r) poly t) (map h ps) n
  = fold_left (fun t poly => fold_left (fun t r => t + len r) poly t) ps n.
Proof.
  intros H. revert n. induction ps as [|p ps IH]; intros n; [reflexivity|].
  cbn [map fold_left]. rewrite H. apply IH.
Qed.

Lemma count_points_rewind g : count_points (rewind_geometry g) = count_points g.
Proof.
  destruct g as [rings|polygons|t c]; cbn [rewind_geometry count_points];
    [| |reflexivity].
  - apply count_imap. apply rewind_ring_length.
  - apply (nested_count (@length point) rewind_rings).
    intros p m. apply count_imap. apply rewind_ring_length.
Qed.

Lemma sum_zero {A : Type} (h : A -> nat) (l : list A) (a : nat) :
  fold_left (fun n x => n + h x) l a = 0%nat ->
  a = 0%nat /\ Forall (fun x => h x = 0%nat) l.
Proof.
  revert a. induction l as [|x l IH]; intros a H; [cbn in H; auto|].
  cbn [fold_left] in H. destruct (IH _ H) as [Ha Hl].
  split; [lia|]. constructor; [lia | exact Hl].
Qed.

Lemma count_true_zero {A : Type} (g : nat -> A -> bool) (l : list A) :
  length (filter (fun b : bool => b = true) (imap g l)) = 0%nat ->
  forall i x, l !! i = Some x -> g i x = false.
Proof.
  revert g. induction l as [|y l IH]; intros g H i x Hi; [discriminate Hi|].
  cbn [imap] in H. rewrite filter_cons in H.
  destruct (decide (g 0%nat y = true)) as [E|E]; [discriminate H|].
  destruct i as [|i].
  - cbn in Hi. injection Hi as <-. destruct (g 0%nat y); congruence.
  - apply (IH (g ∘ S) H i x Hi).
Qed.

Lemma rewind_rings_untouched rings :
  rewound_in rings = 0%nat -> rewind_rings rings = rings.
Proof.
  intros H. apply list_eq. intros i. rewrite rewind_rings_lookup.
  destruct (rings !! i) as [r|] eqn:Hi; [|reflexivity].
  cbn. f_equal. unfold rewind_ring.
  rewrite (count_true_zero _ _ H i r Hi). reflexivity.
Qed.

Lemma rewind_geometry_untouched g :
  rewound_geometry g = 0%nat -> rewind_geometry g = g.
Proof.
  destruct g as [rings|polygons|t c]; cbn [rewound_geometry rewind_geometry];
    intros H; [| |reflexivity].
  - rewrite rewind_rings_untouched by exact H. reflexivity.
  - apply sum_zero in H as [_ H]. f_equal. apply map_fixed.
    eapply Forall_impl; [exact H|]. intros p. apply rewind_rings_untouched.
Qed.

(** The winding-order pass changes nothing but the order of points inside
    rings: properties, geometry type and point count of every feature are
    kept; and when it leaves [modified] down (the file is not written
    back) the document is unchanged. *)
Theorem fix_winding_order_frame (data : list feature) :
  let out := fix_winding_order data in
  Forall2
    (fun f f' =>
       f_properties f' = f_properties f /\
       geo_type (f_geometry f') = geo_type (f_geometry f) /\
       FixData.count_coords f' = FixData.count_coords f)
    data (w_features out) /\
  (w_modified out = false -> w_features out = data) /\
  (w_modified out = true <-> 0 < rewound out).
Proof.
  cbn zeta. unfold fix_winding_order. cbn [w_features w_modified rewound].
  split; [|split].
  - induction data as [|f data IH]; cbn [map]; constructor; [|exact IH].
    split; [reflexivity|]. split.
    + cbn. destruct (f_geometry f); reflexivity.
    + unfold FixData.count_coords. cbn. apply count_points_rewind.
  - intros H. apply Nat.ltb_ge, Nat.le_0_r in H.
    apply (sum_zero (fun f => rewound_geometry (f_geometry f))) in H as [_ H].
    apply map_fixed. eapply Forall_impl; [exact H|].
    intros f Hf. cbn in Hf. destruct f as [props g]. unfold set_geometry. cbn in *.
    rewrite rewind_geometry_untouched by exact Hf. reflexivity.
  - apply Nat.ltb_lt.
Qed.

(** ** The name lookup of sync_boundary_names *)

Lemma first_name_app cid a b :
  first_name cid (a ++ b) =
  match first_name cid a with
  | Some n => Some n
  | None => first_name cid b
  end.
Proof.
  unfold first_name. induction a as [|c a IH]; [reflexivity|].
  cbn [app List.find]. destruct (bool_decide _); [reflexivity | exact IH].
Qed.

Lemma add_names_lookup names election cid :
  add_names names election !! cid =
  match names !! cid with
  | Some n => Some n
  | None => first_name cid election
  end.
Proof.
  unfold add_names. revert names.
  induction election as [|c cs IH]; intros names; cbn [fold_left].
  - destruct (names !! cid); reflexivity.
  - rewrite IH. unfold first_name. cbn [List.find].
    destruct (decide (constituencyId c = cid)) as [E|E].
    + rewrite (bool_decide_eq_true_2 _ E). subst cid.
      destruct (names !! constituencyId c) as [n|] eqn:Hn.
      * rewrite Hn. reflexivity.
      * rewrite lookup_insert_eq. reflexivity.
    + rewrite (bool_decide_eq_false_2 _ E).
      destruct (names !! constituencyId c) as [n|] eqn:Hn; [reflexivity|].
      rewrite lookup_insert_ne by exact E. reflexivity.
Qed.

Lemma name_lookup_loop_lookup elections items lookup bv cid :
  name_lookup_loop elections items lookup !! bv ≫= (.!! cid) =
  match lookup !! bv ≫= (.!! cid) with
  | Some n => Some n
  | None => first_name cid (concat (map elections (years_of bv items)))
  end.
Proof.
  unfold name_lookup_loop. revert lookup.
  induction items as [|[year_str b] items IH]; intros lookup; cbn [fold_left].
  - destruct (lookup !! bv ≫= _); reflexivity.
  - rewrite IH. clear IH. unfold years_of. rewrite filter_cons. cbn [snd].
    destruct (decide (b = bv)) as [->|E].
    + rewrite lookup_insert_eq. cbn [mbind option_bind map fst concat].
      rewrite add_names_lookup, first_name_app.
      destruct (lookup !! bv) as [names|] eqn:Hl.
      * rewrite Hl. cbn. destruct (names !! cid); reflexivity.
      * rewrite lookup_insert_eq. cbn. rewrite lookup_empty. reflexivity.
    + rewrite lookup_insert_ne by exact E.
      destruct (lookup !! b); [reflexivity|].
      rewrite lookup_insert_ne by exact E. reflexivity.
Qed.

Lemma name_lookup_loop_dom elections items lookup bv :
  is_Some (name_lookup_loop elections items lookup !! bv) <->
  is_Some (lookup !! bv) \/ bv ∈ map snd items.
Proof.
  unfold name_lookup_loop. revert lookup.
  induction items as [|[year_str b] items IH]; intros lookup; cbn [fold_left map snd].
  - rewrite elem_of_nil. tauto.
  - rewrite IH, elem_of_cons. clear IH.
    destruct (decide (b = bv)) as [->|E].
    + rewrite lookup_insert_eq. split; [auto|]. intros _. left. eauto.
    + rewrite lookup_insert_ne by exact E.
      destruct (lookup !! b).
      * split; [intros [H|H]; auto | intros [H|[H|H]]; auto; congruence].
      * rewrite lookup_insert_ne by exact E.
        split; [intros [H|H]; auto | intros [H|[H|H]]; auto; congruence].
Qed.

(** The name lookup that [sync_boundary_names] builds has an entry for a
    boundary version exactly when some election year maps to it, and the
    name it holds for an identifier is the name of the first constituency
    with that identifier in the election documents of the version's years,
    taken in dictionary order: the first year takes precedence, and inside
    a document the first entry. *)
Theorem boundary_name_lookup_first (elections : string -> list constituency)
    (bv cid : string) :
  boundary_name_lookup elections !! bv ≫= (.!! cid) =
    first_name cid (concat (map elections (years_of bv year_to_boundary))) /\
  (is_Some (boundary_name_lookup elections !! bv) <->
   bv ∈ map snd year_to_boundary).
Proof.
  unfold boundary_name_lookup. split.
  - rewrite name_lookup_loop_lookup, lookup_empty. reflexivity.
  - rewrite name_lookup_loop_dom, lookup_empty.
    split; [intros [[x H]|H]; [discriminate H | exact H] | auto].
Qed.

(** ** Centroid latitude and the Richmond split *)

Lemma Qsum_nil : Qsum [] = 0%Q.
Proof. reflexivity. Qed.

Lemma Qsum_cons (x : Q) (l : list Q) : Qsum (x :: l) = (x + Qsum l)%Q.
Proof. reflexivity. Qed.

Lemma fold_Qplus (l : list Q) (a : Q) : (fold_left Qplus l a == a + Qsum l)%Q.
Proof.
  revert a. induction l as [|x l IH]; intros a; cbn [fold_left].
  - rewrite Qsum_nil. ring.
  - rewrite IH, Qsum_cons. ring.
Qed.

Lemma Qlen_succ (n : nat) :
  (inject_Z (Z.of_nat (S n)) == inject_Z (Z.of_nat n) + 1)%Q.
Proof. rewrite Nat2Z.inj_succ, <- Z.add_1_r, inject_Z_plus. reflexivity. Qed.

Lemma Qlen_pos (n : nat) : (0 < inject_Z (Z.of_nat (S n)))%Q.
Proof. change 0%Q with (inject_Z 0). rewrite <- Zlt_Qlt. lia. Qed.

Lemma Qsum_lower (lo : Q) (l : list Q) :
  Forall (fun x => (lo <= x)%Q) l ->
  (lo * inject_Z (Z.of_nat (length l)) <= Qsum l)%Q.
Proof.
  induction 1 as [|x l Hx _ IH]; cbn [length].
  - rewrite Qsum_nil. change (inject_Z (Z.of_nat 0)) with 0%Q. lra.
  - rewrite Qlen_succ, Qsum_cons. lra.
Qed.

Lemma Qsum_upper (hi : Q) (l : list Q) :
  Forall (fun x => (x <= hi)%Q) l ->
  (Qsum l <= hi * inject_Z (Z.of_nat (length l)))%Q.
Proof.
  induction 1 as [|x l Hx _ IH]; cbn [length].
  - rewrite Qsum_nil. change (inject_Z (Z.of_nat 0)) with 0%Q. lra.
  - rewrite Qlen_succ, Qsum_cons. lra.
Qed.

Lemma Qsum_above (lo : Q) (x : Q) (l : list Q) :
  Forall (fun x => (lo < x)%Q) (x :: l) ->
  (lo * inject_Z (Z.of_nat (length (x :: l))) < Qsum (x :: l))%Q.
Proof.
  intros H. apply Forall_cons in H as [Hx Hl].
  assert (lo * inject_Z (Z.of_nat (length l)) <= Qsum l)%Q as Hs.
  { apply Qsum_lower. eapply Forall_impl; [exact Hl|].
    intros y. apply Qlt_le_weak. }
  cbn [length]. rewrite Qlen_succ, Qsum_cons. lra.
Qed.

Lemma centroid_of_points f p l :
  point_list (f_geometry f) = p :: l ->
  (get_centroid_lat f ==
   Qsum (map snd (p :: l)) / inject_Z (Z.of_nat (length (map snd (p :: l)))))%Q.
Proof.
  intros Hp. rewrite get_centroid_lat_mean, Hp. cbv beta iota.
  rewrite length_map.
  apply Qdiv_comp; [rewrite fold_Qplus; ring | reflexivity].
Qed.


Lemma centroid_above f lo :
  point_list (f_geometry f) <> [] ->
  Forall (fun p => (lo < snd p)%Q) (point_list (f_geometry f)) ->
  (lo < get_centroid_lat f)%Q.
Proof.
  intros Hne Hall.
  destruct (point_list (f_geometry f)) as [|p l] eqn:Hp; [contradiction|].
  rewrite (centroid_of_points f p l Hp).
  apply Qlt_shift_div_l; [apply Qlen_pos|].
  cbn [map]. apply Qsum_above.
  change (Forall (fun x => (lo < x)%Q) (map snd (p :: l))).
  apply Forall_fmap. exact Hall.
Qed.



(** The Richmond split follows the latitudes of the points: a feature
    EC_RICHMOND with at least one point and every point north of 53
    becomes Richmond (Yorks.), and one with no point north of 53 (or with
    no point at all) becomes Richmond (Surrey). *)
Theorem richmond_split_by_latitude (f : feature) :
  p_id (f_properties f) = "EC_RICHMOND" ->
  (point_list (f_geometry f) <> [] ->
   Forall (fun p => (53 < snd p)%Q) (point_list (f_geometry f)) ->
   richmond_split f =
   set_names f "EC_RICHMOND__YORKS_" "Richmond (Yorks.)" "Richmond (Yorks.)") /\
  (Forall (fun p => (snd p <= 53)%Q) (point_list (f_geometry f)) ->
   richmond_split f =
   set_names f "EC_RICHMOND__SURREY_" "Richmond (Surrey)" "Richmond (Surrey)").
Proof.
  intros Hid. split.
  - intros Hne Hall. apply richmond_split_north; [exact Hid|].
    apply centroid_above; assumption.
  - intros Hall. apply richmond_split_south; [exact Hid|].
    destruct (point_list (f_geometry f)) as [|p l] eqn:Hp.
    + rewrite get_centroid_lat_mean, Hp. discriminate.
    + rewrite (centroid_of_points f p l Hp).
      apply Qle_shift_div_r; [apply Qlen_pos|].
      apply Qsum_upper, Forall_fmap. exact Hall.
Qed.

Lemma richmond_split_by_latitude_witness :
  p_id (f_properties (richmond_split (sample_feature "EC_RICHMOND" "Richmond" (Polygon [square_at 54]))))
  = "EC_RICHMOND__YORKS_"%string.
Proof.
  destruct (richmond_split_by_latitude (sample_feature "EC_RICHMOND" "Richmond" (Polygon [square_at 54])) eq_refl)
    as [H _].
  rewrite H; [reflexivity | vm_compute; discriminate |].
  vm_compute. repeat (constructor; [reflexivity|]). constructor.
Defined.

(** ** The passes one after the other *)



